(** * ff-services-pymupdf: the document-reconstruction pipeline

    A shallow embedding of
      - [src/converters/role_detector.py]   (module [RoleDetector]),
      - [src/converters/result_assembler.py] (module [ResultAssembler]),
      - [src/converters/html_converter.py]  (module [HtmlConverter]),
      - [src/utils/page_filter.py]          (module [PageFilter]),
    followed by the properties of the specification proved about them.

    Conventions of the embedding.
      - A Python [dict] payload is a record.  A key the code reads with
        [d.get(k, default)] is an [option] field ([None]: the key is
        absent); a key the code reads with [d[k]] on a dict that may lack it
        is an [option] field read through [getitem], which raises
        [KeyError]; ids and table-cell coordinates are plain fields.
      - Python numbers ([int] and [float] coordinates, font sizes) are exact
        rationals [Q]; page numbers, spans and counts are [Z] or [nat].
        NaN and infinities are outside the model, and [body_size * 1.5] is
        the exact product.
      - Exceptions are values of [Py.exn] carried by the [Py.result] monad.
      - In-place mutation of a list of dicts is a function returning the
        updated list. *)

From Stdlib Require Import QArith Qround Qminmax Ascii String Lqa.
From Stdlib Require OrderedTypeEx.
From stdpp Require Import base list gmap strings sorting pretty.

Local Open Scope string_scope.
Local Open Scope list_scope.

(** ** Python runtime: exceptions, numbers, builtins *)

Module Py.

(** [ValueError_int s] is the [ValueError] that [int(s)] raises on a
    malformed literal [s]. *)
Inductive exn : Type :=
| KeyError (key : string)
| ValueError (msg : string)
| ValueError_int (literal : string).

Definition is_ValueError (e : exn) : bool :=
  match e with
  | KeyError _ => false
  | ValueError _ | ValueError_int _ => true
  end.

Inductive result (A : Type) : Type :=
| Ok (a : A)
| Raise (e : exn).
Arguments Ok {A} a.
Arguments Raise {A} e.

#[export] Instance result_ret : MRet result := @Ok.
#[export] Instance result_bind : MBind result := λ A B f m,
  match m with
  | Ok a => f a
  | Raise e => Raise e
  end.

(** The string ["\n"]. *)
Definition newline : string := String "010"%char EmptyString.

(** [d[key]] on a dict that may lack [key]. *)
Definition getitem {A} (key : string) (field : option A) : result A :=
  match field with
  | Some v => Ok v
  | None => Raise (KeyError key)
  end.

(** [d.get(key, dflt)]. *)
Definition get {A} (field : option A) (dflt : A) : A :=
  match field with
  | Some v => v
  | None => dflt
  end.

(** A [for] loop threading an accumulator, stopping at the first
    exception. *)
Fixpoint for_each {A S} (body : S → A → result S) (s : S) (l : list A)
  : result S :=
  match l with
  | [] => Ok s
  | x :: l' => s' ← body s x; for_each body s' l'
  end.

(** Comparison of numbers: [a < b], [a > b], [a >= b]. *)
Definition lt (a b : Q) : bool := negb (Qle_bool b a).
Definition gt (a b : Q) : bool := lt b a.
Definition ge (a b : Q) : bool := Qle_bool b a.

(** The builtins [min(a, b)] and [max(a, b)]: the first argument wins
    a tie. *)
Definition min (a b : Q) : Q := if lt b a then b else a.
Definition max (a b : Q) : Q := if gt b a then b else a.

(** [round(x, 1)]: the nearest multiple of one tenth, a tie going to the
    even one. *)
Definition round_half_even (q : Q) : Z :=
  let f := Qfloor q in
  match (q - inject_Z f ?= 1 # 2)%Q with
  | Lt => f
  | Gt => (f + 1)%Z
  | Eq => if Z.even f then f else (f + 1)%Z
  end.
Definition round1 (x : Q) : Q :=
  (inject_Z (round_half_even (x * 10)) / 10)%Q.

(** [list.sort(key=...)]: a stable sort that compares keys with [<] only.
    An element is inserted in front of the already sorted rest of the
    list, and moves right only past elements with a strictly smaller key.
    The result of a stable sort does not depend on the algorithm (lemma
    [sort_unique]). *)
Section Sort.
Context {A K : Type} (key : A → K) (key_lt : K → K → bool).

Fixpoint insert_sorted (x : A) (s : list A) : list A :=
  match s with
  | [] => [x]
  | y :: s' =>
      if key_lt (key y) (key x) then y :: insert_sorted x s'
      else x :: y :: s'
  end.

Fixpoint sort (l : list A) : list A :=
  match l with
  | [] => []
  | x :: l' => insert_sorted x (sort l')
  end.

(** [a] may stand before [b]: the key of [b] is not smaller. *)
Definition not_after (a b : A) : Prop := key_lt (key b) (key a) = false.

(** [a] has the key [k], as far as [<] can tell. *)
Definition same_key (k : K) (a : A) : Prop :=
  key_lt (key a) k = false ∧ key_lt k (key a) = false.
End Sort.

(** Comparison [<] of the tuples [(page, y)]: the first components that
    differ decide. *)
Definition tuple_lt (a b : Z * Q) : bool :=
  if (a.1 =? b.1)%Z then lt a.2 b.2 else (a.1 <? b.1)%Z.

End Py.
Export Py.

(** ** Data model: the dict payloads *)

Module BoundingBox.
Record t : Type := mk
  { x_min : option Q; y_min : option Q; x_max : option Q; y_max : option Q }.
(** The empty dict [{}]. *)
Definition empty : t := mk None None None None.
(** Truth value of the dict: false exactly for [{}]. *)
Definition truthy (b : t) : bool :=
  match x_min b, y_min b, x_max b, y_max b with
  | None, None, None, None => false
  | _, _, _, _ => true
  end.
End BoundingBox.

Module Font.
Record t : Type := mk
  { name : option string; size : option Q; bold : option bool }.
Definition empty : t := mk None None None.
End Font.

Module Paragraph.
Record t : Type := mk
  { id : string;
    content : option string;
    role : option string;
    page_number : option Z;
    bounding_box : option BoundingBox.t;
    font : option Font.t }.
End Paragraph.

(** [row_index] and [column_index] are positions in the grid, counted from
    0; the spans are read only through [.get(..., 1)]. *)
Module Cell.
Record t : Type := mk
  { row_index : nat;
    column_index : nat;
    row_span : option Z;
    column_span : option Z;
    content : string;
    kind : option string }.
End Cell.

(** The renderer reads [id], [columns] and [cells]; the assembler reads
    [id], [page_number] and [bounding_box]; [rows] is carried along. *)
Module Table.
Record t : Type := mk
  { id : string;
    page_number : option Z;
    bounding_box : option BoundingBox.t;
    rows : option nat;
    columns : option nat;
    cells : option (list Cell.t) }.
End Table.

Module Image.
Record t : Type := mk
  { id : string;
    page_number : option Z;
    mime_type : option string;
    data : option string;
    bounding_box : option BoundingBox.t }.
End Image.

Module ContentBlock.
Record t : Type := mk
  { type : string; page : Z; y_position : Q; content_id : string }.
(** The sort key [(b["page"], b["y_position"])]. *)
Definition key (b : t) : Z * Q := (page b, y_position b).
End ContentBlock.

Module DocumentAnalysisResult.
Record t : Type := mk
  { model_used : string;
    pages : Z;
    paragraphs : list Paragraph.t;
    tables : list Table.t;
    images : list Image.t;
    full_text : string;
    content_blocks : list ContentBlock.t }.
End DocumentAnalysisResult.

(** ** [src/converters/result_assembler.py] *)

Module ResultAssembler.

(** The body of the [for table in tables] loop of [_overlaps_any_table],
    with its [continue] and early [return True]. *)
Fixpoint overlaps_loop (para : Paragraph.t) (p_bbox : BoundingBox.t)
    (tables : list Table.t) : result bool :=
  match tables with
  | [] => Ok false
  | table :: rest =>
      match Table.bounding_box table with
      | None => overlaps_loop para p_bbox rest
      | Some t_bbox =>
          if negb (BoundingBox.truthy t_bbox) then
            overlaps_loop para p_bbox rest
          else if negb (bool_decide (Paragraph.page_number para
                                     = Table.page_number table)) then
            overlaps_loop para p_bbox rest
          else
            px1 ← getitem "x_max" (BoundingBox.x_max p_bbox);
            tx1 ← getitem "x_max" (BoundingBox.x_max t_bbox);
            px0 ← getitem "x_min" (BoundingBox.x_min p_bbox);
            tx0 ← getitem "x_min" (BoundingBox.x_min t_bbox);
            let overlap_x := Py.max 0 (Py.min px1 tx1 - Py.max px0 tx0) in
            py1 ← getitem "y_max" (BoundingBox.y_max p_bbox);
            ty1 ← getitem "y_max" (BoundingBox.y_max t_bbox);
            py0 ← getitem "y_min" (BoundingBox.y_min p_bbox);
            ty0 ← getitem "y_min" (BoundingBox.y_min t_bbox);
            let overlap_y := Py.max 0 (Py.min py1 ty1 - Py.max py0 ty0) in
            if Py.gt overlap_x 0 && Py.gt overlap_y 0 then Ok true
            else overlaps_loop para p_bbox rest
      end
  end.

Definition _overlaps_any_table (para : Paragraph.t) (tables : list Table.t)
  : result bool :=
  match Paragraph.bounding_box para with
  | None => Ok false
  | Some p_bbox =>
      if negb (BoundingBox.truthy p_bbox) then Ok false
      else overlaps_loop para p_bbox tables
  end.

Definition _filter_table_overlaps (paragraphs : list Paragraph.t)
    (tables : list Table.t) : result (list Paragraph.t) :=
  match tables with
  | [] => Ok paragraphs
  | _ =>
      for_each
        (λ filtered para,
           b ← _overlaps_any_table para tables;
           Ok (if negb b then filtered ++ [para] else filtered))
        [] paragraphs
  end.

Definition y_min_of (bbox : option BoundingBox.t) : Q :=
  get (BoundingBox.y_min (get bbox BoundingBox.empty)) 0%Q.

Definition paragraph_block (para : Paragraph.t) : ContentBlock.t :=
  {| ContentBlock.type := "paragraph";
     ContentBlock.page := get (Paragraph.page_number para) 1%Z;
     ContentBlock.y_position := y_min_of (Paragraph.bounding_box para);
     ContentBlock.content_id := Paragraph.id para |}.

Definition table_block (table : Table.t) : ContentBlock.t :=
  {| ContentBlock.type := "table";
     ContentBlock.page := get (Table.page_number table) 1%Z;
     ContentBlock.y_position := y_min_of (Table.bounding_box table);
     ContentBlock.content_id := Table.id table |}.

Definition image_block (img : Image.t) : ContentBlock.t :=
  {| ContentBlock.type := "image";
     ContentBlock.page := get (Image.page_number img) 1%Z;
     ContentBlock.y_position := y_min_of (Image.bounding_box img);
     ContentBlock.content_id := Image.id img |}.

(** A loop [for x in l: content_blocks.append(block x)]. *)
Definition append_blocks {A} (block : A → ContentBlock.t)
    (content_blocks : list ContentBlock.t) (l : list A)
  : list ContentBlock.t :=
  foldl (λ acc x, acc ++ [block x]) content_blocks l.

Definition assemble (paragraphs : list Paragraph.t) (tables : list Table.t)
    (images : option (list Image.t)) (total_pages : Z)
  : result DocumentAnalysisResult.t :=
  let images := get images [] in
  let content_blocks := [] in
  filtered_paragraphs ← _filter_table_overlaps paragraphs tables;
  let content_blocks :=
    append_blocks paragraph_block content_blocks filtered_paragraphs in
  let content_blocks := append_blocks table_block content_blocks tables in
  let content_blocks := append_blocks image_block content_blocks images in
  let content_blocks := Py.sort ContentBlock.key tuple_lt content_blocks in
  contents ←
    for_each
      (λ acc p, c ← getitem "content" (Paragraph.content p); Ok (acc ++ [c]))
      [] filtered_paragraphs;
  let full_text := String.concat newline contents in
  Ok {| DocumentAnalysisResult.model_used := "pymupdf";
        DocumentAnalysisResult.pages := total_pages;
        DocumentAnalysisResult.paragraphs := filtered_paragraphs;
        DocumentAnalysisResult.tables := tables;
        DocumentAnalysisResult.images := images;
        DocumentAnalysisResult.full_text := full_text;
        DocumentAnalysisResult.content_blocks := content_blocks |}.

End ResultAssembler.

(** ** [src/converters/role_detector.py] *)

Module RoleDetector.

(** [collections.Counter]: a dict from values to counts that keeps the
    order in which its keys were first inserted. *)
Fixpoint counter_incr (x : Q) (counter : list (Q * nat)) : list (Q * nat) :=
  match counter with
  | [] => [(x, 1%nat)]
  | (k, n) :: counter' =>
      if Qeq_bool k x then (k, S n) :: counter'
      else (k, n) :: counter_incr x counter'
  end.

Definition Counter (elems : list Q) : list (Q * nat) :=
  foldl (λ counter x, counter_incr x counter) [] elems.

(** [max(items, key=count)], which is what [most_common(1)] computes: the
    first item whose count no other item exceeds. *)
Definition max_by_count (first : Q * nat) (others : list (Q * nat))
  : Q * nat :=
  foldl (λ best item, if (best.2 <? item.2)%nat then item else best)
        first others.

(** [font.get("size", 12.0)] with [font = para.get("font", {})]. *)
Definition font_size (para : Paragraph.t) : Q :=
  get (Font.size (get (Paragraph.font para) Font.empty)) 12%Q.

(** [font.get("bold", False)]. *)
Definition font_bold (para : Paragraph.t) : bool :=
  get (Font.bold (get (Paragraph.font para) Font.empty)) false.

(** [min(len(para.get("content", "")), 200)]. *)
Definition weight (para : Paragraph.t) : nat :=
  Nat.min (String.length (get (Paragraph.content para) EmptyString)) 200.

(** The guard [if not sizes: return 12.0] is the [[]] branch below:
    [Counter sizes] is empty exactly when [sizes] is (lemma
    [Counter_nil_inv]), so [most_common(1)[0]] always finds an item. *)
Definition _detect_body_font_size (paragraphs : list Paragraph.t) : Q :=
  let sizes :=
    foldl (λ sizes para,
             sizes ++ replicate (weight para) (round1 (font_size para)))
          [] paragraphs in
  match Counter sizes with
  | [] => 12%Q
  | first :: others => (max_by_count first others).1
  end.

Definition _classify_single (font_size : Q) (is_bold : bool) (body_size : Q)
    (title_threshold heading_threshold : Q) : option string :=
  if Py.ge font_size title_threshold then Some "title"
  else if Py.ge font_size (body_size * (15 # 10)) && is_bold then Some "title"
  else if Py.ge font_size heading_threshold then Some "sectionHeading"
  else if is_bold && Py.gt font_size (body_size * (11 # 10)) then
    Some "sectionHeading"
  else None.

Definition set_role (para : Paragraph.t) (role : option string)
  : Paragraph.t :=
  {| Paragraph.id := Paragraph.id para;
     Paragraph.content := Paragraph.content para;
     Paragraph.role := role;
     Paragraph.page_number := Paragraph.page_number para;
     Paragraph.bounding_box := Paragraph.bounding_box para;
     Paragraph.font := Paragraph.font para |}.

(** [classify] mutates the dicts of [paragraphs] in place; the embedding
    returns the list as it is after the call. *)
Definition classify (paragraphs : list Paragraph.t)
    (title_threshold heading_threshold : Q) : list Paragraph.t :=
  match paragraphs with
  | [] => paragraphs
  | _ =>
      let body_size := _detect_body_font_size paragraphs in
      map (λ para,
             let role :=
               _classify_single (font_size para) (font_bold para) body_size
                                title_threshold heading_threshold in
             set_role para role)
          paragraphs
  end.


End RoleDetector.

(** ** [src/converters/html_converter.py] *)

Module HtmlConverter.

(** The double quote character, as a string. *)
Definition dq : string := String "034"%char EmptyString.

(** [s.replace(old, new)] for a non-empty [old]: the occurrences of [old]
    are replaced from left to right, and the characters of a replaced
    occurrence are skipped. *)
Fixpoint replace_from (old new : string) (skip : nat) (s : string) : string :=
  match s with
  | EmptyString => EmptyString
  | String c s' =>
      match skip with
      | S k => replace_from old new k s'
      | O =>
          if String.prefix old s then
            new +:+ replace_from old new (String.length old - 1) s'
          else String c (replace_from old new 0 s')
      end
  end.

Definition replace (old new s : string) : string := replace_from old new 0 s.

Definition _escape_html (text : string) : string :=
  replace "'" "&#039;"
    (replace dq "&quot;"
       (replace ">" "&gt;"
          (replace "<" "&lt;"
             (replace "&" "&amp;" text)))).

Definition _get_role_tag (role : option string) : string :=
  if bool_decide (role = Some "title") then "h1"
  else if bool_decide (role = Some "sectionHeading") then "h2"
  else "p".

(** The [while len(rows) <= cell["row_index"]] loop: it appends one row of
    [columns] empty positions per iteration, [row_index + 1 - len(rows)]
    times. *)
Definition grow_rows (columns : nat) (row_index : nat)
    (rows : list (list (option Cell.t))) : list (list (option Cell.t)) :=
  rows ++ replicate (S row_index - length rows) (replicate columns None).

(** One iteration of [for cell in table.get("cells", [])]. *)
Definition place_cell (columns : nat) (rows : list (list (option Cell.t)))
    (cell : Cell.t) : list (list (option Cell.t)) :=
  let rows := grow_rows columns (Cell.row_index cell) rows in
  match rows !! Cell.row_index cell with
  | Some row =>
      if (Cell.column_index cell <? length row)%nat then
        <[Cell.row_index cell := <[Cell.column_index cell := Some cell]> row]>
          rows
      else rows
  | None => rows
  end.

Definition group_cells (table : Table.t) : list (list (option Cell.t)) :=
  foldl (place_cell (get (Table.columns table) 0%nat)) []
        (get (Table.cells table) []).

(** The body of [for cell in row]. *)
Definition cell_to_html (cell : option Cell.t) : string :=
  match cell with
  | None => "<td></td>"
  | Some cell =>
      let tag :=
        if bool_decide (Cell.kind cell = Some "columnHeader") then "th"
        else "td" in
      let colspan :=
        if (1 <? get (Cell.column_span cell) 1)%Z then
          " colspan=" +:+ dq +:+ pretty (get (Cell.column_span cell) 1%Z)
            +:+ dq
        else EmptyString in
      let rowspan :=
        if (1 <? get (Cell.row_span cell) 1)%Z then
          " rowspan=" +:+ dq +:+ pretty (get (Cell.row_span cell) 1%Z) +:+ dq
        else EmptyString in
      "<" +:+ tag +:+ colspan +:+ rowspan +:+ ">"
        +:+ _escape_html (Cell.content cell) +:+ "</" +:+ tag +:+ ">"
  end.

(** The body of [for row in rows]. *)
Definition row_to_html (html : string) (row : list (option Cell.t))
  : string :=
  let html := html +:+ "<tr>" in
  let html := foldl (λ html cell, html +:+ cell_to_html cell) html row in
  html +:+ "</tr>".

Definition _table_to_html (table : Table.t) : string :=
  let html :=
    "<table border=" +:+ dq +:+ "1" +:+ dq +:+ " id=" +:+ dq
      +:+ Table.id table +:+ dq +:+ "><tbody>" in
  let rows := group_cells table in
  let html := foldl row_to_html html rows in
  html +:+ "</tbody></table>".

(** A dict comprehension [{x["id"]: x for x in l}]: a later entry
    replaces an earlier one with the same id. *)
Definition by_id {A} (id : A → string) (l : list A) : gmap string A :=
  foldl (λ m x, <[id x := x]> m) ∅ l.

(** The body of [for block in result.get("content_blocks", [])]. *)
Definition block_to_html (paragraphs_by_id : gmap string Paragraph.t)
    (tables_by_id : gmap string Table.t) (images_by_id : gmap string Image.t)
    (html : string) (block : ContentBlock.t) : result string :=
  if bool_decide (ContentBlock.type block = "paragraph") then
    match paragraphs_by_id !! ContentBlock.content_id block with
    | Some para =>
        let tag := _get_role_tag (Paragraph.role para) in
        content ← getitem "content" (Paragraph.content para);
        Ok (html +:+ "<" +:+ tag +:+ ">" +:+ _escape_html content
              +:+ "</" +:+ tag +:+ ">")
    | None => Ok html
    end
  else if bool_decide (ContentBlock.type block = "table") then
    match tables_by_id !! ContentBlock.content_id block with
    | Some table => Ok (html +:+ _table_to_html table)
    | None => Ok html
    end
  else if bool_decide (ContentBlock.type block = "image") then
    match images_by_id !! ContentBlock.content_id block with
    | Some img =>
        match Image.data img with
        | Some (String c d) =>
            let mime := get (Image.mime_type img) "image/png" in
            Ok (html +:+ "<img src=" +:+ dq +:+ "data:" +:+ mime
                  +:+ ";base64," +:+ String c d +:+ dq +:+ " />")
        | _ => Ok html
        end
    | None => Ok html
    end
  else Ok html.

Definition convert (doc : DocumentAnalysisResult.t) : result string :=
  let html :=
    "<html><head><meta charset=" +:+ dq +:+ "utf-8" +:+ dq
      +:+ "></head><body>" in
  let paragraphs_by_id :=
    by_id Paragraph.id (DocumentAnalysisResult.paragraphs doc) in
  let tables_by_id := by_id Table.id (DocumentAnalysisResult.tables doc) in
  let images_by_id := by_id Image.id (DocumentAnalysisResult.images doc) in
  html ← for_each (block_to_html paragraphs_by_id tables_by_id images_by_id)
                  html (DocumentAnalysisResult.content_blocks doc);
  Ok (html +:+ "</body></html>").

End HtmlConverter.

(** ** [src/utils/page_filter.py] *)

Module PageFilter.

(** Python string builtins, on ASCII text (whitespace and digits beyond
    ASCII are outside the model). *)

(** [str.isspace] on one character: TAB, LF, VT, FF, CR, FS, GS, RS, US
    and the space. *)
Definition is_space (c : ascii) : bool :=
  let n := nat_of_ascii c in
  ((9 <=? n) && (n <=? 13) || (28 <=? n) && (n <=? 32))%nat.

Definition is_digit (c : ascii) : bool :=
  let n := nat_of_ascii c in ((48 <=? n) && (n <=? 57))%nat.

Definition digit_value (c : ascii) : Z := Z.of_nat (nat_of_ascii c) - 48.

Fixpoint lstrip (s : string) : string :=
  match s with
  | EmptyString => EmptyString
  | String c s' => if is_space c then lstrip s' else s
  end.

Fixpoint rstrip (s : string) : string :=
  match s with
  | EmptyString => EmptyString
  | String c s' =>
      match rstrip s' with
      | EmptyString => if is_space c then EmptyString else String c EmptyString
      | r => String c r
      end
  end.

(** [s.strip()] *)
Definition strip (s : string) : string := rstrip (lstrip s).

(** [s.split(sep)] for a one-character separator, as the first piece and
    the list of the pieces after it. *)
Fixpoint split_pieces (sep : ascii) (s : string) : string * list string :=
  match s with
  | EmptyString => (EmptyString, [])
  | String c s' =>
      let '(piece, pieces) := split_pieces sep s' in
      if bool_decide (c = sep) then (EmptyString, piece :: pieces)
      else (String c piece, pieces)
  end.

Definition split (sep : ascii) (s : string) : list string :=
  let '(piece, pieces) := split_pieces sep s in piece :: pieces.

(** [sep in s] together with [s.split(sep, 1)]: [None] when [sep] does not
    occur in [s], otherwise the text before and after its first
    occurrence. *)
Fixpoint split_once (sep : ascii) (s : string) : option (string * string) :=
  match s with
  | EmptyString => None
  | String c s' =>
      if bool_decide (c = sep) then Some (EmptyString, s')
      else '(before, after) ← split_once sep s'; Some (String c before, after)
  end.

(** The digits of an integer literal: decimal digits, with single
    underscores allowed between two digits. *)
Fixpoint parse_digits (acc : Z) (after_digit : bool) (s : string)
  : option Z :=
  match s with
  | EmptyString => if after_digit then Some acc else None
  | String c s' =>
      if is_digit c then parse_digits (10 * acc + digit_value c) true s'
      else if bool_decide (c = "_"%char) && after_digit then
        parse_digits acc false s'
      else None
  end.

(** [int(s)]: surrounding whitespace is ignored, then an optional sign
    and the digits; anything else raises [ValueError]. *)
Definition int (s : string) : result Z :=
  let literal := strip s in
  let parsed :=
    match literal with
    | String "+" digits => parse_digits 0 false digits
    | String "-" digits => Z.opp <$> parse_digits 0 false digits
    | _ => parse_digits 0 false literal
    end in
  match parsed with
  | Some n => Ok n
  | None => Raise (ValueError_int s)
  end.

(** [range(start, stop)] *)
Definition range (start stop : Z) : list Z := seqZ start (stop - start).

(** The body of [for part in page_range.split(',')]. *)
Definition parse_part (pages : gset Z) (part : string) : result (gset Z) :=
  let part := strip part in
  match split_once "-" part with
  | Some (start, end_) =>
      start ← int (strip start);
      end_ ← int (strip end_);
      if (start >? end_)%Z then
        Raise (ValueError ("Invalid page range: " +:+ part
                             +:+ " (start > end)"))
      else Ok (pages ∪ list_to_set (range start (end_ + 1)))
  | None =>
      n ← int part; Ok (pages ∪ {[ n ]})
  end.

Definition parse_page_range (page_range : string) : result (list Z) :=
  pages ← for_each parse_part ∅ (split "," page_range);
  Ok (Py.sort id Z.ltb (elements pages)).

End PageFilter.

(** ** Decidable order on the rationals *)

#[export] Instance Qlt_decision (a b : Q) : Decision (a < b)%Q.
Proof.
  destruct (Qlt_le_dec a b) as [Hlt|Hle]; [left; exact Hlt|right].
  apply Qle_not_lt, Hle.
Defined.

#[export] Instance Qle_decision (a b : Q) : Decision (a <= b)%Q.
Proof.
  destruct (Qlt_le_dec b a) as [Hlt|Hle]; [right|left; exact Hle].
  apply Qlt_not_le, Hlt.
Defined.

#[export] Instance Qeq_decision (a b : Q) : Decision (a == b)%Q.
Proof. apply Qeq_dec. Defined.

(** ** Specification-level notions *)

Module Spec.

(** The overlap of two intervals, in the words of the specification:
    [max(0, min(a_max, b_max) - max(a_min, b_min))]. *)
Definition overlap (a_min a_max b_min b_max : Q) : Q :=
  Qmax 0 (Qmin a_max b_max - Qmax a_min b_min).

(** Paragraph [p] and table [t] are on the same page and their boxes
    overlap with a positive area. *)
Definition overlaps (p : Paragraph.t) (t : Table.t) : Prop :=
  Paragraph.page_number p = Table.page_number t ∧
  match Paragraph.bounding_box p, Table.bounding_box t with
  | Some (BoundingBox.mk (Some px0) (Some py0) (Some px1) (Some py1)),
    Some (BoundingBox.mk (Some tx0) (Some ty0) (Some tx1) (Some ty1)) =>
      (0 < overlap px0 px1 tx0 tx1)%Q ∧ (0 < overlap py0 py1 ty0 ty1)%Q
  | _, _ => False
  end.

(** A paragraph is dropped when some table overlaps it. *)
Definition dropped (tables : list Table.t) (p : Paragraph.t) : Prop :=
  Exists (overlaps p) tables.

(** A bounding box is missing when the key is absent or the dict is
    empty. *)
Definition bbox_missing (bbox : option BoundingBox.t) : Prop :=
  bbox = None ∨ bbox = Some BoundingBox.empty.

(** A bounding box dict that is present has its four coordinates, or is
    empty. *)
Definition bbox_ok (bbox : option BoundingBox.t) : bool :=
  match bbox with
  | None => true
  | Some (BoundingBox.mk None None None None) => true
  | Some (BoundingBox.mk (Some _) (Some _) (Some _) (Some _)) => true
  | Some _ => false
  end.

(** Inputs on which [assemble] raises no [KeyError]: bounding boxes are
    whole and every paragraph has its content. *)
Definition well_formed (paragraphs : list Paragraph.t)
    (tables : list Table.t) : bool :=
  forallb (λ p, bbox_ok (Paragraph.bounding_box p)
                && bool_decide (is_Some (Paragraph.content p))) paragraphs
  && forallb (λ t, bbox_ok (Table.bounding_box t)) tables.

(** [y_min] of a bounding box, [0] when the box or the coordinate is
    absent. *)
Definition y_min_or_0 (bbox : option BoundingBox.t) : Q :=
  match bbox with
  | Some b => match BoundingBox.y_min b with Some y => y | None => 0%Q end
  | None => 0%Q
  end.

(** Lexicographic order on the keys [(page, y_position)]. *)
Definition key_le (a b : ContentBlock.t) : Prop :=
  (ContentBlock.page a < ContentBlock.page b)%Z ∨
  (ContentBlock.page a = ContentBlock.page b ∧
   (ContentBlock.y_position a <= ContentBlock.y_position b)%Q).

(** Two blocks have the same key. *)
Definition key_eq (a b : ContentBlock.t) : Prop :=
  ContentBlock.page a = ContentBlock.page b ∧
  (ContentBlock.y_position a == ContentBlock.y_position b)%Q.

(** The blocks of a document in append order: the paragraphs, then the
    tables, then the images. *)
Definition appended (paragraphs : list Paragraph.t) (tables : list Table.t)
    (images : list Image.t) : list ContentBlock.t :=
  map ResultAssembler.paragraph_block paragraphs
  ++ map ResultAssembler.table_block tables
  ++ map ResultAssembler.image_block images.


(** The number of elements of [l] equal to [v]. *)
Definition occurrences (v : Q) (l : list Q) : nat :=
  length (filter (λ x, x == v)%Q l).




(** [s.replace(a, new)] for a one-character [a], character by
    character. *)
Fixpoint subst_char (a : ascii) (new : string) (s : string) : string :=
  match s with
  | EmptyString => EmptyString
  | String c s' =>
      (if bool_decide (c = a) then new else String c EmptyString)
        +:+ subst_char a new s'
  end.

(** The entity of a character: the five special characters have one, any
    other character stands for itself. *)
Definition escape_char (c : ascii) : string :=
  if bool_decide (c = "&"%char) then "&amp;"
  else if bool_decide (c = "<"%char) then "&lt;"
  else if bool_decide (c = ">"%char) then "&gt;"
  else if bool_decide (c = "034"%char) then "&quot;"
  else if bool_decide (c = "'"%char) then "&#039;"
  else String c EmptyString.

(** Every character escaped once. *)
Fixpoint escape (s : string) : string :=
  match s with
  | EmptyString => EmptyString
  | String c s' => escape_char c +:+ escape s'
  end.

(** The tag of a table cell: [th] for a column header, [td] otherwise. *)
Definition cell_tag (cell : Cell.t) : string :=
  if decide (Cell.kind cell = Some "columnHeader") then "th" else "td".

(** A span attribute, written only for a span greater than 1. *)
Definition span_attr (name : string) (span : option Z) : string :=
  match span with
  | Some n =>
      if decide (1 < n)%Z then
        " " +:+ name +:+ "=" +:+ HtmlConverter.dq +:+ pretty n
          +:+ HtmlConverter.dq
      else EmptyString
  | None => EmptyString
  end.

(** The opening and the closing tag of a cell. *)
Definition cell_open (cell : Cell.t) : string :=
  "<" +:+ cell_tag cell +:+ span_attr "colspan" (Cell.column_span cell)
    +:+ span_attr "rowspan" (Cell.row_span cell) +:+ ">".
Definition cell_close (cell : Cell.t) : string :=
  "</" +:+ cell_tag cell +:+ ">".

(** The HTML of a grid position. *)
Definition cell_html (cell : option Cell.t) : string :=
  match cell with
  | None => "<td></td>"
  | Some cell =>
      cell_open cell +:+ escape (Cell.content cell) +:+ cell_close cell
  end.

(** The cell placed at a grid position: the last cell of the list with
    these coordinates, if any. *)
Definition cell_at (cells : list Cell.t) (r c : nat) : option Cell.t :=
  last (filter (λ cell, Cell.row_index cell = r ∧ Cell.column_index cell = c)
               cells).

(** One more than the largest [row_index] of the cells, [0] without
    cells. *)
Definition row_count (cells : list Cell.t) : nat :=
  max_list ((λ cell, S (Cell.row_index cell)) <$> cells).

(** Row [r] of the grid: its [columns] positions from left to right. *)
Definition grid_row (columns : nat) (cells : list Cell.t) (r : nat)
  : list (option Cell.t) :=
  cell_at cells r <$> seq 0 columns.

Definition grid (columns : nat) (cells : list Cell.t)
  : list (list (option Cell.t)) :=
  grid_row columns cells <$> seq 0 (row_count cells).

(** The concatenation of a list of strings. *)
Definition concat_strings (l : list string) : string :=
  foldr String.append EmptyString l.

Definition row_html (row : list (option Cell.t)) : string :=
  "<tr>" +:+ concat_strings (cell_html <$> row) +:+ "</tr>".

(** The HTML of a table with one [<tr>] per row index below [n_rows]. *)
Definition table_html (n_rows : nat) (table : Table.t) : string :=
  let cells := get (Table.cells table) [] in
  let columns := get (Table.columns table) 0%nat in
  "<table border=" +:+ HtmlConverter.dq +:+ "1" +:+ HtmlConverter.dq
    +:+ " id=" +:+ HtmlConverter.dq +:+ Table.id table +:+ HtmlConverter.dq
    +:+ "><tbody>"
    +:+ concat_strings
          ((λ r, row_html (grid_row columns cells r)) <$> seq 0 n_rows)
    +:+ "</tbody></table>".

(** Page [n] is denoted by a component of the page-range string: the page
    itself, or a page of the inclusive range around the first dash. *)
Definition denotes (part : string) (n : Z) : Prop :=
  match PageFilter.split_once "-" (PageFilter.strip part) with
  | Some (first, last) =>
      ∃ lo hi, PageFilter.int (PageFilter.strip first) = Ok lo ∧
               PageFilter.int (PageFilter.strip last) = Ok hi ∧
               (lo ≤ n ≤ hi)%Z
  | None => PageFilter.int (PageFilter.strip part) = Ok n
  end.

(** A component is malformed when one of its numbers is not an integer
    literal, or when it is a range whose start exceeds its end. *)
Definition malformed (part : string) : Prop :=
  match PageFilter.split_once "-" (PageFilter.strip part) with
  | Some (first, last) =>
      (∃ e, PageFilter.int (PageFilter.strip first) = Raise e) ∨
      (∃ e, PageFilter.int (PageFilter.strip last) = Raise e) ∨
      (∃ lo hi, PageFilter.int (PageFilter.strip first) = Ok lo ∧
                PageFilter.int (PageFilter.strip last) = Ok hi ∧
                (hi < lo)%Z)
  | None => ∃ e, PageFilter.int (PageFilter.strip part) = Raise e
  end.

End Spec.

(** ** Sample inputs *)

Module Examples.

Definition bbox (x0 y0 x1 y1 : Q) : BoundingBox.t :=
  BoundingBox.mk (Some x0) (Some y0) (Some x1) (Some y1).

Definition arial (size : Q) (bold : bool) : Font.t :=
  Font.mk (Some "Arial") (Some size) (Some bold).

Definition para (id content : string) (page : Z) (box : BoundingBox.t)
  : Paragraph.t :=
  Paragraph.mk id (Some content) None (Some page) (Some box)
               (Some (arial 12 false)).

(** The paragraph and the tables of the overlap scenario. *)
Definition para_0 : Paragraph.t := para "para-0" "Text" 1 (bbox 0 0 100 20).
Definition table_on (page : Z) : Table.t :=
  Table.mk "table-0" (Some page) (Some (bbox 40 10 300 200)) (Some 2%nat)
           (Some 2%nat) (Some []).

(** A document whose extraction order differs from its reading order:
    [para-3] lies under the table and is dropped; the image and the table
    share the key of [para-1] and of [para-2]. *)
Definition doc_paragraphs : list Paragraph.t :=
  [ para "para-0" "Page 2 text" 2 (bbox 0 10 100 30);
    para "para-1" "Page 1 bottom" 1 (bbox 0 100 30 120);
    para "para-2" "Page 1 top" 1 (bbox 0 10 100 30);
    para "para-3" "Table cell text" 1 (bbox 50 300 200 320);
    Paragraph.mk "para-4" (Some "No box") None None None None ].
Definition doc_tables : list Table.t :=
  [ Table.mk "table-0" (Some 1%Z) (Some (bbox 40 100 300 400)) (Some 2%nat)
             (Some 2%nat) (Some []) ].
Definition doc_images : list Image.t :=
  [ Image.mk "img-0" (Some 1%Z) (Some "image/png") (Some "abc123")
             (Some (bbox 0 10 50 60)) ].

(** A table without a bounding box. *)
Definition table_no_bbox : Table.t :=
  Table.mk "table-1" (Some 1%Z) None (Some 1%nat) (Some 1%nat) (Some []).



(** A table that announces two rows and has a single cell in row 0. *)
Definition table_one_cell : Table.t :=
  Table.mk "table-0" (Some 1%Z) None (Some 2%nat) (Some 2%nat)
           (Some [Cell.mk 0 0 (Some 1%Z) (Some 2%Z) "Na<me"
                          (Some "columnHeader")]).

End Examples.

#[export] Instance overlaps_dec p t : Decision (Spec.overlaps p t).
Proof.
  unfold Spec.overlaps.
  destruct (Paragraph.bounding_box p) as [[[?|] [?|] [?|] [?|]]|];
    try (right; tauto);
  destruct (Table.bounding_box t) as [[[?|] [?|] [?|] [?|]]|];
    try (right; tauto).
  apply and_dec; [apply _|].
  apply _.
Defined.

#[export] Instance dropped_dec ts p : Decision (Spec.dropped ts p).
Proof. unfold Spec.dropped. apply _. Defined.

#[export] Instance key_eq_dec a b : Decision (Spec.key_eq a b).
Proof.
  unfold Spec.key_eq. apply _.
Defined.

(** ** [src/config.py] *)

(** The configuration object.  [get_config] hands out the global instance,
    which the embedding passes as an argument; the instance is built from
    the environment by [load] and cached in [_config] ([get_config],
    [reload_config]).  The builtin [float] is a parameter of [load]. *)
Module Config.

Record ExtractionConfig : Type := mkExtraction
  { title_font_size_threshold : Q;
    heading_font_size_threshold : Q;
    text_layer_char_threshold : Z;
    max_file_size_mb : Z }.

Record ServerConfig : Type := mkServer { host : string; port : Z }.

Record t : Type := mk { extraction : ExtractionConfig; server : ServerConfig }.

(** [Config()]: the default factories read the environment in the order
    of the fields. *)
Definition load (float : string → result Q) (environ : gmap string string)
  : result t :=
  title ← float (get (environ !! "TITLE_FONT_SIZE_THRESHOLD") "18");
  heading ← float (get (environ !! "HEADING_FONT_SIZE_THRESHOLD") "14");
  chars ← PageFilter.int (get (environ !! "TEXT_LAYER_CHAR_THRESHOLD") "50");
  size ← PageFilter.int (get (environ !! "MAX_FILE_SIZE_MB") "100");
  let host := get (environ !! "HTTP_HOST") "0.0.0.0" in
  port ← PageFilter.int (get (environ !! "HTTP_PORT") "8089");
  Ok (mk (mkExtraction title heading chars size) (mkServer host port)).

(** [get_config()] and [reload_config()] on the global [_config]: they
    return their result and the new value of the global. *)
Definition get_config (float : string → result Q)
    (environ : gmap string string) (_config : option t)
  : result t * option t :=
  match _config with
  | Some config => (Ok config, _config)
  | None =>
      match load float environ with
      | Ok config => (Ok config, Some config)
      | Raise e => (Raise e, None)
      end
  end.

Definition reload_config (float : string → result Q)
    (environ : gmap string string) (_config : option t)
  : result t * option t :=
  match load float environ with
  | Ok config => (Ok config, Some config)
  | Raise e => (Raise e, _config)
  end.

End Config.

(** ** [src/backends/text_layer_detection.py] *)

(** [pymupdf.open] and [page.get_text("text")] belong to the PDF engine:
    the document is given as the texts of its pages, or as [None] when the
    engine cannot open it.  [output_data] is the JSON text of [result]; the
    embedding returns [result] itself. *)
Module TextLayerDetectionBackend.

Definition SUPPORTED_OPERATIONS : list string := ["detect_text_layer"].

Definition supports (operation : string) : bool :=
  bool_decide (operation ∈ SUPPORTED_OPERATIONS).

Record PageInfo : Type := mkPage
  { page : Z; has_text_layer : bool; char_count : Z }.

Record Result : Type := mkResult { total_pages : Z; pages : list PageInfo }.

Record Metadata : Type := mkMetadata
  { md_total_pages : string; md_pages_with_text : string;
    md_threshold : string }.

Definition process (config : Config.t) (doc : option (list string))
    (operation : string) (options : gmap string string)
  : result (Result * string * Metadata) :=
  if negb (supports operation) then
    Raise (ValueError ("Operation '" +:+ operation +:+ "' not supported"))
  else
    threshold ←
      PageFilter.int
        (get (options !! "char_threshold")
             (pretty (Config.text_layer_char_threshold
                        (Config.extraction config))));
    match doc with
    | None => Raise (ValueError "Invalid or corrupted PDF file")
    | Some doc =>
        let pages :=
          imap (λ page_num text,
                  let char_count :=
                    Z.of_nat (String.length (PageFilter.strip text)) in
                  {| page := Z.of_nat page_num + 1;
                     has_text_layer := (threshold <=? char_count)%Z;
                     char_count := char_count |})
               doc in
        let result :=
          {| total_pages := Z.of_nat (length pages); pages := pages |} in
        let metadata :=
          {| md_total_pages := pretty (Z.of_nat (length pages));
             md_pages_with_text :=
               pretty (Z.of_nat (length (filter (λ p, has_text_layer p = true)
                                                pages)));
             md_threshold := pretty threshold |} in
        Ok (result, "json", metadata)
    end.

End TextLayerDetectionBackend.

(** ** What the PDF engine hands to the extraction backend *)

Module Engine.

(** A call into the engine returns a value or raises. *)
Inductive call (A : Type) : Type :=
| Returns (a : A)
| Raises.
Arguments Returns {A} a.
Arguments Raises {A}.

Record Span : Type := mkSpan
  { text : option string; size : option Q; font : option string;
    flags : option Z }.

Record Line : Type := mkLine { spans : option (list Span) }.

Record Block : Type := mkBlock
  { type : option Z; bbox : Q * Q * Q * Q; lines : option (list Line) }.

(** A table found on a page: its box and what [table.extract()]
    returns. *)
Record FoundTable : Type := mkTable
  { table_bbox : Q * Q * Q * Q; extract : list (list (option string)) }.

Record Rect : Type := mkRect { x0 : Q; y0 : Q; x1 : Q; y1 : Q }.

Record ImageData : Type := mkImageData { ext : string; image : string }.

(** An entry of [page.get_images(full=True)]: what [doc.extract_image] and
    [page.get_image_rects] do for it. *)
Record ImageInfo : Type := mkImage
  { extract_image : call (option ImageData);
    get_image_rects : call (list Rect) }.

Record Page : Type := mkPage
  { blocks : option (list Block);
    find_tables : call (list FoundTable);
    get_images : list ImageInfo }.

End Engine.

(** ** [src/backends/text_extraction.py] *)

(** Two library functions are parameters: [set_iter], the order in which
    a [set] built from a list yields its elements, and [b64encode]. *)
Module TextExtractionBackend.

Definition SUPPORTED_OPERATIONS : list string := ["extract"].

Definition supports (operation : string) : bool :=
  bool_decide (operation ∈ SUPPORTED_OPERATIONS).

Definition bounding_box (bbox : Q * Q * Q * Q) : BoundingBox.t :=
  let '(x0, y0, x1, y1) := bbox in
  BoundingBox.mk (Some x0) (Some y0) (Some x1) (Some y1).

(** The local variables of the loop over the spans of a block. *)
Record SpanState : Type := mkState
  { line_text_parts : list string;
    font_sizes : list Q;
    font_names : list string;
    is_bold : bool }.

(** The body of [for span in line.get("spans", [])]. *)
Definition span_step (st : SpanState) (span : Engine.Span) : SpanState :=
  let text := PageFilter.strip (get (Engine.text span) EmptyString) in
  match text, Engine.text span with
  | String _ _, Some span_text =>
      {| line_text_parts := line_text_parts st ++ [span_text];
         font_sizes := font_sizes st ++ [get (Engine.size span) 12%Q];
         font_names := font_names st ++ [get (Engine.font span) EmptyString];
         is_bold :=
           if bool_decide (Z.land (get (Engine.flags span) 0%Z) 16 ≠ 0%Z)
           then true else is_bold st |}
  | _, _ => st
  end.

(** The body of [for line in block.get("lines", [])]: the state of the
    spans with [line_text_parts] reset, and [block_text_parts]. *)
Definition line_step (acc : list string * SpanState) (line : Engine.Line)
  : list string * SpanState :=
  let '(block_text_parts, st) := acc in
  let st :=
    foldl span_step
          {| line_text_parts := [];
             font_sizes := font_sizes st;
             font_names := font_names st;
             is_bold := is_bold st |}
          (get (Engine.spans line) []) in
  match line_text_parts st with
  | [] => (block_text_parts, st)
  | _ => (block_text_parts ++ [String.concat " " (line_text_parts st)], st)
  end.

(** [sum(l) / len(l)] *)
Definition average (l : list Q) : Q :=
  (foldl Qplus 0 l / inject_Z (Z.of_nat (length l)))%Q.

(** [max(iterable, key=key)] on a non-empty iterable: the first element
    whose key no other exceeds. *)
Definition max_by_key {A} (key : A → nat) (first : A) (others : list A) : A :=
  foldl (λ best x, if (key best <? key x)%nat then x else best) first others.

(** [l.count(x)] *)
Definition count (l : list string) (x : string) : nat :=
  length (filter (λ y, y = x) l).

(** [max(set(font_names), key=font_names.count)], or the empty string
    for an empty [font_names]. *)
Definition primary_font (set_iter : list string → list string)
    (font_names : list string) : result string :=
  match font_names with
  | [] => Ok EmptyString
  | _ =>
      match set_iter font_names with
      | [] => Raise (ValueError "max() arg is an empty sequence")
      | first :: others => Ok (max_by_key (count font_names) first others)
      end
  end.

(** The body of [for block in text_dict.get("blocks", [])]. *)
Definition block_step (set_iter : list string → list string) (page_num : Z)
    (acc : list Paragraph.t * Z) (block : Engine.Block)
  : result (list Paragraph.t * Z) :=
  let '(paragraphs, counter) := acc in
  if negb (bool_decide (Engine.type block = Some 0%Z)) then Ok acc
  else
    let bbox := Engine.bbox block in
    let '(block_text_parts, st) :=
      foldl line_step ([], mkState [] [] [] false)
            (get (Engine.lines block) []) in
    let content := PageFilter.strip (String.concat newline block_text_parts) in
    match content with
    | EmptyString => Ok acc
    | _ =>
        let avg_font_size :=
          match font_sizes st with
          | [] => 12%Q
          | _ => average (font_sizes st)
          end in
        primary_font ← primary_font set_iter (font_names st);
        let para_id := "para-" +:+ pretty counter in
        let counter := (counter + 1)%Z in
        Ok (paragraphs
              ++ [ {| Paragraph.id := para_id;
                      Paragraph.content := Some content;
                      Paragraph.role := None;
                      Paragraph.page_number := Some page_num;
                      Paragraph.bounding_box := Some (bounding_box bbox);
                      Paragraph.font :=
                        Some {| Font.name := Some primary_font;
                                Font.size := Some (round1 avg_font_size);
                                Font.bold := Some (is_bold st) |} |} ],
            counter)
    end.

Definition _extract_paragraphs (set_iter : list string → list string)
    (page : Engine.Page) (page_num : Z) (counter : Z)
  : result (list Paragraph.t * Z) :=
  for_each (block_step set_iter page_num) ([], counter)
           (get (Engine.blocks page) []).

(** The two nested [enumerate] loops that build the cells. *)
Definition build_cells (extracted : list (list (option string)))
  : list Cell.t :=
  concat
    (imap (λ row_idx row,
             imap (λ col_idx cell_content,
                     {| Cell.row_index := row_idx;
                        Cell.column_index := col_idx;
                        Cell.row_span := Some 1%Z;
                        Cell.column_span := Some 1%Z;
                        Cell.content := get cell_content EmptyString;
                        Cell.kind :=
                          Some (if (row_idx =? 0)%nat then "columnHeader"
                                else "content") |})
                  row)
          extracted).

(** The body of [for table in found_tables.tables]. *)
Definition table_step (page_num : Z) (acc : list Table.t * Z)
    (table : Engine.FoundTable) : list Table.t * Z :=
  let '(tables, counter) := acc in
  let table_id := "table-" +:+ pretty counter in
  let counter := (counter + 1)%Z in
  let extracted := Engine.extract table in
  match extracted with
  | [] => (tables, counter)
  | _ =>
      let num_rows := length extracted in
      let num_cols := max_list (length <$> extracted) in
      (tables
         ++ [ {| Table.id := table_id;
                 Table.page_number := Some page_num;
                 Table.bounding_box :=
                   Some (bounding_box (Engine.table_bbox table));
                 Table.rows := Some num_rows;
                 Table.columns := Some num_cols;
                 Table.cells := Some (build_cells extracted) |} ],
       counter)
  end.

Definition _extract_tables (page : Engine.Page) (page_num : Z) (counter : Z)
  : list Table.t * Z :=
  match Engine.find_tables page with
  | Engine.Raises => ([], counter)
  | Engine.Returns found_tables =>
      foldl (table_step page_num) ([], counter) found_tables
  end.

(** The body of [for img_info in page.get_images(full=True)], with its
    [try] ... [except Exception]. *)
Definition image_step (b64encode : string → string) (page_num : Z)
    (acc : list Image.t * Z) (img_info : Engine.ImageInfo)
  : list Image.t * Z :=
  let '(images, counter) := acc in
  match Engine.extract_image img_info with
  | Engine.Raises => acc
  | Engine.Returns None => acc
  | Engine.Returns (Some img_data) =>
      let img_id := "img-" +:+ pretty counter in
      let counter := (counter + 1)%Z in
      match Engine.get_image_rects img_info with
      | Engine.Raises => (images, counter)
      | Engine.Returns img_rects =>
          let bbox :=
            match img_rects with
            | rect :: _ =>
                BoundingBox.mk (Some (Engine.x0 rect)) (Some (Engine.y0 rect))
                               (Some (Engine.x1 rect)) (Some (Engine.y1 rect))
            | [] => BoundingBox.mk (Some 0%Q) (Some 0%Q) (Some 0%Q) (Some 0%Q)
            end in
          (images
             ++ [ {| Image.id := img_id;
                     Image.page_number := Some page_num;
                     Image.mime_type :=
                       Some ("image/" +:+ Engine.ext img_data);
                     Image.data := Some (b64encode (Engine.image img_data));
                     Image.bounding_box := Some bbox |} ],
           counter)
      end
  end.

Definition _extract_images (b64encode : string → string)
    (page : Engine.Page) (page_num : Z) (counter : Z) : list Image.t * Z :=
  foldl (image_step b64encode page_num) ([], counter) (Engine.get_images page).

(** [s.lower()] on ASCII text. *)
Definition lower_char (c : ascii) : ascii :=
  let n := nat_of_ascii c in
  if ((65 <=? n) && (n <=? 90))%nat then ascii_of_nat (n + 32) else c.

Fixpoint lower (s : string) : string :=
  match s with
  | EmptyString => EmptyString
  | String c s' => String (lower_char c) (lower s')
  end.

(** The local variables of the page loop of [process]. *)
Record Extracted : Type := mkExtracted
  { all_paragraphs : list Paragraph.t;
    all_tables : list Table.t;
    all_images : list Image.t;
    para_counter : Z;
    table_counter : Z;
    img_counter : Z;
    pages_processed : Z }.

(** The body of [for page_num in page_numbers]. *)
Definition page_step (set_iter : list string → list string)
    (b64encode : string → string) (doc : list Engine.Page)
    (include_images : bool) (st : Extracted) (page_num : Z)
  : result Extracted :=
  let total_pages := Z.of_nat (length doc) in
  if ((page_num <? 1) || (page_num >? total_pages))%Z then Ok st
  else
    match doc !! Z.to_nat (page_num - 1) with
    | None => Ok st
    | Some page =>
        '(paragraphs, para_counter) ←
          _extract_paragraphs set_iter page page_num (para_counter st);
        let '(tables, table_counter) :=
          _extract_tables page page_num (table_counter st) in
        let '(images, img_counter) :=
          if include_images then
            _extract_images b64encode page page_num (img_counter st)
          else ([], img_counter st) in
        Ok {| all_paragraphs := all_paragraphs st ++ paragraphs;
              all_tables := all_tables st ++ tables;
              all_images := all_images st ++ images;
              para_counter := para_counter;
              table_counter := table_counter;
              img_counter := img_counter;
              pages_processed := pages_processed st + 1 |}
    end.

(** [output_data] before its encoding to bytes: the HTML text, or the
    document that [json.dumps] serialises. *)
Inductive Output : Type :=
| Html (html : string)
| Json (result : DocumentAnalysisResult.t).

Record Metadata : Type := mkMetadata
  { md_pages_processed : string;
    md_total_paragraphs : string;
    md_total_tables : string;
    md_model_used : string }.

Definition process (config : Config.t) (set_iter : list string → list string)
    (b64encode : string → string) (doc : option (list Engine.Page))
    (operation : string) (options : gmap string string)
  : result (Output * string * Metadata) :=
  if negb (supports operation) then
    Raise (ValueError ("Operation '" +:+ operation +:+ "' not supported"))
  else
    let output_format := get (options !! "output_format") "json" in
    let include_images :=
      bool_decide (lower (get (options !! "include_images") "false") = "true")
    in
    let page_range := get (options !! "pages") EmptyString in
    match doc with
    | None => Raise (ValueError "Invalid or corrupted PDF file")
    | Some doc =>
        let total_pages := Z.of_nat (length doc) in
        page_numbers ←
          match page_range with
          | EmptyString => Ok (PageFilter.range 1 (total_pages + 1))
          | _ => PageFilter.parse_page_range page_range
          end;
        st ← for_each (page_step set_iter b64encode doc include_images)
                      (mkExtracted [] [] [] 0 0 0 0) page_numbers;
        let all_paragraphs :=
          RoleDetector.classify
            (all_paragraphs st)
            (Config.title_font_size_threshold (Config.extraction config))
            (Config.heading_font_size_threshold (Config.extraction config)) in
        result ←
          ResultAssembler.assemble
            all_paragraphs (all_tables st)
            (Some (if include_images then all_images st else []))
            (match page_range with
             | EmptyString => total_pages
             | _ => Z.of_nat (length page_numbers)
             end);
        '(output_data, fmt) ←
          (if bool_decide (output_format = "html") then
             html ← HtmlConverter.convert result; Ok (Html html, "html")
           else Ok (Json result, "json"));
        let metadata :=
          {| md_pages_processed := pretty (pages_processed st);
             md_total_paragraphs :=
               pretty (Z.of_nat (length all_paragraphs));
             md_total_tables := pretty (Z.of_nat (length (all_tables st)));
             md_model_used := "pymupdf" |} in
        Ok (output_data, fmt, metadata)
    end.

End TextExtractionBackend.

(** ** [src/service.py]: the choice of a backend *)

Module Service.

(** A backend, as far as the service looks at it: the name of its class
    and its [SUPPORTED_OPERATIONS]; [supports] is membership in that list
    in both backends. *)
Record Backend : Type := mkBackend
  { class_name : string; SUPPORTED_OPERATIONS : list string }.

Definition supports (backend : Backend) (operation : string) : bool :=
  bool_decide (operation ∈ SUPPORTED_OPERATIONS backend).

Definition backends : list Backend :=
  [ mkBackend "TextExtractionBackend"
              TextExtractionBackend.SUPPORTED_OPERATIONS;
    mkBackend "TextLayerDetectionBackend"
              TextLayerDetectionBackend.SUPPORTED_OPERATIONS ].

Fixpoint _find_backend (backends : list Backend) (operation : string)
  : option Backend :=
  match backends with
  | [] => None
  | backend :: rest =>
      if supports backend operation then Some backend
      else _find_backend rest operation
  end.

(** [SupportsOperation]: the fields [supported] and [message] of the
    response. *)
Fixpoint SupportsOperation (backends : list Backend) (operation : string)
  : bool * string :=
  match backends with
  | [] => (false, "Operation '" +:+ operation +:+ "' is not supported")
  | backend :: rest =>
      if supports backend operation then
        (true, "Supported by " +:+ class_name backend)
      else SupportsOperation rest operation
  end.

(** The [supported_operations] of [HealthCheck], also the [operations] of
    the HTTP [/health] endpoint. *)
Definition supported_operations (backends : list Backend) : list string :=
  let supported_ops : gset string :=
    foldl (λ ops backend, ops ∪ list_to_set (SUPPORTED_OPERATIONS backend))
          ∅ backends in
  Py.sort id String.ltb (elements supported_ops).

End Service.

(** ** Notions used by the further properties *)

Module Aux.

(** The five characters that [_escape_html] replaces. *)
Definition special (c : ascii) : Prop :=
  c = "&"%char ∨ c = "<"%char ∨ c = ">"%char ∨ c = "034"%char ∨ c = "'"%char.

(** Decoding of the five entities, left to right; [skip] characters of an
    entity just decoded are passed over. *)
Fixpoint unescape_from (skip : nat) (s : string) : string :=
  match s with
  | EmptyString => EmptyString
  | String c s' =>
      match skip with
      | S k => unescape_from k s'
      | O =>
          if String.prefix "&amp;" s then String "&" (unescape_from 4 s')
          else if String.prefix "&lt;" s then String "<" (unescape_from 3 s')
          else if String.prefix "&gt;" s then String ">" (unescape_from 3 s')
          else if String.prefix "&quot;" s then
            String "034" (unescape_from 5 s')
          else if String.prefix "&#039;" s then
            String "'" (unescape_from 5 s')
          else String c (unescape_from 0 s')
      end
  end.

Definition unescape (s : string) : string := unescape_from 0 s.

(** The roles in increasing order of prominence. *)
Definition role_rank (role : option string) : nat :=
  if bool_decide (role = Some "title") then 2
  else if bool_decide (role = Some "sectionHeading") then 1
  else 0.

(** The document with another paragraph list. *)
Definition with_paragraphs (doc : DocumentAnalysisResult.t)
    (paragraphs : list Paragraph.t) : DocumentAnalysisResult.t :=
  {| DocumentAnalysisResult.model_used :=
       DocumentAnalysisResult.model_used doc;
     DocumentAnalysisResult.pages := DocumentAnalysisResult.pages doc;
     DocumentAnalysisResult.paragraphs := paragraphs;
     DocumentAnalysisResult.tables := DocumentAnalysisResult.tables doc;
     DocumentAnalysisResult.images := DocumentAnalysisResult.images doc;
     DocumentAnalysisResult.full_text := DocumentAnalysisResult.full_text doc;
     DocumentAnalysisResult.content_blocks :=
       DocumentAnalysisResult.content_blocks doc |}.

(** The document with another list of content blocks. *)
Definition with_blocks (doc : DocumentAnalysisResult.t)
    (blocks : list ContentBlock.t) : DocumentAnalysisResult.t :=
  {| DocumentAnalysisResult.model_used :=
       DocumentAnalysisResult.model_used doc;
     DocumentAnalysisResult.pages := DocumentAnalysisResult.pages doc;
     DocumentAnalysisResult.paragraphs :=
       DocumentAnalysisResult.paragraphs doc;
     DocumentAnalysisResult.tables := DocumentAnalysisResult.tables doc;
     DocumentAnalysisResult.images := DocumentAnalysisResult.images doc;
     DocumentAnalysisResult.full_text := DocumentAnalysisResult.full_text doc;
     DocumentAnalysisResult.content_blocks := blocks |}.

(** The opening and the closing of every HTML document. *)
Definition html_open : string :=
  "<html><head><meta charset=" +:+ HtmlConverter.dq +:+ "utf-8"
    +:+ HtmlConverter.dq +:+ "></head><body>".
Definition html_close : string := "</body></html>".

(** What a block refers to in a document: nothing, when its type is none
    of the three, its id is unknown, or it is an image without data. *)
Definition dangling (doc : DocumentAnalysisResult.t) (block : ContentBlock.t)
  : Prop :=
  let id := ContentBlock.content_id block in
  let type := ContentBlock.type block in
  (type ≠ "paragraph" ∧ type ≠ "table" ∧ type ≠ "image") ∨
  (type = "paragraph" ∧
   Forall (λ p, Paragraph.id p ≠ id) (DocumentAnalysisResult.paragraphs doc)) ∨
  (type = "table" ∧
   Forall (λ t, Table.id t ≠ id) (DocumentAnalysisResult.tables doc)) ∨
  (type = "image" ∧
   Forall (λ i, Image.id i = id →
                Image.data i = None ∨ Image.data i = Some EmptyString)
          (DocumentAnalysisResult.images doc)).

(** The HTML of a list of blocks of a document, without the skeleton. *)
Definition body_html (doc : DocumentAnalysisResult.t)
    (blocks : list ContentBlock.t) : result string :=
  for_each
    (HtmlConverter.block_to_html
       (HtmlConverter.by_id Paragraph.id (DocumentAnalysisResult.paragraphs doc))
       (HtmlConverter.by_id Table.id (DocumentAnalysisResult.tables doc))
       (HtmlConverter.by_id Image.id (DocumentAnalysisResult.images doc)))
    EmptyString blocks.

(** The threshold that [TextLayerDetectionBackend.process] works with. *)
Definition threshold_of (config : Config.t) (options : gmap string string)
  : result Z :=
  PageFilter.int
    (get (options !! "char_threshold")
         (pretty (Config.text_layer_char_threshold
                    (Config.extraction config)))).

(** [float] on the integer literals, for the sample configurations. *)
Definition float_of_int_literal (s : string) : result Q :=
  PageFilter.int s ≫= λ n, Ok (inject_Z n).

(** The paragraph numbered [number] that [_extract_paragraphs] makes of a
    text block on page [page_num]. *)
Definition extracted_from (page_num number : Z) (block : Engine.Block)
    (p : Paragraph.t) : Prop :=
  Engine.type block = Some 0%Z ∧
  Paragraph.id p = "para-" +:+ pretty number ∧
  Paragraph.role p = None ∧
  Paragraph.page_number p = Some page_num ∧
  Paragraph.bounding_box p
  = Some (TextExtractionBackend.bounding_box (Engine.bbox block)) ∧
  (∃ content, Paragraph.content p = Some content ∧ content ≠ EmptyString ∧
              PageFilter.strip content = content) ∧
  ∃ name size bold,
    Paragraph.font p = Some (Font.mk (Some name) (Some size) (Some bold)).

(** The table numbered [number] that [_extract_tables] makes of a table
    found on page [page_num]. *)
Definition table_from (page_num number : Z) (found : Engine.FoundTable)
    (t : Table.t) : Prop :=
  Table.id t = "table-" +:+ pretty number ∧
  Table.page_number t = Some page_num ∧
  Table.bounding_box t
  = Some (TextExtractionBackend.bounding_box (Engine.table_bbox found)) ∧
  Table.rows t = Some (length (Engine.extract found)) ∧
  Table.columns t = Some (max_list (length <$> Engine.extract found)) ∧
  Table.cells t
  = Some (TextExtractionBackend.build_cells (Engine.extract found)).

(** The HTML of a row that [table.extract()] returned, in a table of
    [columns] columns: a header cell per entry in row 0 and a data cell
    per entry below, then empty data cells up to [columns]. *)
Definition extracted_cell_html (row_idx : nat) (cell : option string)
  : string :=
  let tag := if (row_idx =? 0)%nat then "th" else "td" in
  "<" +:+ tag +:+ ">" +:+ Spec.escape (get cell EmptyString)
    +:+ "</" +:+ tag +:+ ">".

Definition extracted_row_html (columns row_idx : nat)
    (row : list (option string)) : string :=
  "<tr>"
    +:+ Spec.concat_strings
          ((extracted_cell_html row_idx <$> row)
             ++ replicate (columns - length row) "<td></td>")
    +:+ "</tr>".

Definition extracted_table_html (id : string)
    (extracted : list (list (option string))) : string :=
  "<table border=" +:+ HtmlConverter.dq +:+ "1" +:+ HtmlConverter.dq
    +:+ " id=" +:+ HtmlConverter.dq +:+ id +:+ HtmlConverter.dq
    +:+ "><tbody>"
    +:+ Spec.concat_strings
          (imap (extracted_row_html (max_list (length <$> extracted)))
                extracted)
    +:+ "</tbody></table>".

(** An image entry whose data [doc.extract_image] returns, and one whose
    rectangles [page.get_image_rects] returns. *)
Definition has_data (img_info : Engine.ImageInfo) : bool :=
  match Engine.extract_image img_info with
  | Engine.Returns (Some _) => true
  | _ => false
  end.

Definition has_rects (img_info : Engine.ImageInfo) : bool :=
  match Engine.get_image_rects img_info with
  | Engine.Returns _ => true
  | Engine.Raises => false
  end.

(** The entries with data, each with its number: consecutive numbers from
    [counter]. *)
Fixpoint image_numbers (counter : Z) (img_infos : list Engine.ImageInfo)
  : list (Z * Engine.ImageInfo) :=
  match img_infos with
  | [] => []
  | img_info :: rest =>
      if has_data img_info then
        (counter, img_info) :: image_numbers (counter + 1) rest
      else image_numbers counter rest
  end.

(** The image numbered [number] that [_extract_images] makes of an entry
    on page [page_num]. *)
Definition image_from (b64encode : string → string) (page_num number : Z)
    (img_info : Engine.ImageInfo) (img : Image.t) : Prop :=
  Image.id img = "img-" +:+ pretty number ∧
  Image.page_number img = Some page_num ∧
  (∃ img_data,
     Engine.extract_image img_info = Engine.Returns (Some img_data) ∧
     Image.mime_type img = Some ("image/" +:+ Engine.ext img_data) ∧
     Image.data img = Some (b64encode (Engine.image img_data))) ∧
  ∃ img_rects,
    Engine.get_image_rects img_info = Engine.Returns img_rects ∧
    Image.bounding_box img
    = Some (match img_rects with
            | rect :: _ =>
                BoundingBox.mk (Some (Engine.x0 rect)) (Some (Engine.y0 rect))
                               (Some (Engine.x1 rect)) (Some (Engine.y1 rect))
            | [] =>
                BoundingBox.mk (Some 0%Q) (Some 0%Q) (Some 0%Q) (Some 0%Q)
            end).

(** Page [page_num] exists in a document of [total_pages] pages. *)
Definition in_document (total_pages : nat) (page_num : Z) : Prop :=
  (1 ≤ page_num ≤ Z.of_nat total_pages)%Z.

#[global] Instance in_document_dec (total_pages : nat) (page_num : Z) :
  Decision (in_document total_pages page_num).
Proof. unfold in_document. apply _. Defined.

(** The ids [prefix-n] of a list of numbers. *)
Definition numbered (prefix : string) (numbers : list Z) : list string :=
  (λ n, prefix +:+ pretty n) <$> numbers.

(** The options of [TextExtractionBackend.process], as it reads them. *)
Definition page_range_of (options : gmap string string) : string :=
  get (options !! "pages") EmptyString.

Definition include_images_of (options : gmap string string) : bool :=
  bool_decide
    (TextExtractionBackend.lower (get (options !! "include_images") "false")
     = "true").

(** The pages that [TextExtractionBackend.process] goes through. *)
Definition page_numbers_of (total_pages : nat)
    (options : gmap string string) : result (list Z) :=
  match page_range_of options with
  | EmptyString => Ok (PageFilter.range 1 (Z.of_nat total_pages + 1))
  | page_range => PageFilter.parse_page_range page_range
  end.

(** [P] holds of a page of [page_numbers] that exists in the document. *)
Definition on_page (total_pages : nat) (page_numbers : list Z)
    (P : Z → Prop) : Prop :=
  ∃ page_num, page_num ∈ page_numbers ∧ in_document total_pages page_num
              ∧ P page_num.

(** The state of the page loop of [TextExtractionBackend.process] after
    the pages [page_numbers] of a document of [total_pages] pages: the
    paragraphs are numbered without a gap, the tables and the images with
    increasing numbers below their counters, each element comes from a
    page of the list that exists, and the pages that exist are counted. *)
Definition extracted_ok (b64encode : string → string) (total_pages : nat)
    (page_numbers : list Z) (st : TextExtractionBackend.Extracted) : Prop :=
  TextExtractionBackend.para_counter st
  = Z.of_nat (length (TextExtractionBackend.all_paragraphs st)) ∧
  (∀ i p, TextExtractionBackend.all_paragraphs st !! i = Some p →
     on_page total_pages page_numbers
       (λ page_num, ∃ block, extracted_from page_num (Z.of_nat i) block p)) ∧
  (∃ numbers,
     StronglySorted Z.lt numbers ∧
     Forall (λ n, (n < TextExtractionBackend.table_counter st)%Z) numbers ∧
     Forall2 (λ n t, on_page total_pages page_numbers
                       (λ page_num, ∃ found, table_from page_num n found t))
             numbers (TextExtractionBackend.all_tables st)) ∧
  (∃ numbers,
     StronglySorted Z.lt numbers ∧
     Forall (λ n, (n < TextExtractionBackend.img_counter st)%Z) numbers ∧
     Forall2 (λ n img,
                on_page total_pages page_numbers
                  (λ page_num,
                     ∃ img_info,
                       image_from b64encode page_num n img_info img))
             numbers (TextExtractionBackend.all_images st)) ∧
  TextExtractionBackend.pages_processed st
  = Z.of_nat (length (filter (in_document total_pages) page_numbers)).

End Aux.

(** ** A sample document for the extraction backend *)

Module Samples.

(** [base64.b64encode] on a byte string. *)
Definition b64_alphabet : string :=
  "ABCDEFGHIJKLMNOPQRSTUVWXYZabcdefghijklmnopqrstuvwxyz0123456789+/".

Definition b64_char (n : N) : ascii :=
  match String.get (N.to_nat n) b64_alphabet with
  | Some c => c
  | None => "="%char
  end.

Fixpoint b64encode_bytes (bytes : list N) : string :=
  match bytes with
  | [] => EmptyString
  | [a] =>
      let n := (a * 65536)%N in
      String (b64_char (n / 262144))
        (String (b64_char ((n / 4096) mod 64)) "==")
  | [a; b] =>
      let n := (a * 65536 + b * 256)%N in
      String (b64_char (n / 262144))
        (String (b64_char ((n / 4096) mod 64))
           (String (b64_char ((n / 64) mod 64)) "="))
  | a :: b :: c :: rest =>
      let n := (a * 65536 + b * 256 + c)%N in
      String (b64_char (n / 262144))
        (String (b64_char ((n / 4096) mod 64))
           (String (b64_char ((n / 64) mod 64))
              (String (b64_char (n mod 64)) (b64encode_bytes rest))))
  end.

Definition b64encode (data : string) : string :=
  b64encode_bytes (N_of_ascii <$> list_ascii_of_string data).

(** The iteration of a [set] built from a list: each element once. *)
Definition set_iter (l : list string) : list string := remove_dups l.

Definition config : Config.t :=
  Config.mk (Config.mkExtraction 18 14 5 100)
            (Config.mkServer "0.0.0.0" 8089).

Definition span (text : string) (size : Q) (font : string) (flags : Z)
  : Engine.Span :=
  Engine.mkSpan (Some text) (Some size) (Some font) (Some flags).

(** A table with a short second row. *)
Definition found_table : Engine.FoundTable :=
  Engine.mkTable (10, 100, 200, 200)%Q
                 [[Some "Name"; Some "Qty"]; [Some "a<b"]].

(** A page with an image block, a text block, a blank text block, three
    tables, one of them without rows, and four image entries, one without
    data and one without rectangles. *)
Definition page_1 : Engine.Page :=
  Engine.mkPage
    (Some [ Engine.mkBlock (Some 1%Z) (0, 0, 10, 10)%Q None;
            Engine.mkBlock (Some 0%Z) (10, 20, 200, 40)%Q
              (Some [ Engine.mkLine
                        (Some [ span "Hello" 12 "Arial" 0;
                                span " " 12 "Arial" 0;
                                span "world " 14 "Arial-Bold" 16 ]) ]);
            Engine.mkBlock (Some 0%Z) (10, 50, 200, 60)%Q
              (Some [ Engine.mkLine (Some [ span "  " 12 "Arial" 0 ]) ]) ])
    (Engine.Returns
       [ found_table;
         Engine.mkTable (0, 0, 1, 1)%Q [];
         Engine.mkTable (10, 300, 200, 400)%Q [[Some "x"]] ])
    [ Engine.mkImage (Engine.Returns (Some (Engine.mkImageData "png" "abc")))
                     (Engine.Returns [Engine.mkRect 1 2 3 4]);
      Engine.mkImage Engine.Raises (Engine.Returns []);
      Engine.mkImage (Engine.Returns (Some (Engine.mkImageData "jpeg" "x")))
                     Engine.Raises;
      Engine.mkImage (Engine.Returns (Some (Engine.mkImageData "png" "y")))
                     (Engine.Returns []) ].

(** A page whose table finder fails. *)
Definition page_2 : Engine.Page :=
  Engine.mkPage
    (Some [ Engine.mkBlock (Some 0%Z) (10, 20, 200, 40)%Q
              (Some [ Engine.mkLine (Some [ span "Second" 20 "Arial" 0 ]) ]) ])
    Engine.Raises [].

Definition doc : list Engine.Page := [page_1; page_2].

End Samples.

(** * Properties *)

(** ** The error monad and the numeric builtins *)

Lemma bind_Ok {A B} (f : A → result B) (m : result A) (b : B) :
  m ≫= f = Ok b ↔ ∃ a, m = Ok a ∧ f a = Ok b.
Proof.
  destruct m as [a|e]; simpl; split.
  - intros H. exists a. split; [reflexivity|exact H].
  - intros (a' & Ha & H). injection Ha as ->. exact H.
  - intros H. discriminate H.
  - intros (a' & Ha & _). discriminate Ha.
Qed.

Lemma lt_spec (a b : Q) : Py.lt a b = true ↔ (a < b)%Q.
Proof.
  unfold Py.lt. rewrite negb_true_iff, <- not_true_iff_false, Qle_bool_iff.
  split; [apply Qnot_le_lt|apply Qlt_not_le].
Qed.

Lemma lt_false_spec (a b : Q) : Py.lt a b = false ↔ (b <= a)%Q.
Proof.
  unfold Py.lt. rewrite negb_false_iff. apply Qle_bool_iff.
Qed.

Lemma ge_spec (a b : Q) : Py.ge a b = true ↔ (b <= a)%Q.
Proof. apply Qle_bool_iff. Qed.

Lemma ge_decide (a b : Q) : Py.ge a b = bool_decide (b <= a)%Q.
Proof.
  case_bool_decide as H; [apply ge_spec, H|].
  apply not_true_iff_false. rewrite ge_spec. exact H.
Qed.

Lemma lt_decide (a b : Q) : Py.lt a b = bool_decide (a < b)%Q.
Proof.
  case_bool_decide as H; [apply lt_spec, H|].
  apply not_true_iff_false. rewrite lt_spec. exact H.
Qed.

Lemma min_Qmin (a b : Q) : Py.min a b = Qmin a b.
Proof.
  unfold Py.min, Qmin, GenericMinMax.gmin.
  destruct (Qcompare_spec a b) as [H|H|H], (Py.lt b a) eqn:E;
    try reflexivity.
  - apply lt_spec in E. rewrite H in E. contradiction (Qlt_irrefl _ E).
  - apply lt_spec in E. contradiction (Qlt_irrefl _ (Qlt_trans _ _ _ H E)).
  - apply lt_false_spec in E. contradiction (Qlt_not_le _ _ H E).
Qed.

Lemma max_Qmax (a b : Q) : Py.max a b = Qmax a b.
Proof.
  unfold Py.max, Py.gt, Qmax, GenericMinMax.gmax.
  destruct (Qcompare_spec a b) as [H|H|H], (Py.lt a b) eqn:E;
    try reflexivity.
  - apply lt_spec in E. rewrite H in E. contradiction (Qlt_irrefl _ E).
  - apply lt_false_spec in E. contradiction (Qlt_not_le _ _ H E).
  - apply lt_spec in E. contradiction (Qlt_irrefl _ (Qlt_trans _ _ _ H E)).
Qed.

(** ** [list.sort]: permutation, order, stability *)

Section SortFacts.
Context {A K : Type} (key : A → K) (key_lt : K → K → bool).

Lemma insert_sorted_Permutation (x : A) (s : list A) :
  Py.insert_sorted key key_lt x s ≡ₚ x :: s.
Proof.
  induction s as [|y s IH]; simpl; [reflexivity|].
  destruct (key_lt (key y) (key x)); [|reflexivity].
  rewrite IH. apply Permutation_swap.
Qed.

Lemma sort_Permutation (l : list A) : Py.sort key key_lt l ≡ₚ l.
Proof.
  induction l as [|x l IH]; simpl; [reflexivity|].
  rewrite insert_sorted_Permutation, IH. reflexivity.
Qed.

(** Moving an element past strictly smaller ones never changes the relative
    order of the elements of a class [P] whose keys are pairwise not
    smaller than one another. *)
Lemma insert_sorted_filter (P : A → Prop) `{!∀ a, Decision (P a)}
    (x : A) (s : list A) :
  (∀ a b, P a → P b → key_lt (key a) (key b) = false) →
  filter P (Py.insert_sorted key key_lt x s) = filter P (x :: s).
Proof.
  intros Hclass. induction s as [|y s IH]; simpl; [reflexivity|].
  destruct (key_lt (key y) (key x)) eqn:E; [|reflexivity].
  rewrite !filter_cons in *.
  destruct (decide (P y)) as [Py|Py], (decide (P x)) as [Px|Px];
    rewrite IH; try reflexivity.
  rewrite (Hclass y x Py Px) in E. discriminate E.
Qed.

Lemma sort_stable (P : A → Prop) `{!∀ a, Decision (P a)} (l : list A) :
  (∀ a b, P a → P b → key_lt (key a) (key b) = false) →
  filter P (Py.sort key key_lt l) = filter P l.
Proof.
  intros Hclass. induction l as [|x l IH]; simpl; [reflexivity|].
  rewrite insert_sorted_filter by exact Hclass.
  rewrite !filter_cons, IH. reflexivity.
Qed.

Hypothesis key_lt_asym : ∀ a b, key_lt a b = true → key_lt b a = false.
Hypothesis not_lt_trans :
  ∀ a b c, key_lt b a = false → key_lt c b = false → key_lt c a = false.

Lemma insert_sorted_StronglySorted (x : A) (s : list A) :
  StronglySorted (Py.not_after key key_lt) s →
  StronglySorted (Py.not_after key key_lt) (Py.insert_sorted key key_lt x s).
Proof.
  induction 1 as [|y s Hs IH Hy]; simpl.
  - repeat constructor.
  - destruct (key_lt (key y) (key x)) eqn:E.
    + constructor; [exact IH|].
      rewrite insert_sorted_Permutation. constructor; [|exact Hy].
      apply key_lt_asym, E.
    + constructor; [constructor; assumption|].
      constructor; [exact E|].
      eapply Forall_impl; [exact Hy|]. intros z Hz.
      unfold Py.not_after in *. eapply not_lt_trans; eassumption.
Qed.

Lemma sort_StronglySorted (l : list A) :
  StronglySorted (Py.not_after key key_lt) (Py.sort key key_lt l).
Proof.
  induction l as [|x l IH]; simpl; [constructor|].
  apply insert_sorted_StronglySorted, IH.
Qed.

Lemma key_lt_irrefl (k : K) : key_lt k k = false.
Proof.
  destruct (key_lt k k) eqn:E; [|reflexivity].
  rewrite (key_lt_asym _ _ E) in E. discriminate E.
Qed.

Lemma filter_cons_inj (P : A → Prop) `{!∀ a, Decision (P a)}
    (x : A) (l1 l2 : list A) :
  filter P (x :: l1) = filter P (x :: l2) → filter P l1 = filter P l2.
Proof.
  rewrite !filter_cons. destruct (decide (P x)); [|tauto].
  intros [= Heq]. exact Heq.
Qed.

(** Two sorted lists in which the elements of every key stand in the same
    order are equal. *)
Lemma sorted_stable_unique (l1 l2 : list A) :
  StronglySorted (Py.not_after key key_lt) l1 →
  StronglySorted (Py.not_after key key_lt) l2 →
  (∀ k, filter (Py.same_key key key_lt k) l1 = filter (Py.same_key key key_lt k) l2) →
  l1 = l2.
Proof.
  assert (Hself : ∀ a, Py.same_key key key_lt (key a) a)
    by (intros a; split; apply key_lt_irrefl).
  revert l2. induction l1 as [|x t1 IH]; intros [|y t2] S1 S2 Hf.
  - reflexivity.
  - specialize (Hf (key y)). rewrite filter_nil, filter_cons_True in Hf
      by apply Hself. discriminate Hf.
  - specialize (Hf (key x)). rewrite filter_nil, filter_cons_True in Hf
      by apply Hself. discriminate Hf.
  - apply StronglySorted_inv in S1 as [S1 Hx], S2 as [S2 Hy].
    rewrite Forall_forall in Hx, Hy.
    assert (Hxy : x = y).
    { pose proof (Hf (key x)) as Hfx. pose proof (Hf (key y)) as Hfy.
      rewrite (filter_cons_True _ x) in Hfx by apply Hself.
      rewrite (filter_cons_True _ y) in Hfy by apply Hself.
      assert (Hx2 : x ∈ y :: t2).
      { eapply (list_elem_of_filter (Py.same_key key key_lt (key x))).
        rewrite <- Hfx. left. }
      assert (Hy1 : y ∈ x :: t1).
      { eapply (list_elem_of_filter (Py.same_key key key_lt (key y))).
        rewrite Hfy. left. }
      apply elem_of_cons in Hx2 as [Hx2|Hx2]; [exact Hx2|].
      apply elem_of_cons in Hy1 as [Hy1|Hy1]; [symmetry; exact Hy1|].
      specialize (Hx y Hy1). specialize (Hy x Hx2).
      unfold Py.not_after in Hx, Hy.
      rewrite (filter_cons_True _ y) in Hfx by (split; assumption).
      injection Hfx as Hfx _. exact Hfx. }
    subst y. f_equal. apply IH; [exact S1|exact S2|].
    intros k. eapply filter_cons_inj, Hf.
Qed.

(** Any arrangement of [l] that is sorted and keeps the elements of every
    key in their order in [l] is the list that [sort] returns: which stable
    sort runs makes no difference. *)
Lemma sort_unique (l l' : list A) :
  StronglySorted (Py.not_after key key_lt) l' →
  (∀ k, filter (Py.same_key key key_lt k) l'
        = filter (Py.same_key key key_lt k) l) →
  l' = Py.sort key key_lt l.
Proof.
  intros Hs Hf.
  apply sorted_stable_unique; [exact Hs|apply sort_StronglySorted|].
  intros k. rewrite Hf. symmetry. apply sort_stable.
  intros a b [Ha _] [_ Hb]. eapply not_lt_trans; [exact Hb|exact Ha].
Qed.

End SortFacts.

Lemma StronglySorted_lookup {A} (R : relation A) (l : list A) (i j : nat)
    (a b : A) :
  StronglySorted R l → (i < j)%nat → l !! i = Some a → l !! j = Some b →
  R a b.
Proof.
  intros Hs. revert i j. induction Hs as [|x l Hs IH Hx]; intros i j Hij Hi Hj.
  - rewrite lookup_nil in Hi. discriminate Hi.
  - destruct j as [|j]; [lia|]. simpl in Hj. destruct i as [|i]; simpl in Hi.
    + injection Hi as ->. rewrite Forall_forall in Hx.
      apply Hx. eapply list_elem_of_lookup_2, Hj.
    + apply (IH i j); [lia|assumption..].
Qed.

Lemma tuple_lt_asym (a b : Z * Q) :
  Py.tuple_lt a b = true → Py.tuple_lt b a = false.
Proof.
  unfold Py.tuple_lt. destruct a as [p y], b as [p' y']; simpl.
  destruct (Z.eqb_spec p p') as [->|Hne].
  - rewrite Z.eqb_refl, lt_spec, lt_false_spec. apply Qlt_le_weak.
  - destruct (Z.eqb_spec p' p) as [->|_]; [contradiction Hne; reflexivity|].
    rewrite Z.ltb_lt, Z.ltb_ge. lia.
Qed.

Lemma tuple_not_lt_spec (a b : ContentBlock.t) :
  Py.tuple_lt (ContentBlock.key b) (ContentBlock.key a) = false ↔
  Spec.key_le a b.
Proof.
  unfold Py.tuple_lt, Spec.key_le, ContentBlock.key; simpl.
  destruct (Z.eqb_spec (ContentBlock.page b) (ContentBlock.page a)) as [E|E].
  - rewrite lt_false_spec, E. split; [intros H; right; split; [reflexivity|exact H]|].
    intros [H|[_ H]]; [lia|exact H].
  - rewrite Z.ltb_ge. split; [intros H; left; lia|].
    intros [H|[H _]]; [lia|congruence].
Qed.

Lemma tuple_not_lt_trans (a b c : Z * Q) :
  Py.tuple_lt b a = false → Py.tuple_lt c b = false → Py.tuple_lt c a = false.
Proof.
  unfold Py.tuple_lt. destruct a as [pa ya], b as [pb yb], c as [pc yc]; simpl.
  destruct (Z.eqb_spec pb pa) as [Hba|Hba], (Z.eqb_spec pc pb) as [Hcb|Hcb],
    (Z.eqb_spec pc pa) as [Hca|Hca];
    rewrite ?lt_false_spec, ?Z.ltb_ge; intros H1 H2; try lia.
  eapply Qle_trans; eassumption.
Qed.

(** ** [ResultAssembler]: the overlap filter *)

Section OverlapFilter.
Import ResultAssembler.

Lemma overlaps_iff (p : Paragraph.t) (t : Table.t) :
  Spec.overlaps p t ↔
  Paragraph.page_number p = Table.page_number t ∧
  ∃ px0 py0 px1 py1 tx0 ty0 tx1 ty1,
    Paragraph.bounding_box p
      = Some (BoundingBox.mk (Some px0) (Some py0) (Some px1) (Some py1)) ∧
    Table.bounding_box t
      = Some (BoundingBox.mk (Some tx0) (Some ty0) (Some tx1) (Some ty1)) ∧
    (0 < Spec.overlap px0 px1 tx0 tx1)%Q ∧
    (0 < Spec.overlap py0 py1 ty0 ty1)%Q.
Proof.
  unfold Spec.overlaps. split.
  - intros [Hpage H]. split; [exact Hpage|].
    destruct (Paragraph.bounding_box p) as [[[?|] [?|] [?|] [?|]]|];
      try contradiction;
    destruct (Table.bounding_box t) as [[[?|] [?|] [?|] [?|]]|];
      try contradiction.
    destruct H as [Hx Hy]. do 8 eexists. repeat split; eassumption.
  - intros [Hpage (px0 & py0 & px1 & py1 & tx0 & ty0 & tx1 & ty1
                   & -> & -> & Hx & Hy)].
    repeat split; assumption.
Qed.

Lemma overlap_test (a0 a1 b0 b1 : Q) :
  Py.gt (Py.max 0 (Py.min a1 b1 - Py.max a0 b0)) 0 = true ↔
  (0 < Spec.overlap a0 a1 b0 b1)%Q.
Proof.
  unfold Py.gt, Spec.overlap. rewrite lt_spec, min_Qmin, !max_Qmax.
  reflexivity.
Qed.

Lemma truthy_false (b : BoundingBox.t) :
  BoundingBox.truthy b = false ↔ b = BoundingBox.empty.
Proof.
  destruct b as [[?|] [?|] [?|] [?|]]; unfold BoundingBox.truthy; simpl;
    split; intros H; try discriminate H; reflexivity.
Qed.

(** What the table loop answers, when it answers. *)
Lemma overlaps_loop_spec (para : Paragraph.t) (p_bbox : BoundingBox.t)
    (tables : list Table.t) (b : bool) :
  Paragraph.bounding_box para = Some p_bbox →
  overlaps_loop para p_bbox tables = Ok b →
  (b = true ↔ Spec.dropped tables para).
Proof.
  intros Hp. unfold Spec.dropped.
  induction tables as [|t rest IH]; simpl; intros H.
  - injection H as <-. rewrite Exists_nil. split; [discriminate|tauto].
  - rewrite Exists_cons.
    assert (Hskip : ¬ Spec.overlaps para t →
                    overlaps_loop para p_bbox rest = Ok b →
                    b = true ↔ Spec.overlaps para t ∨ Exists (Spec.overlaps para) rest).
    { intros Hno Hrest. rewrite (IH Hrest). tauto. }
    destruct (Table.bounding_box t) as [t_bbox|] eqn:Ht.
    2:{ apply Hskip; [|exact H]. rewrite overlaps_iff, Ht.
        intros (_ & ? & ? & ? & ? & ? & ? & ? & ? & _ & Hn & _).
        discriminate Hn. }
    destruct (BoundingBox.truthy t_bbox) eqn:Htruthy; simpl in H.
    2:{ apply Hskip; [|exact H]. apply truthy_false in Htruthy.
        rewrite overlaps_iff, Ht, Htruthy.
        intros (_ & ? & ? & ? & ? & ? & ? & ? & ? & _ & Hn & _).
        discriminate Hn. }
    case_bool_decide as Hpage; simpl in H.
    2:{ apply Hskip; [|exact H]. rewrite overlaps_iff. tauto. }
    destruct p_bbox as [[px0|] [py0|] [px1|] [py1|]],
             t_bbox as [[tx0|] [ty0|] [tx1|] [ty1|]];
      simpl in H; try discriminate H.
    destruct (Py.gt (Py.max 0 (Py.min px1 tx1 - Py.max px0 tx0)) 0) eqn:Ex;
      [destruct (Py.gt (Py.max 0 (Py.min py1 ty1 - Py.max py0 ty0)) 0) eqn:Ey|];
      simpl in H.
    + injection H as <-. split; [intros _; left|reflexivity].
      rewrite overlaps_iff. split; [exact Hpage|].
      do 8 eexists. split; [exact Hp|]. split; [exact Ht|].
      split; apply overlap_test; assumption.
    + apply Hskip; [|exact H]. rewrite overlaps_iff, Hp, Ht.
      intros (_ & ? & ? & ? & ? & ? & ? & ? & ? & [= <- <- <- <-]
                & [= <- <- <- <-] & _ & Hy).
      apply overlap_test in Hy. congruence.
    + apply Hskip; [|exact H]. rewrite overlaps_iff, Hp, Ht.
      intros (_ & ? & ? & ? & ? & ? & ? & ? & ? & [= <- <- <- <-]
                & [= <- <- <- <-] & Hx & _).
      apply overlap_test in Hx. congruence.
Qed.

Lemma _overlaps_any_table_spec (para : Paragraph.t) (tables : list Table.t)
    (b : bool) :
  _overlaps_any_table para tables = Ok b →
  (b = true ↔ Spec.dropped tables para).
Proof.
  unfold _overlaps_any_table.
  assert (Hmiss : ∀ t, Spec.bbox_missing (Paragraph.bounding_box para) →
                       ¬ Spec.overlaps para t).
  { intros t Hm. rewrite overlaps_iff.
    intros (_ & ? & ? & ? & ? & ? & ? & ? & ? & Hb & _).
    destruct Hm as [Hm|Hm]; rewrite Hm in Hb; discriminate Hb. }
  destruct (Paragraph.bounding_box para) as [p_bbox|] eqn:Hp.
  - destruct (BoundingBox.truthy p_bbox) eqn:Htruthy; simpl.
    + apply overlaps_loop_spec, Hp.
    + intros [= <-]. apply truthy_false in Htruthy. subst p_bbox.
      split; [discriminate|]. unfold Spec.dropped. rewrite Exists_exists.
      intros (t & _ & Ht). exfalso. eapply Hmiss; [|exact Ht].
      right. reflexivity.
  - intros [= <-]. split; [discriminate|].
    unfold Spec.dropped. rewrite Exists_exists.
    intros (t & _ & Ht). exfalso. eapply Hmiss; [|exact Ht].
    left. reflexivity.
Qed.

Lemma filter_loop_spec (tables : list Table.t) (paragraphs : list Paragraph.t) :
  ∀ acc r,
  for_each
    (λ filtered para,
       b ← _overlaps_any_table para tables;
       Ok (if negb b then filtered ++ [para] else filtered))
    acc paragraphs = Ok r →
  r = acc ++ filter (λ p, ¬ Spec.dropped tables p) paragraphs.
Proof.
  induction paragraphs as [|p ps IH]; simpl; intros acc r H.
  - injection H as <-. rewrite app_nil_r. reflexivity.
  - apply bind_Ok in H as (acc' & Hbody & H).
    apply bind_Ok in Hbody as (b & Hb & Hacc).
    injection Hacc as <-. apply _overlaps_any_table_spec in Hb.
    rewrite (IH _ _ H), filter_cons.
    destruct b; simpl.
    + rewrite decide_False; [reflexivity|]. intros Hn. apply Hn, Hb. reflexivity.
    + rewrite decide_True; [rewrite <- app_assoc; reflexivity|].
      intros Hd. apply Hb in Hd. discriminate Hd.
Qed.

Lemma _filter_table_overlaps_spec (paragraphs : list Paragraph.t)
    (tables : list Table.t) (filtered : list Paragraph.t) :
  _filter_table_overlaps paragraphs tables = Ok filtered →
  filtered = filter (λ p, ¬ Spec.dropped tables p) paragraphs.
Proof.
  unfold _filter_table_overlaps. destruct tables as [|t ts].
  - intros [= <-]. induction paragraphs as [|p ps IH]; [reflexivity|].
    rewrite filter_cons_True, <- IH; [reflexivity|].
    unfold Spec.dropped. rewrite Exists_nil. tauto.
  - intros H. apply filter_loop_spec in H. exact H.
Qed.

End OverlapFilter.

(** ** [ResultAssembler]: no exception on well-formed input *)

Section AssembleTotal.
Import ResultAssembler.

Lemma overlaps_loop_total (para : Paragraph.t) (p_bbox : BoundingBox.t)
    (tables : list Table.t) :
  Spec.bbox_ok (Some p_bbox) = true →
  BoundingBox.truthy p_bbox = true →
  forallb (λ t, Spec.bbox_ok (Table.bounding_box t)) tables = true →
  ∃ b, overlaps_loop para p_bbox tables = Ok b.
Proof.
  intros Hok Htruthy. induction tables as [|t rest IH]; simpl; intros Hts.
  - eexists. reflexivity.
  - apply andb_true_iff in Hts as [Ht Hrest]. specialize (IH Hrest).
    destruct (Table.bounding_box t) as [t_bbox|]; [|exact IH].
    destruct (BoundingBox.truthy t_bbox) eqn:Htt; simpl; [|exact IH].
    case_bool_decide; simpl; [|exact IH].
    destruct p_bbox as [[px0|] [py0|] [px1|] [py1|]]; try discriminate;
    destruct t_bbox as [[tx0|] [ty0|] [tx1|] [ty1|]]; try discriminate.
    simpl.
    destruct (_ && _); [eexists; reflexivity|exact IH].
Qed.

Lemma _overlaps_any_table_total (para : Paragraph.t) (tables : list Table.t) :
  Spec.bbox_ok (Paragraph.bounding_box para) = true →
  forallb (λ t, Spec.bbox_ok (Table.bounding_box t)) tables = true →
  ∃ b, _overlaps_any_table para tables = Ok b.
Proof.
  intros Hp Hts. unfold _overlaps_any_table.
  destruct (Paragraph.bounding_box para) as [p_bbox|];
    [|eexists; reflexivity].
  destruct (BoundingBox.truthy p_bbox) eqn:Htruthy; simpl;
    [|eexists; reflexivity].
  apply overlaps_loop_total; assumption.
Qed.

Lemma filter_loop_total (tables : list Table.t) (paragraphs : list Paragraph.t) :
  forallb (λ p, Spec.bbox_ok (Paragraph.bounding_box p)) paragraphs = true →
  forallb (λ t, Spec.bbox_ok (Table.bounding_box t)) tables = true →
  ∀ acc, ∃ filtered,
    for_each
      (λ filtered para,
         b ← _overlaps_any_table para tables;
         Ok (if negb b then filtered ++ [para] else filtered))
      acc paragraphs = Ok filtered.
Proof.
  intros Hps Hts.
  induction paragraphs as [|p ps IH]; simpl; intros acc.
  - eexists. reflexivity.
  - simpl in Hps. apply andb_true_iff in Hps as [Hp Hps].
    destruct (_overlaps_any_table_total p tables Hp Hts) as [b ->]. simpl.
    apply IH, Hps.
Qed.

Lemma _filter_table_overlaps_total (paragraphs : list Paragraph.t)
    (tables : list Table.t) :
  forallb (λ p, Spec.bbox_ok (Paragraph.bounding_box p)) paragraphs = true →
  forallb (λ t, Spec.bbox_ok (Table.bounding_box t)) tables = true →
  ∃ filtered, _filter_table_overlaps paragraphs tables = Ok filtered.
Proof.
  intros Hps Hts. unfold _filter_table_overlaps.
  destruct tables as [|t ts]; [eexists; reflexivity|].
  apply filter_loop_total; assumption.
Qed.

(** The loop behind ["\n".join(p["content"] for p in filtered_paragraphs)]
    collects the contents in order, and raises when one is absent. *)
Lemma contents_loop_spec (paragraphs : list Paragraph.t) :
  ∀ acc r,
  for_each
    (λ acc p, c ← getitem "content" (Paragraph.content p); Ok (acc ++ [c]))
    acc paragraphs = Ok r ↔
  ∃ cs, Forall2 (λ p c, Paragraph.content p = Some c) paragraphs cs
        ∧ r = acc ++ cs.
Proof.
  induction paragraphs as [|p ps IH]; simpl; intros acc r.
  - split.
    + intros [= <-]. exists []. split; [constructor|].
      rewrite app_nil_r. reflexivity.
    + intros (cs & Hcs & ->). apply Forall2_nil_inv_l in Hcs as ->.
      rewrite app_nil_r. reflexivity.
  - split.
    + intros H. apply bind_Ok in H as (acc' & Hbody & H).
      apply bind_Ok in Hbody as (c & Hc & [= <-]).
      apply IH in H as (cs & Hcs & ->).
      exists (c :: cs). split.
      * constructor; [|exact Hcs].
        destruct (Paragraph.content p); [|discriminate Hc].
        injection Hc as ->. reflexivity.
      * rewrite <- app_assoc. reflexivity.
    + intros (cs & Hcs & ->).
      apply Forall2_cons_inv_l in Hcs as (c & cs' & Hc & Hcs & ->).
      rewrite Hc. simpl. apply IH. exists cs'. split; [exact Hcs|].
      rewrite <- app_assoc. reflexivity.
Qed.

Lemma append_blocks_spec {A} (block : A → ContentBlock.t)
    (l : list A) (content_blocks : list ContentBlock.t) :
  append_blocks block content_blocks l = content_blocks ++ map block l.
Proof.
  unfold append_blocks. revert content_blocks.
  induction l as [|x l IH]; simpl; intros acc.
  - rewrite app_nil_r. reflexivity.
  - rewrite IH, <- app_assoc. reflexivity.
Qed.

(** What [assemble] returns, when it returns. *)
Lemma assemble_inv (paragraphs : list Paragraph.t) (tables : list Table.t)
    (images : option (list Image.t)) (total_pages : Z)
    (doc : DocumentAnalysisResult.t) :
  assemble paragraphs tables images total_pages = Ok doc →
  let filtered := filter (λ p, ¬ Spec.dropped tables p) paragraphs in
  ∃ contents,
    Forall2 (λ p c, Paragraph.content p = Some c) filtered contents ∧
    doc = {| DocumentAnalysisResult.model_used := "pymupdf";
             DocumentAnalysisResult.pages := total_pages;
             DocumentAnalysisResult.paragraphs := filtered;
             DocumentAnalysisResult.tables := tables;
             DocumentAnalysisResult.images := get images [];
             DocumentAnalysisResult.full_text :=
               String.concat newline contents;
             DocumentAnalysisResult.content_blocks :=
               Py.sort ContentBlock.key tuple_lt
                 (Spec.appended filtered tables (get images [])) |}.
Proof.
  unfold assemble. intros H.
  apply bind_Ok in H as (filtered & Hf & H).
  apply _filter_table_overlaps_spec in Hf. subst filtered.
  apply bind_Ok in H as (contents & Hc & [= <-]).
  apply contents_loop_spec in Hc as (cs & Hcs & ->).
  exists cs. split; [exact Hcs|].
  rewrite !append_blocks_spec, <- app_assoc. reflexivity.
Qed.

Lemma assemble_total (paragraphs : list Paragraph.t) (tables : list Table.t)
    (images : option (list Image.t)) (total_pages : Z) :
  Spec.well_formed paragraphs tables = true →
  ∃ doc, assemble paragraphs tables images total_pages = Ok doc.
Proof.
  unfold Spec.well_formed. intros Hwf.
  apply andb_true_iff in Hwf as [Hps Hts].
  rewrite forallb_forall in Hps.
  destruct (_filter_table_overlaps_total paragraphs tables) as [filtered Hf].
  { apply forallb_forall. intros p Hp.
    apply Hps, andb_true_iff in Hp as [Hp _]. exact Hp. }
  { exact Hts. }
  unfold assemble. rewrite Hf. simpl.
  pose proof (_filter_table_overlaps_spec _ _ _ Hf) as ->.
  assert (Hcs : ∃ cs, Forall2 (λ p c, Paragraph.content p = Some c)
                  (filter (λ p, ¬ Spec.dropped tables p) paragraphs) cs).
  { clear Hf. induction paragraphs as [|p ps IH]; [exists []; constructor|].
    destruct IH as [cs Hcs].
    { intros q Hq. apply Hps. right. exact Hq. }
    rewrite filter_cons. destruct (decide _); [|exists cs; exact Hcs].
    specialize (Hps p (or_introl eq_refl)).
    apply andb_true_iff in Hps as [_ Hc]. apply bool_decide_eq_true in Hc.
    destruct Hc as [c Hc]. exists (c :: cs). constructor; assumption. }
  destruct Hcs as [cs Hcs].
  pose proof (proj2 (contents_loop_spec _ [] _) (ex_intro _ cs (conj Hcs eq_refl)))
    as ->.
  simpl. eexists. reflexivity.
Qed.

End AssembleTotal.

(** ** [ResultAssembler.assemble]: the content blocks *)

Section Assemble.
Import ResultAssembler.

(** C1.  Whenever [assemble] returns a document (and it does on every
    well-formed input), its [content_blocks] are, up to order, exactly the
    blocks of the paragraphs that survive the overlap filter, of all the
    tables and of all the images: one block per element, none twice, none
    missing.  The block of an element carries the element's id and the
    [y_min] of its bounding box, or [0] when the box or its [y_min] is
    absent. *)
Theorem content_blocks_one_per_element (paragraphs : list Paragraph.t)
    (tables : list Table.t) (images : option (list Image.t))
    (total_pages : Z) :
  (Spec.well_formed paragraphs tables = true →
   ∃ doc, assemble paragraphs tables images total_pages = Ok doc) ∧
  (∀ doc, assemble paragraphs tables images total_pages = Ok doc →
     let survivors := filter (λ p, ¬ Spec.dropped tables p) paragraphs in
     DocumentAnalysisResult.content_blocks doc
       ≡ₚ map paragraph_block survivors ++ map table_block tables
          ++ map image_block (get images []) ∧
     length (DocumentAnalysisResult.content_blocks doc)
       = (length survivors + length tables + length (get images []))%nat) ∧
  (∀ p, ContentBlock.content_id (paragraph_block p) = Paragraph.id p ∧
        ContentBlock.y_position (paragraph_block p)
          = Spec.y_min_or_0 (Paragraph.bounding_box p)) ∧
  (∀ t, ContentBlock.content_id (table_block t) = Table.id t ∧
        ContentBlock.y_position (table_block t)
          = Spec.y_min_or_0 (Table.bounding_box t)) ∧
  (∀ i, ContentBlock.content_id (image_block i) = Image.id i ∧
        ContentBlock.y_position (image_block i)
          = Spec.y_min_or_0 (Image.bounding_box i)).
Proof.
  split; [apply assemble_total|].
  split.
  - intros doc H survivors. apply assemble_inv in H as (cs & _ & ->). simpl.
    fold survivors.
    assert (HP : Py.sort ContentBlock.key tuple_lt
                   (Spec.appended survivors tables (get images []))
                 ≡ₚ Spec.appended survivors tables (get images []))
      by apply sort_Permutation.
    split; [exact HP|].
    rewrite HP. unfold Spec.appended. rewrite !length_app, !length_map. lia.
  - repeat split; try reflexivity; simpl; unfold y_min_of.
    + destruct (Paragraph.bounding_box p) as [[? [?|] ? ?]|]; reflexivity.
    + destruct (Table.bounding_box t) as [[? [?|] ? ?]|]; reflexivity.
    + destruct (Image.bounding_box i) as [[? [?|] ? ?]|]; reflexivity.
Qed.

Lemma content_blocks_one_per_element_witness :
  ∃ doc,
    assemble Examples.doc_paragraphs Examples.doc_tables
             (Some Examples.doc_images) 2 = Ok doc ∧
    map ContentBlock.content_id (DocumentAnalysisResult.content_blocks doc)
      ≡ₚ ["para-0"; "para-1"; "para-2"; "para-4"; "table-0"; "img-0"].
Proof.
  destruct (content_blocks_one_per_element Examples.doc_paragraphs
              Examples.doc_tables (Some Examples.doc_images) 2)
    as (Htotal & Hblocks & _).
  destruct (Htotal eq_refl) as [doc Hdoc].
  exists doc. split; [exact Hdoc|].
  destruct (Hblocks doc Hdoc) as [HP _].
  etrans; [apply Permutation_map, HP|]. vm_compute. reflexivity.
Defined.

(** C2.  Whenever [assemble] returns a document, its [content_blocks] are
    sorted by [(page, y_position)] in lexicographic order, and the blocks
    of any one key stand in their append order: surviving paragraphs, then
    tables, then images, each group in input order. *)
Theorem content_blocks_sorted_stable (paragraphs : list Paragraph.t)
    (tables : list Table.t) (images : option (list Image.t))
    (total_pages : Z) :
  (Spec.well_formed paragraphs tables = true →
   ∃ doc, assemble paragraphs tables images total_pages = Ok doc) ∧
  (∀ doc, assemble paragraphs tables images total_pages = Ok doc →
     let blocks := DocumentAnalysisResult.content_blocks doc in
     (∀ i j bi bj, (i < j)%nat → blocks !! i = Some bi → blocks !! j = Some bj →
                   Spec.key_le bi bj) ∧
     (∀ k, filter (Spec.key_eq k) blocks
           = filter (Spec.key_eq k)
               (map paragraph_block (DocumentAnalysisResult.paragraphs doc)
                ++ map table_block tables
                ++ map image_block (get images [])))).
Proof.
  split; [apply assemble_total|].
  intros doc H. apply assemble_inv in H as (cs & _ & ->). simpl. split.
  - intros i j bi bj Hij Hi Hj. apply tuple_not_lt_spec.
    eapply (StronglySorted_lookup (Py.not_after ContentBlock.key tuple_lt));
      [|exact Hij|exact Hi|exact Hj].
    apply sort_StronglySorted.
    + apply tuple_lt_asym.
    + apply tuple_not_lt_trans.
  - intros k. apply sort_stable. intros a b [Ha Hya] [Hb Hyb].
    unfold Py.tuple_lt, ContentBlock.key; simpl.
    rewrite <- Ha, <- Hb, Z.eqb_refl. apply lt_false_spec.
    rewrite <- Hya, <- Hyb. apply Qle_refl.
Qed.

Lemma content_blocks_sorted_stable_witness :
  ∃ doc,
    assemble Examples.doc_paragraphs Examples.doc_tables
             (Some Examples.doc_images) 2 = Ok doc ∧
    map ContentBlock.content_id (DocumentAnalysisResult.content_blocks doc)
      = ["para-4"; "para-2"; "img-0"; "para-1"; "table-0"; "para-0"] ∧
    ∀ i j bi bj, (i < j)%nat →
      DocumentAnalysisResult.content_blocks doc !! i = Some bi →
      DocumentAnalysisResult.content_blocks doc !! j = Some bj →
      Spec.key_le bi bj.
Proof.
  destruct (content_blocks_sorted_stable Examples.doc_paragraphs
              Examples.doc_tables (Some Examples.doc_images) 2)
    as (Htotal & Hsorted).
  destruct (Htotal eq_refl) as [doc Hdoc].
  exists doc. split; [exact Hdoc|].
  split; [|exact (proj1 (Hsorted doc Hdoc))].
  vm_compute in Hdoc. injection Hdoc as <-. reflexivity.
Defined.



End Assemble.

(** ** [ResultAssembler._filter_table_overlaps] *)

Section FilterClaims.
Import ResultAssembler.

(** C5.  The overlap filter drops a paragraph exactly when some table on
    the paragraph's page overlaps it with [overlap_x > 0] and
    [overlap_y > 0]; the paragraphs it keeps stay in their input order, and
    [assemble] hands the tables and the images on untouched.  The paragraph
    with box (0,0,100,20) on page 1 is dropped by a table with box
    (40,10,300,200) on page 1 and kept when that table is on page 2. *)
Theorem overlap_filter_drops_exactly (paragraphs : list Paragraph.t)
    (tables : list Table.t) :
  (forallb (λ p, Spec.bbox_ok (Paragraph.bounding_box p)) paragraphs = true →
   forallb (λ t, Spec.bbox_ok (Table.bounding_box t)) tables = true →
   ∃ filtered, _filter_table_overlaps paragraphs tables = Ok filtered) ∧
  (∀ filtered, _filter_table_overlaps paragraphs tables = Ok filtered →
     filtered = filter (λ p, ¬ Spec.dropped tables p) paragraphs ∧
     ∀ p, p ∈ paragraphs →
          (p ∉ filtered ↔ ∃ t, t ∈ tables ∧ Spec.overlaps p t)) ∧
  (∀ images total_pages doc,
     assemble paragraphs tables images total_pages = Ok doc →
     DocumentAnalysisResult.tables doc = tables ∧
     DocumentAnalysisResult.images doc = get images [] ∧
     _filter_table_overlaps paragraphs tables
       = Ok (DocumentAnalysisResult.paragraphs doc)) ∧
  _filter_table_overlaps [Examples.para_0] [Examples.table_on 1] = Ok [] ∧
  _filter_table_overlaps [Examples.para_0] [Examples.table_on 2]
    = Ok [Examples.para_0].
Proof.
  split; [apply _filter_table_overlaps_total|].
  split; [|split; [|split; reflexivity]].
  - intros filtered H. apply _filter_table_overlaps_spec in H.
    split; [exact H|]. subst filtered. intros p Hp.
    rewrite list_elem_of_filter, <- Exists_exists. unfold Spec.dropped.
    destruct (decide (Exists (Spec.overlaps p) tables)); tauto.
  - intros images total_pages doc H. unfold assemble in H.
    apply bind_Ok in H as (filtered & Hf & H).
    apply bind_Ok in H as (contents & _ & [= <-]). simpl.
    repeat split. exact Hf.
Qed.

Lemma overlap_filter_drops_exactly_witness :
  _filter_table_overlaps Examples.doc_paragraphs Examples.doc_tables
  = Ok (filter (λ p, ¬ Spec.dropped Examples.doc_tables p)
               Examples.doc_paragraphs).
Proof.
  destruct (overlap_filter_drops_exactly Examples.doc_paragraphs
              Examples.doc_tables) as (Htotal & Hspec & _).
  destruct (Htotal eq_refl eq_refl) as [filtered Hf].
  rewrite Hf. f_equal. apply (Hspec filtered Hf).
Defined.

Lemma for_each_ext {A S} (f g : S → A → result S) (l : list A) :
  (∀ s x, f s x = g s x) → ∀ s, for_each f s l = for_each g s l.
Proof.
  intros Hfg. induction l as [|x l IH]; simpl; intros s; [reflexivity|].
  rewrite Hfg. destruct (g s x) as [s'|e]; simpl; [apply IH|reflexivity].
Qed.

Lemma overlaps_loop_skip (para : Paragraph.t) (p_bbox : BoundingBox.t)
    (before after : list Table.t) (t : Table.t) :
  Spec.bbox_missing (Table.bounding_box t) →
  overlaps_loop para p_bbox (before ++ t :: after)
  = overlaps_loop para p_bbox (before ++ after).
Proof.
  intros Hm. induction before as [|t' before IH]; simpl.
  - destruct Hm as [-> | ->]; reflexivity.
  - rewrite IH. reflexivity.
Qed.

Lemma keep_all_loop (tables : list Table.t) (paragraphs : list Paragraph.t) :
  (∀ p, p ∈ paragraphs → _overlaps_any_table p tables = Ok false) →
  ∀ acc,
  for_each
    (λ filtered para,
       b ← _overlaps_any_table para tables;
       Ok (if negb b then filtered ++ [para] else filtered))
    acc paragraphs = Ok (acc ++ paragraphs).
Proof.
  induction paragraphs as [|p ps IH]; simpl; intros Hall acc.
  - rewrite app_nil_r. reflexivity.
  - rewrite (Hall p) by left. simpl. rewrite IH.
    + rewrite <- app_assoc. reflexivity.
    + intros q Hq. apply Hall. right. exact Hq.
Qed.

(** C10.  A paragraph whose bounding box is absent or empty is never
    reported as overlapping and is always kept; a table whose bounding box
    is absent or empty changes nothing in the result of the filter; with no
    table at all the filter returns the paragraph list as it is. *)
Theorem overlap_filter_missing_boxes :
  (∀ p tables, Spec.bbox_missing (Paragraph.bounding_box p) →
     _overlaps_any_table p tables = Ok false) ∧
  (∀ paragraphs tables filtered p,
     _filter_table_overlaps paragraphs tables = Ok filtered →
     Spec.bbox_missing (Paragraph.bounding_box p) →
     p ∈ paragraphs → p ∈ filtered) ∧
  (∀ paragraphs before t after,
     Spec.bbox_missing (Table.bounding_box t) →
     _filter_table_overlaps paragraphs (before ++ t :: after)
     = _filter_table_overlaps paragraphs (before ++ after)) ∧
  (∀ paragraphs, _filter_table_overlaps paragraphs [] = Ok paragraphs).
Proof.
  assert (Hmiss : ∀ p tables, Spec.bbox_missing (Paragraph.bounding_box p) →
                    _overlaps_any_table p tables = Ok false).
  { intros p tables [Hm|Hm]; unfold _overlaps_any_table; rewrite Hm;
      reflexivity. }
  split; [exact Hmiss|]. split; [|split; [|reflexivity]].
  - intros paragraphs tables filtered p Hf Hm Hp.
    apply _filter_table_overlaps_spec in Hf as ->.
    apply list_elem_of_filter. split; [|exact Hp].
    intros Hd. apply (_overlaps_any_table_spec p tables false) in Hd;
      [discriminate Hd|].
    apply Hmiss, Hm.
  - intros paragraphs before t after Hm.
    assert (Hsame : ∀ p, _overlaps_any_table p (before ++ t :: after)
                         = _overlaps_any_table p (before ++ after)).
    { intros p. unfold _overlaps_any_table.
      destruct (Paragraph.bounding_box p) as [p_bbox|]; [|reflexivity].
      destruct (negb (BoundingBox.truthy p_bbox)); [reflexivity|].
      apply overlaps_loop_skip, Hm. }
    unfold _filter_table_overlaps.
    destruct (before ++ after) as [|t' ts'] eqn:E.
    + apply app_eq_nil in E as [-> ->]. simpl.
      apply (keep_all_loop [t] paragraphs). intros p _.
      specialize (Hsame p). simpl in Hsame. rewrite Hsame.
      unfold _overlaps_any_table.
      destruct (Paragraph.bounding_box p) as [p_bbox|]; [|reflexivity].
      destruct (negb (BoundingBox.truthy p_bbox)); reflexivity.
    + destruct (before ++ t :: after) as [|t0 ts0] eqn:E0.
      { destruct before; discriminate E0. }
      apply for_each_ext. intros s p. rewrite Hsame. reflexivity.
Qed.

Lemma overlap_filter_missing_boxes_witness :
  _filter_table_overlaps Examples.doc_paragraphs
    (Examples.table_no_bbox :: Examples.doc_tables)
  = _filter_table_overlaps Examples.doc_paragraphs Examples.doc_tables.
Proof.
  destruct overlap_filter_missing_boxes as (_ & _ & Hskip & _).
  apply (Hskip Examples.doc_paragraphs [] Examples.table_no_bbox
               Examples.doc_tables).
  left. reflexivity.
Defined.

End FilterClaims.

(** ** [RoleDetector]: the counter and the body size *)

Section CounterFacts.
Import RoleDetector.

Lemma Qeq_bool_decide (a b : Q) : Qeq_bool a b = bool_decide (a == b)%Q.
Proof.
  case_bool_decide as H.
  - apply Qeq_bool_iff, H.
  - apply not_true_iff_false. rewrite Qeq_bool_iff. exact H.
Qed.

Ltac qeq_cases :=
  rewrite ?Qeq_bool_decide; repeat case_bool_decide; repeat case_decide;
  simpl; try reflexivity; try lia;
  try (exfalso;
       match goal with
       | H : ¬ (_ == _)%Q |- _ =>
           apply H; solve [eauto 4 using Qeq_sym, Qeq_trans]
       end).

Lemma occurrences_cons (v x : Q) (l : list Q) :
  Spec.occurrences v (x :: l)
  = ((if decide (x == v)%Q then 1 else 0) + Spec.occurrences v l)%nat.
Proof.
  unfold Spec.occurrences. rewrite filter_cons.
  destruct (decide (x == v)%Q); reflexivity.
Qed.











Lemma occurrences_proper (v w : Q) (l : list Q) :
  (v == w)%Q → Spec.occurrences v l = Spec.occurrences w l.
Proof.
  intros Hvw. induction l as [|x l IH]; [reflexivity|].
  rewrite !occurrences_cons, IH. qeq_cases.
Qed.


End CounterFacts.

Section RoleDetectorFacts.
Import RoleDetector.

(** The list that the first loop of [_detect_body_font_size] builds. *)
Lemma sizes_loop (paragraphs : list Paragraph.t) (acc : list Q) :
  foldl (λ sizes para,
           sizes ++ replicate (weight para) (round1 (font_size para)))
        acc paragraphs
  = acc ++ flat_map (λ p, replicate (weight p) (round1 (font_size p)))
                    paragraphs.
Proof.
  revert acc. induction paragraphs as [|p ps IH]; simpl; intros acc.
  - rewrite app_nil_r. reflexivity.
  - rewrite IH, <- app_assoc. reflexivity.
Qed.




Example round1_values :
  (round1 (1234 # 100) == 123 # 10)%Q ∧ (round1 (1236 # 100) == 124 # 10)%Q ∧
  (round1 (25 # 100) == 2 # 10)%Q ∧ (round1 (75 # 100) == 8 # 10)%Q ∧
  (round1 24 == 24)%Q ∧ (round1 (- (125 # 100)) == - (12 # 10))%Q.
Proof. repeat split. Qed.


Lemma body_size_set_role (role_of : Paragraph.t → option string)
    (paragraphs : list Paragraph.t) :
  _detect_body_font_size (map (λ p, set_role p (role_of p)) paragraphs)
  = _detect_body_font_size paragraphs.
Proof.
  unfold _detect_body_font_size. rewrite !sizes_loop. simpl.
  replace (flat_map _ (map _ paragraphs))
    with (flat_map (λ p, replicate (weight p) (round1 (font_size p)))
                   paragraphs); [reflexivity|].
  induction paragraphs as [|p ps IH]; simpl; [reflexivity|].
  rewrite IH. reflexivity.
Qed.



(** C8.  Classifying a list that has already been classified with the same
    thresholds changes nothing: every role stays as the first run set
    it. *)
Theorem classify_idempotent (paragraphs : list Paragraph.t)
    (title_threshold heading_threshold : Q) :
  classify (classify paragraphs title_threshold heading_threshold)
           title_threshold heading_threshold
  = classify paragraphs title_threshold heading_threshold.
Proof.
  destruct paragraphs as [|p0 ps]; [reflexivity|].
  unfold classify at 2 3.
  set (role_of := λ para, _classify_single (font_size para) (font_bold para)
                            (_detect_body_font_size (p0 :: ps))
                            title_threshold heading_threshold).
  change (classify (map (λ para, set_role para (role_of para)) (p0 :: ps))
                   title_threshold heading_threshold
          = map (λ para, set_role para (role_of para)) (p0 :: ps)).
  unfold classify.
  rewrite (body_size_set_role role_of (p0 :: ps)).
  destruct (map _ (p0 :: ps)) as [|q0 qs] eqn:E; [discriminate E|].
  rewrite <- E, map_map. apply map_ext. intros p. reflexivity.
Qed.

End RoleDetectorFacts.

(** ** [HtmlConverter._escape_html] *)

Section EscapeFacts.
Import HtmlConverter.

Lemma string_app_cons (x : ascii) (a b : string) :
  String x a +:+ b = String x (a +:+ b).
Proof. reflexivity. Qed.

Lemma string_app_nil_r (a : string) : a +:+ EmptyString = a.
Proof.
  induction a as [|x a IH]; [reflexivity|].
  rewrite string_app_cons, IH. reflexivity.
Qed.

Lemma string_app_assoc (a b c : string) : (a +:+ b) +:+ c = a +:+ (b +:+ c).
Proof.
  induction a as [|x a IH]; [reflexivity|].
  rewrite !string_app_cons, IH. reflexivity.
Qed.

(** [replace] with a one-character pattern works character by character. *)
Lemma replace_one_char (a : ascii) (new s : string) :
  replace (String a EmptyString) new s = Spec.subst_char a new s.
Proof.
  unfold replace. induction s as [|c s IH]; simpl; [reflexivity|].
  destruct (ascii_dec a c) as [->|Hne].
  - rewrite bool_decide_eq_true_2 by reflexivity. rewrite IH.
    destruct s; reflexivity.
  - rewrite bool_decide_eq_false_2 by congruence. rewrite IH. reflexivity.
Qed.

Lemma subst_char_app (a : ascii) (new s1 s2 : string) :
  Spec.subst_char a new (s1 +:+ s2)
  = Spec.subst_char a new s1 +:+ Spec.subst_char a new s2.
Proof.
  induction s1 as [|c s1 IH]; simpl; [reflexivity|].
  rewrite IH, string_app_assoc. reflexivity.
Qed.

Lemma _escape_html_app (s1 s2 : string) :
  _escape_html (s1 +:+ s2) = _escape_html s1 +:+ _escape_html s2.
Proof.
  unfold _escape_html, dq. rewrite !replace_one_char, !subst_char_app.
  reflexivity.
Qed.

Lemma _escape_html_char (c : ascii) :
  _escape_html (String c EmptyString) = Spec.escape_char c.
Proof. destruct c as [[] [] [] [] [] [] [] []]; reflexivity. Qed.

Lemma _escape_html_escape (s : string) : _escape_html s = Spec.escape s.
Proof.
  induction s as [|c s IH]; [reflexivity|].
  change (String c s) with (String c EmptyString +:+ s).
  rewrite _escape_html_app, _escape_html_char, IH. reflexivity.
Qed.

Lemma cell_to_html_spec (cell : option Cell.t) :
  cell_to_html cell = Spec.cell_html cell.
Proof.
  destruct cell as [cell|]; [|reflexivity].
  unfold cell_to_html, Spec.cell_html, Spec.cell_open, Spec.cell_close,
    Spec.cell_tag, Spec.span_attr.
  rewrite _escape_html_escape.
  destruct (Cell.kind cell) as [k|], (Cell.column_span cell) as [cs|],
    (Cell.row_span cell) as [rs|]; simpl;
    repeat case_bool_decide; repeat case_decide; try congruence;
    repeat match goal with
           | |- context [(1 <? ?n)%Z] => destruct (Z.ltb_spec 1 n); try lia
           end;
    rewrite ?string_app_assoc; reflexivity.
Qed.

(** C7.  [_escape_html] applies the five substitutions in the order
    ampersand, less-than, greater-than, double quote, apostrophe, and its
    result is the text with every
    character replaced by its entity once: a special character becomes its
    entity, the ampersand of an entity is never escaped again (which a
    later substitution of the ampersand would do), and any other character
    is copied.  Paragraph and cell contents reach the output through it. *)
Theorem escape_html_once :
  (∀ text, _escape_html text
           = replace "'" "&#039;"
               (replace dq "&quot;"
                  (replace ">" "&gt;"
                     (replace "<" "&lt;" (replace "&" "&amp;" text))))) ∧
  (∀ text, _escape_html text = Spec.escape text) ∧
  (∀ c s, _escape_html (String c s) = Spec.escape_char c +:+ _escape_html s) ∧
  (∀ c, c ≠ "&"%char → c ≠ "<"%char → c ≠ ">"%char → c ≠ "034"%char →
        c ≠ "'"%char → Spec.escape_char c = String c EmptyString) ∧
  (Spec.escape_char "&" = "&amp;" ∧ Spec.escape_char "<" = "&lt;" ∧
   Spec.escape_char ">" = "&gt;" ∧ Spec.escape_char "034" = "&quot;" ∧
   Spec.escape_char "'" = "&#039;") ∧
  (_escape_html "&" = "&amp;" ∧ _escape_html "<" = "&lt;" ∧
   replace "&" "&amp;" (replace "<" "&lt;" "<") = "&amp;lt;") ∧
  (∀ cell,
     cell_to_html (Some cell)
     = Spec.cell_open cell +:+ Spec.escape (Cell.content cell)
         +:+ Spec.cell_close cell) ∧
  (∀ ps ts imgs html block para content,
     ContentBlock.type block = "paragraph" →
     ps !! ContentBlock.content_id block = Some para →
     Paragraph.content para = Some content →
     ∃ tag, block_to_html ps ts imgs html block
            = Ok (html +:+ "<" +:+ tag +:+ ">" +:+ Spec.escape content
                    +:+ "</" +:+ tag +:+ ">")).
Proof.
  split; [reflexivity|].
  split; [exact _escape_html_escape|].
  split.
  { intros c s. change (String c s) with (String c EmptyString +:+ s).
    rewrite _escape_html_app, _escape_html_char. reflexivity. }
  split.
  { intros c H1 H2 H3 H4 H5. unfold Spec.escape_char.
    rewrite !bool_decide_eq_false_2 by assumption. reflexivity. }
  split; [repeat split|]. split; [repeat split|].
  split.
  - intros cell. apply (cell_to_html_spec (Some cell)).
  - intros ps ts imgs html block para content Htype Hpara Hcontent.
    unfold block_to_html. rewrite Htype, Hpara, Hcontent. simpl.
    rewrite _escape_html_escape. eexists. reflexivity.
Qed.

Lemma escape_html_once_witness :
  Spec.escape_char "a" = "a" ∧
  _escape_html "a < b & c > d" = "a &lt; b &amp; c &gt; d".
Proof.
  destruct escape_html_once as (_ & Hescape & _ & Hother & _).
  split; [apply (Hother "a"%char); discriminate|].
  rewrite Hescape. reflexivity.
Defined.

End EscapeFacts.

(** ** [HtmlConverter._table_to_html] *)

Section TableFacts.
Import HtmlConverter.

Lemma cell_at_snoc (cells : list Cell.t) (cell : Cell.t) (r c : nat) :
  Spec.cell_at (cells ++ [cell]) r c
  = if decide (Cell.row_index cell = r ∧ Cell.column_index cell = c)
    then Some cell else Spec.cell_at cells r c.
Proof.
  unfold Spec.cell_at. rewrite filter_app, last_app, filter_cons, filter_nil.
  destruct (decide _); reflexivity.
Qed.

Lemma cell_at_beyond (cells : list Cell.t) (r c : nat) :
  (Spec.row_count cells ≤ r)%nat → Spec.cell_at cells r c = None.
Proof.
  unfold Spec.cell_at, Spec.row_count.
  induction cells as [|cell cells IH]; intros Hr; [reflexivity|].
  change (Nat.max (S (Cell.row_index cell))
            (max_list ((λ cell, S (Cell.row_index cell)) <$> cells)) ≤ r)%nat
    in Hr.
  rewrite filter_cons. destruct (decide _) as [[Hri _]|_]; [lia|].
  apply IH. lia.
Qed.

Lemma row_count_snoc (cells : list Cell.t) (cell : Cell.t) :
  Spec.row_count (cells ++ [cell])
  = Nat.max (Spec.row_count cells) (S (Cell.row_index cell)).
Proof.
  unfold Spec.row_count. induction cells as [|c cells IH].
  - simpl. lia.
  - change (Nat.max (S (Cell.row_index c))
              (max_list ((λ cell, S (Cell.row_index cell))
                           <$> (cells ++ [cell])))
            = Nat.max
                (Nat.max (S (Cell.row_index c))
                   (max_list ((λ cell, S (Cell.row_index cell)) <$> cells)))
                (S (Cell.row_index cell))).
    rewrite IH. lia.
Qed.

Lemma grid_row_beyond (columns : nat) (cells : list Cell.t) (r : nat) :
  (Spec.row_count cells ≤ r)%nat →
  Spec.grid_row columns cells r = replicate columns None.
Proof.
  intros Hr. unfold Spec.grid_row. apply list_eq. intros c.
  rewrite list_lookup_fmap.
  destruct (decide (c < columns)%nat) as [Hc|Hc].
  - rewrite lookup_seq_lt, lookup_replicate_2 by exact Hc. simpl.
    rewrite cell_at_beyond by exact Hr. reflexivity.
  - rewrite lookup_seq_ge by lia. symmetry. apply lookup_replicate_None. lia.
Qed.

Lemma lookup_grid_rows (columns : nat) (cells : list Cell.t) (n r : nat) :
  (Spec.grid_row columns cells <$> seq 0 n) !! r
  = if decide (r < n)%nat then Some (Spec.grid_row columns cells r) else None.
Proof.
  rewrite list_lookup_fmap. destruct (decide _).
  - rewrite lookup_seq_lt by assumption. reflexivity.
  - rewrite lookup_seq_ge by lia. reflexivity.
Qed.

(** Growing the grid to reach a row adds empty rows only. *)
Lemma grow_rows_grid (columns : nat) (cells : list Cell.t) (row_index : nat) :
  grow_rows columns row_index (Spec.grid columns cells)
  = Spec.grid_row columns cells
      <$> seq 0 (Nat.max (Spec.row_count cells) (S row_index)).
Proof.
  unfold grow_rows, Spec.grid. rewrite length_fmap, length_seq.
  set (n := Spec.row_count cells).
  replace (Nat.max n (S row_index)) with (n + (S row_index - n))%nat by lia.
  rewrite seq_app, fmap_app. f_equal. simpl.
  generalize (S row_index - n)%nat as k. intros k.
  assert (H : ∀ m, (n ≤ m)%nat →
              replicate k (replicate columns None)
              = Spec.grid_row columns cells <$> seq m k).
  { induction k as [|k IH]; intros m Hm; simpl; [reflexivity|].
    rewrite grid_row_beyond by exact Hm. f_equal. apply IH. lia. }
  apply H. lia.
Qed.

Lemma grid_row_snoc (columns : nat) (cells : list Cell.t) (cell : Cell.t)
    (r : nat) :
  Spec.grid_row columns (cells ++ [cell]) r
  = if decide (r = Cell.row_index cell) then
      <[Cell.column_index cell := Some cell]> (Spec.grid_row columns cells r)
    else Spec.grid_row columns cells r.
Proof.
  unfold Spec.grid_row. apply list_eq. intros c.
  rewrite list_lookup_fmap.
  assert (Hlen : length (Spec.cell_at cells r <$> seq 0 columns) = columns)
    by (rewrite length_fmap, length_seq; reflexivity).
  destruct (decide (r = Cell.row_index cell)) as [->|Hr].
  - rewrite list_lookup_insert, Hlen, list_lookup_fmap.
    destruct (decide (c < columns)%nat) as [Hc|Hc].
    + rewrite lookup_seq_lt by exact Hc. simpl. rewrite cell_at_snoc.
      destruct (decide (Cell.column_index cell = c)) as [<-|Hne].
      * rewrite !decide_True by tauto. reflexivity.
      * rewrite !decide_False by tauto. reflexivity.
    + rewrite lookup_seq_ge by lia. simpl.
      rewrite decide_False by lia. reflexivity.
  - rewrite list_lookup_fmap.
    destruct (seq 0 columns !! c) as [c'|]; simpl; [|reflexivity].
    rewrite cell_at_snoc, decide_False by (intros [? _]; congruence).
    reflexivity.
Qed.

(** One iteration of the grouping loop takes the grid of the cells seen so
    far to the grid with the next cell. *)
Lemma place_cell_grid (columns : nat) (cells : list Cell.t) (cell : Cell.t) :
  place_cell columns (Spec.grid columns cells) cell
  = Spec.grid columns (cells ++ [cell]).
Proof.
  unfold place_cell. rewrite grow_rows_grid.
  unfold Spec.grid. rewrite row_count_snoc.
  set (n := Nat.max (Spec.row_count cells) (S (Cell.row_index cell))).
  assert (Hri : (Cell.row_index cell < n)%nat) by lia.
  rewrite lookup_grid_rows, decide_True by exact Hri.
  assert (Hlen : length (Spec.grid_row columns cells (Cell.row_index cell))
                 = columns).
  { unfold Spec.grid_row. rewrite length_fmap, length_seq. reflexivity. }
  rewrite Hlen. apply list_eq. intros r.
  rewrite (lookup_grid_rows columns (cells ++ [cell])).
  destruct (Nat.ltb_spec (Cell.column_index cell) columns) as [Hci|Hci].
  - rewrite list_lookup_insert, length_fmap, length_seq, lookup_grid_rows.
    rewrite grid_row_snoc.
    destruct (decide (r < n)%nat) as [Hr|Hr].
    + destruct (decide (r = Cell.row_index cell)) as [->|Hne].
      * rewrite decide_True by tauto. reflexivity.
      * rewrite decide_False by (intros [? _]; congruence). reflexivity.
    + rewrite decide_False by lia. reflexivity.
  - rewrite lookup_grid_rows. destruct (decide (r < n)%nat); [|reflexivity].
    rewrite grid_row_snoc. destruct (decide _) as [->|]; [|reflexivity].
    rewrite list_insert_ge by lia. reflexivity.
Qed.

Lemma group_cells_grid (table : Table.t) :
  group_cells table
  = Spec.grid (get (Table.columns table) 0%nat) (get (Table.cells table) []).
Proof.
  unfold group_cells. generalize (get (Table.cells table) []).
  generalize (get (Table.columns table) 0%nat). intros columns cells.
  induction cells as [|cell cells IH] using rev_ind; [reflexivity|].
  rewrite foldl_snoc, IH. apply place_cell_grid.
Qed.

Lemma cells_loop_html (row : list (option Cell.t)) (html : string) :
  foldl (λ html cell, html +:+ cell_to_html cell) html row
  = html +:+ Spec.concat_strings (Spec.cell_html <$> row).
Proof.
  revert html. induction row as [|cell row IH]; intros html; simpl.
  - rewrite string_app_nil_r. reflexivity.
  - rewrite IH, cell_to_html_spec, string_app_assoc. reflexivity.
Qed.

Lemma rows_loop_html (rows : list (list (option Cell.t))) (html : string) :
  foldl row_to_html html rows
  = html +:+ Spec.concat_strings (Spec.row_html <$> rows).
Proof.
  revert html. induction rows as [|row rows IH]; intros html; simpl.
  - rewrite string_app_nil_r. reflexivity.
  - rewrite IH. unfold row_to_html, Spec.row_html.
    rewrite cells_loop_html, !string_app_assoc. reflexivity.
Qed.

End TableFacts.

Section TableClaims.
Import HtmlConverter.

(** C6, as the code has it.  [_table_to_html] emits the opening
    [<table border="1" id="{id}"><tbody>], then one [<tr>] per row index
    from 0 to the largest [row_index] found among the table's cells (none
    for a table without cells; the [rows] field is not read), then the
    closing tags.  Each row has [columns] positions; a position with no
    cell emits [<td></td>], and a position with a cell emits, for the last
    cell given for it, [<th>] for a column header and [<td>] otherwise,
    with [colspan] and [rowspan] only for spans greater than 1 and with the
    content escaped.  When [rows] agrees with the cells, this is one [<tr>]
    per row index below [rows]. *)
Theorem table_to_html_rows_from_cells (table : Table.t) :
  _table_to_html table
  = Spec.table_html (Spec.row_count (get (Table.cells table) [])) table ∧
  (get (Table.rows table) 0%nat = Spec.row_count (get (Table.cells table) []) →
   _table_to_html table
   = Spec.table_html (get (Table.rows table) 0%nat) table).
Proof.
  assert (H : _table_to_html table
              = Spec.table_html (Spec.row_count (get (Table.cells table) []))
                                table).
  { unfold _table_to_html, Spec.table_html.
    rewrite rows_loop_html, group_cells_grid. unfold Spec.grid.
    rewrite <- list_fmap_compose, !string_app_assoc. reflexivity. }
  split; [exact H|]. intros ->. exact H.
Qed.

Lemma table_to_html_rows_from_cells_witness :
  _table_to_html
    (Table.mk "t" None None (Some 1%nat) (Some 2%nat)
              (Some [Cell.mk 0 1 None (Some 3%Z) "a&b" None]))
  = "<table border=" +:+ dq +:+ "1" +:+ dq +:+ " id=" +:+ dq +:+ "t" +:+ dq
      +:+ "><tbody><tr><td></td><td colspan=" +:+ dq +:+ "3" +:+ dq
      +:+ ">a&amp;b</td></tr></tbody></table>".
Proof.
  destruct (table_to_html_rows_from_cells
              (Table.mk "t" None None (Some 1%nat) (Some 2%nat)
                        (Some [Cell.mk 0 1 None (Some 3%Z) "a&b" None])))
    as [_ Hrows].
  rewrite Hrows; reflexivity.
Defined.

(** The table of the overlap scenario announces two rows and has no cell:
    its HTML has no [<tr>] at all, where one [<tr>] per row index below
    [rows] would give two. *)
Lemma table_to_html_rows_counterexample :
  Table.rows (Examples.table_on 1) = Some 2%nat ∧
  _table_to_html (Examples.table_on 1)
  = "<table border=" +:+ dq +:+ "1" +:+ dq +:+ " id=" +:+ dq +:+ "table-0"
      +:+ dq +:+ "><tbody></tbody></table>" ∧
  _table_to_html (Examples.table_on 1)
  ≠ Spec.table_html (get (Table.rows (Examples.table_on 1)) 0%nat)
                    (Examples.table_on 1) ∧
  ¬ (∀ table, _table_to_html table
              = Spec.table_html (get (Table.rows table) 0%nat) table).
Proof.
  split; [reflexivity|]. split; [reflexivity|].
  assert (Hne : _table_to_html (Examples.table_on 1)
                ≠ Spec.table_html (get (Table.rows (Examples.table_on 1)) 0%nat)
                                  (Examples.table_on 1))
    by (vm_compute; discriminate).
  split; [exact Hne|]. intros Hall. apply Hne, Hall.
Qed.

(** A document with the single title paragraph [Hi] renders as the
    skeleton around [<h1>Hi</h1>]; a block whose id is unknown is skipped. *)
Example convert_title :
  convert
    {| DocumentAnalysisResult.model_used := "pymupdf";
       DocumentAnalysisResult.pages := 1;
       DocumentAnalysisResult.paragraphs :=
         [Paragraph.mk "para-0" (Some "Hi") (Some "title") (Some 1%Z) None
                       None];
       DocumentAnalysisResult.tables := [];
       DocumentAnalysisResult.images := [];
       DocumentAnalysisResult.full_text := "Hi";
       DocumentAnalysisResult.content_blocks :=
         [ContentBlock.mk "paragraph" 1 0 "para-0";
          ContentBlock.mk "table" 1 5 "table-9"] |}
  = Ok ("<html><head><meta charset=" +:+ dq +:+ "utf-8" +:+ dq
          +:+ "></head><body><h1>Hi</h1></body></html>").
Proof. vm_compute. reflexivity. Qed.

End TableClaims.

(** ** [PageFilter.parse_page_range] *)

Section PageFilterFacts.
Import PageFilter.

(** [int] on literals: leading zeros, surrounding blanks, a sign and
    single underscores between digits are accepted. *)
Example int_accepts :
  int "007" = Ok 7%Z ∧ int " 12 " = Ok 12%Z ∧ int "1_0" = Ok 10%Z ∧
  int "+5" = Ok 5%Z ∧ int "-5" = Ok (-5)%Z.
Proof. repeat split. Qed.

Example int_rejects :
  Forall (λ s, int s = Raise (ValueError_int s))
         [EmptyString; "1__0"; "_1"; "1_"; "1 2"; "+ 5"; "5-7"; "x"; "1.0"].
Proof. repeat constructor. Qed.

Example split_strip :
  split "," "a,,b," = ["a"; EmptyString; "b"; EmptyString] ∧
  strip "  a b  " = "a b" ∧
  split_once "-" "5-7-9" = Some ("5", "7-9") ∧
  split_once "-" "57" = None.
Proof. repeat split. Qed.

Lemma int_error (s : string) (e : exn) :
  int s = Raise e → is_ValueError e = true.
Proof.
  unfold int. destruct (match strip s with EmptyString => _ | _ => _ end);
    intros [= <-]. reflexivity.
Qed.

Lemma elem_of_range (start stop n : Z) :
  n ∈ range start stop ↔ (start ≤ n < stop)%Z.
Proof. unfold range. rewrite elem_of_seqZ. lia. Qed.

(** One component: either its pages join the set, or it is malformed and a
    [ValueError] is raised. *)
Lemma parse_part_spec (pages : gset Z) (part : string) :
  match parse_part pages part with
  | Ok pages' =>
      ¬ Spec.malformed part ∧
      ∀ n, n ∈ pages' ↔ n ∈ pages ∨ Spec.denotes part n
  | Raise e => Spec.malformed part ∧ is_ValueError e = true
  end.
Proof.
  unfold parse_part, Spec.malformed, Spec.denotes.
  destruct (split_once "-" (strip part)) as [[first last]|].
  - destruct (int (strip first)) as [lo|e1] eqn:E1; simpl.
    2:{ split; [left; eauto|]. eapply int_error, E1. }
    destruct (int (strip last)) as [hi|e2] eqn:E2; simpl.
    2:{ split; [right; left; eauto|]. eapply int_error, E2. }
    destruct (Z.gtb_spec lo hi) as [Hgt|Hle].
    + split; [|reflexivity]. right. right. exists lo, hi. repeat split. lia.
    + split.
      * intros [[e He]|[[e He]|(lo' & hi' & [= <-] & [= <-] & Hlt)]];
          [discriminate He..|lia].
      * intros n. rewrite elem_of_union, elem_of_list_to_set, elem_of_range.
        split.
        -- intros [Hn|Hn]; [left; exact Hn|right]. exists lo, hi.
           repeat split; lia.
        -- intros [Hn|(lo' & hi' & [= <-] & [= <-] & Hn)]; [left; exact Hn|].
           right. lia.
  - destruct (int (strip part)) as [n0|e] eqn:E; simpl.
    + split; [intros [e He]; discriminate He|]. intros n.
      rewrite elem_of_union, elem_of_singleton. split.
      * intros [Hn | ->]; [left; exact Hn|right; reflexivity].
      * intros [Hn|[= ->]]; [left; exact Hn|right; reflexivity].
    + split; [eauto|]. eapply int_error, E.
Qed.

Lemma parse_loop_spec (parts : list string) :
  ∀ pages,
  match for_each parse_part pages parts with
  | Ok pages' =>
      Forall (λ part, ¬ Spec.malformed part) parts ∧
      ∀ n, n ∈ pages' ↔
           n ∈ pages ∨ ∃ part, part ∈ parts ∧ Spec.denotes part n
  | Raise e => Exists Spec.malformed parts ∧ is_ValueError e = true
  end.
Proof.
  induction parts as [|part parts IH]; simpl; intros pages.
  - split; [constructor|]. intros n. split; [tauto|].
    intros [Hn|(part & Hin & _)]; [exact Hn|].
    apply elem_of_nil in Hin. contradiction.
  - pose proof (parse_part_spec pages part) as Hpart.
    destruct (parse_part pages part) as [pages1|e]; simpl.
    + destruct Hpart as [Hok Hpages1]. specialize (IH pages1).
      destruct (for_each parse_part pages1 parts) as [pages'|e].
      * destruct IH as [Hall Hpages']. split; [constructor; assumption|].
        intros n. rewrite Hpages', Hpages1. split.
        -- intros [[Hn|Hn]|(p & Hp & Hn)]; [left; exact Hn|right..].
           ++ exists part. split; [left|exact Hn].
           ++ exists p. split; [right; exact Hp|exact Hn].
        -- intros [Hn|(p & Hp & Hn)]; [left; left; exact Hn|].
           apply elem_of_cons in Hp as [->|Hp]; [left; right; exact Hn|].
           right. exists p. split; assumption.
      * destruct IH as [Hex He]. split; [right; exact Hex|exact He].
    + destruct Hpart as [Hbad He]. split; [left; exact Hbad|exact He].
Qed.

Lemma StronglySorted_strict (l : list Z) :
  StronglySorted (Py.not_after id Z.ltb) l → NoDup l →
  StronglySorted Z.lt l.
Proof.
  induction 1 as [|x l Hs IH Hx]; intros Hnd; [constructor|].
  apply NoDup_cons in Hnd as [Hnotin Hnd].
  constructor; [apply IH, Hnd|].
  rewrite Forall_forall in Hx |- *. intros y Hy.
  specialize (Hx y Hy). unfold Py.not_after, id in Hx.
  apply Z.ltb_ge in Hx.
  assert (x ≠ y) by (intros ->; contradiction). lia.
Qed.



End PageFilterFacts.

(** * Further properties of the code *)

(** ** [HtmlConverter._escape_html]: safety and decoding *)

Section EscapeMore.
Import HtmlConverter.

Lemma list_ascii_app (a b : string) :
  list_ascii_of_string (a +:+ b)
  = list_ascii_of_string a ++ list_ascii_of_string b.
Proof.
  induction a as [|c a IH]; [reflexivity|].
  rewrite string_app_cons. simpl. rewrite IH. reflexivity.
Qed.

Lemma escape_char_safe (c : ascii) :
  Forall (λ c', c' ≠ "<"%char ∧ c' ≠ ">"%char ∧ c' ≠ "034"%char
                ∧ c' ≠ "'"%char)
         (list_ascii_of_string (Spec.escape_char c)).
Proof.
  destruct c as [[] [] [] [] [] [] [] []]; vm_compute;
    repeat constructor; discriminate.
Qed.

(** X1.  The escaped text contains no [<], no [>], no double quote and no
    apostrophe: whatever the content, it cannot open or close a tag or an
    attribute value. *)
Theorem escape_html_no_markup (text : string) :
  Forall (λ c, c ≠ "<"%char ∧ c ≠ ">"%char ∧ c ≠ "034"%char ∧ c ≠ "'"%char)
         (list_ascii_of_string (_escape_html text)).
Proof.
  rewrite _escape_html_escape.
  induction text as [|c text IH]; simpl; [constructor|].
  rewrite list_ascii_app. apply Forall_app. split; [|exact IH].
  apply escape_char_safe.
Qed.

Lemma unescape_char (c : ascii) (rest : string) :
  Aux.unescape_from 0 (Spec.escape_char c +:+ rest)
  = String c (Aux.unescape_from 0 rest).
Proof.
  destruct c as [[] [] [] [] [] [] [] []]; destruct rest; reflexivity.
Qed.

(** X2.  Escaping loses nothing: decoding the five entities gives the text
    back, so two different texts never have the same escaped form. *)
Theorem escape_html_injective :
  (∀ text, Aux.unescape (_escape_html text) = text) ∧
  (∀ text1 text2, _escape_html text1 = _escape_html text2 → text1 = text2).
Proof.
  assert (H : ∀ text, Aux.unescape (_escape_html text) = text).
  { intros text. rewrite _escape_html_escape. unfold Aux.unescape.
    induction text as [|c text IH]; [reflexivity|].
    simpl. rewrite unescape_char, IH. reflexivity. }
  split; [exact H|]. intros text1 text2 Heq.
  rewrite <- (H text1), <- (H text2), Heq. reflexivity.
Qed.

Lemma escape_html_injective_witness :
  Aux.unescape (_escape_html "a < b & c") = "a < b & c" ∧
  "x&y" = "x&y".
Proof.
  destruct escape_html_injective as [Hdecode Hinj].
  split; [apply Hdecode|]. apply Hinj. reflexivity.
Defined.

(** X3.  Escaping works piece by piece, and a text without any of the five
    special characters is left as it is. *)
Theorem escape_html_pieces :
  (∀ text1 text2,
     _escape_html (text1 +:+ text2)
     = _escape_html text1 +:+ _escape_html text2) ∧
  (∀ text, Forall (λ c, ¬ Aux.special c) (list_ascii_of_string text) →
           _escape_html text = text).
Proof.
  split; [exact _escape_html_app|].
  intros text. rewrite _escape_html_escape.
  induction text as [|c text IH]; simpl; intros Hsafe; [reflexivity|].
  apply Forall_cons in Hsafe as [Hc Hsafe]. rewrite (IH Hsafe).
  unfold Aux.special in Hc. unfold Spec.escape_char.
  rewrite !bool_decide_eq_false_2 by tauto. reflexivity.
Qed.

Lemma escape_html_pieces_witness : _escape_html "Hello, world" = "Hello, world".
Proof.
  destruct escape_html_pieces as [_ Hsafe]. apply Hsafe.
  vm_compute. repeat constructor;
    intros [H|[H|[H|[H|H]]]]; discriminate H.
Defined.

End EscapeMore.

(** ** [HtmlConverter.convert] *)

Section ConvertFacts.
Import HtmlConverter.

Lemma string_app_nil_l (a : string) : EmptyString +:+ a = a.
Proof. reflexivity. Qed.

Lemma for_each_app {A S} (f : S → A → result S) (l1 l2 : list A) (s : S) :
  for_each f s (l1 ++ l2) = for_each f s l1 ≫= λ s', for_each f s' l2.
Proof.
  revert s. induction l1 as [|x l1 IH]; simpl; intros s; [reflexivity|].
  destruct (f s x) as [s'|e]; simpl; [apply IH|reflexivity].
Qed.

(** The lookup dict of a comprehension [{x["id"]: x for x in l}]. *)
Lemma by_id_lookup {A} (id : A → string) (l : list A) (k : string) :
  by_id id l !! k = last (filter (λ x, id x = k) l).
Proof.
  unfold by_id. induction l as [|x l IH] using rev_ind; [reflexivity|].
  rewrite foldl_snoc, filter_app, last_app, filter_cons, filter_nil.
  destruct (decide (id x = k)) as [<-|Hne].
  - rewrite lookup_insert_eq. reflexivity.
  - rewrite lookup_insert_ne by exact Hne. exact IH.
Qed.

Lemma filter_other_id {A} (id : A → string) (l : list A) (k : string) :
  k ∉ id <$> l → filter (λ x, id x = k) l = [].
Proof.
  induction l as [|z l IH]; intros Hk; [reflexivity|].
  rewrite fmap_cons in Hk. apply not_elem_of_cons in Hk as [Hz Hk].
  rewrite filter_cons_False by congruence. apply IH, Hk.
Qed.

Lemma by_id_None {A} (id : A → string) (l : list A) (k : string) :
  by_id id l !! k = None ↔ Forall (λ x, id x ≠ k) l.
Proof.
  rewrite by_id_lookup, last_None. split.
  - intros Hnil. apply Forall_forall. intros x Hx Hk.
    assert (Hin : x ∈ filter (λ x, id x = k) l)
      by (apply list_elem_of_filter; tauto).
    rewrite Hnil in Hin. apply elem_of_nil in Hin. exact Hin.
  - intros Hall. induction Hall as [|x l' Hx Hall IH]; [reflexivity|].
    rewrite filter_cons_False by exact Hx. exact IH.
Qed.

Lemma by_id_Some {A} (id : A → string) (l : list A) (k : string) (x : A) :
  by_id id l !! k = Some x → x ∈ l ∧ id x = k.
Proof.
  rewrite by_id_lookup. intros Hlast.
  apply last_Some in Hlast as [l' Hl'].
  assert (Hin : x ∈ filter (λ x, id x = k) l).
  { rewrite Hl'. apply elem_of_app. right. left. }
  apply list_elem_of_filter in Hin. tauto.
Qed.

Lemma by_id_NoDup {A} (id : A → string) (l : list A) (x : A) :
  NoDup (id <$> l) → x ∈ l → by_id id l !! id x = Some x.
Proof.
  intros Hnd Hx. rewrite by_id_lookup.
  induction l as [|y l IH]; [apply elem_of_nil in Hx; contradiction|].
  rewrite fmap_cons in Hnd. apply NoDup_cons in Hnd as [Hy Hnd].
  rewrite filter_cons. apply elem_of_cons in Hx as [->|Hx].
  - rewrite decide_True by reflexivity.
    rewrite (filter_other_id id l (id y) Hy). reflexivity.
  - destruct (decide (id y = id x)) as [Hyx|Hyx].
    + contradiction Hy. rewrite Hyx. apply list_elem_of_fmap_2, Hx.
    + apply IH; assumption.
Qed.

(** X4.  In the lookup dicts of [convert] an id stands for the last
    element of the collection that carries it: an id that no element
    carries is not found, and when the ids of the collection are distinct
    every element is found under its id. *)
Theorem by_id_last_wins {A} (id : A → string) (l : list A) :
  (∀ k, by_id id l !! k = last (filter (λ x, id x = k) l)) ∧
  (∀ k, by_id id l !! k = None ↔ Forall (λ x, id x ≠ k) l) ∧
  (∀ k x, by_id id l !! k = Some x → x ∈ l ∧ id x = k) ∧
  (NoDup (id <$> l) → ∀ x, x ∈ l → by_id id l !! id x = Some x).
Proof.
  split; [apply by_id_lookup|]. split; [apply by_id_None|].
  split; [apply by_id_Some|]. intros Hnd x. apply by_id_NoDup, Hnd.
Qed.

Lemma by_id_last_wins_witness :
  by_id Paragraph.id Examples.doc_paragraphs !! "para-2"
  = Examples.doc_paragraphs !! 2%nat.
Proof.
  destruct (by_id_last_wins Paragraph.id Examples.doc_paragraphs)
    as (_ & _ & _ & Hfound).
  apply (Hfound ltac:(vm_compute; repeat constructor;
                       rewrite ?elem_of_cons, ?elem_of_nil;
                       intuition discriminate)
                (Examples.para "para-2" "Page 1 top" 1
                               (Examples.bbox 0 10 100 30))).
  right. right. left.
Defined.

End ConvertFacts.

Section ConvertClaims.
Import HtmlConverter.

(** A block adds a piece that does not depend on the HTML so far, or raises
    the [KeyError] of a paragraph without content. *)
Lemma block_to_html_cases (ps : gmap string Paragraph.t)
    (ts : gmap string Table.t) (imgs : gmap string Image.t)
    (block : ContentBlock.t) :
  (∃ piece, ∀ html, block_to_html ps ts imgs html block
                    = Ok (html +:+ piece)) ∨
  ((∀ html, block_to_html ps ts imgs html block
            = Raise (KeyError "content")) ∧
   ∃ para, ps !! ContentBlock.content_id block = Some para ∧
           Paragraph.content para = None).
Proof.
  unfold block_to_html.
  assert (Hskip : ∃ piece, ∀ html : string, Ok html = Ok (html +:+ piece)).
  { exists EmptyString. intros html. rewrite string_app_nil_r. reflexivity. }
  repeat case_bool_decide.
  - destruct (ps !! ContentBlock.content_id block) as [para|] eqn:Hp;
      [|left; exact Hskip].
    destruct (Paragraph.content para) as [content|] eqn:Hc; simpl.
    + left. eexists. intros html. reflexivity.
    + right. split; [reflexivity|]. exists para. split; [reflexivity|exact Hc].
  - left. destruct (ts !! ContentBlock.content_id block); [|exact Hskip].
    eexists. intros html. reflexivity.
  - left. destruct (imgs !! ContentBlock.content_id block) as [img|];
      [|exact Hskip].
    destruct (Image.data img) as [[|c d]|]; try exact Hskip.
    eexists. intros html. reflexivity.
  - left. exact Hskip.
Qed.

Lemma blocks_loop_acc (ps : gmap string Paragraph.t)
    (ts : gmap string Table.t) (imgs : gmap string Image.t)
    (blocks : list ContentBlock.t) (html : string) :
  for_each (block_to_html ps ts imgs) html blocks
  = for_each (block_to_html ps ts imgs) EmptyString blocks
      ≫= λ body, Ok (html +:+ body).
Proof.
  revert html. induction blocks as [|b blocks IH]; intros html; simpl.
  - rewrite string_app_nil_r. reflexivity.
  - destruct (block_to_html_cases ps ts imgs b) as [[piece Hb]|[Hb _]];
      rewrite !Hb; simpl; [|reflexivity].
    rewrite (IH (html +:+ piece)), (IH (EmptyString +:+ piece)).
    destruct (for_each _ EmptyString blocks) as [body|e]; simpl;
      [|reflexivity].
    rewrite string_app_assoc. reflexivity.
Qed.

Lemma convert_body (doc : DocumentAnalysisResult.t) :
  convert doc
  = Aux.body_html doc (DocumentAnalysisResult.content_blocks doc)
      ≫= (λ body, Ok (Aux.html_open +:+ body +:+ Aux.html_close)).
Proof.
  unfold convert, Aux.body_html. rewrite blocks_loop_acc.
  destruct (for_each _ EmptyString _) as [body|e]; simpl; [|reflexivity].
  unfold Aux.html_open, Aux.html_close.
  rewrite !string_app_assoc. reflexivity.
Qed.

(** X5.  The HTML of a document is the fixed skeleton around the HTML of
    its blocks, and the HTML of a list of blocks is the HTML of its first
    part followed by the HTML of the rest: each block is rendered on its
    own, in order. *)
Theorem convert_blocks_in_order (doc : DocumentAnalysisResult.t) :
  convert doc
  = Aux.body_html doc (DocumentAnalysisResult.content_blocks doc)
      ≫= (λ body, Ok (Aux.html_open +:+ body +:+ Aux.html_close)) ∧
  ∀ blocks1 blocks2,
    Aux.body_html doc (blocks1 ++ blocks2)
    = Aux.body_html doc blocks1 ≫= λ body1,
      Aux.body_html doc blocks2 ≫= λ body2,
      Ok (body1 +:+ body2).
Proof.
  split; [apply convert_body|].
  - intros blocks1 blocks2. unfold Aux.body_html. rewrite for_each_app.
    destruct (for_each _ EmptyString blocks1) as [body1|e]; simpl;
      [|reflexivity].
    apply blocks_loop_acc.
Qed.

Lemma dangling_block (doc : DocumentAnalysisResult.t) (block : ContentBlock.t)
    (html : string) :
  Aux.dangling doc block →
  block_to_html
    (by_id Paragraph.id (DocumentAnalysisResult.paragraphs doc))
    (by_id Table.id (DocumentAnalysisResult.tables doc))
    (by_id Image.id (DocumentAnalysisResult.images doc)) html block
  = Ok html.
Proof.
  unfold Aux.dangling, block_to_html.
  intros [(H1 & H2 & H3)|[[H1 H]|[[H1 H]|[H1 H]]]].
  - rewrite !bool_decide_eq_false_2 by assumption. reflexivity.
  - rewrite bool_decide_eq_true_2 by exact H1.
    rewrite (proj2 (by_id_None Paragraph.id _ _) H). reflexivity.
  - rewrite H1. simpl.
    rewrite (proj2 (by_id_None Table.id _ _) H). reflexivity.
  - rewrite H1. simpl.
    destruct (by_id Image.id _ !! _) as [img|] eqn:Himg; [|reflexivity].
    apply (by_id_Some Image.id) in Himg as [Hin Hid].
    rewrite Forall_forall in H. destruct (H img Hin Hid) as [-> | ->];
      reflexivity.
Qed.

End ConvertClaims.

Section ConvertEdges.
Import HtmlConverter ResultAssembler.

(** X6.  A block that refers to nothing is skipped without an error and
    leaves no trace: a block of an unknown type, a block whose id is in no
    collection, an image block whose image has no data.  The output is the
    one of the document without that block. *)
Theorem convert_skips_dangling (doc : DocumentAnalysisResult.t)
    (before after : list ContentBlock.t) (block : ContentBlock.t) :
  Aux.dangling doc block →
  convert (Aux.with_blocks doc (before ++ block :: after))
  = convert (Aux.with_blocks doc (before ++ after)).
Proof.
  intros Hd. unfold convert. simpl.
  rewrite !for_each_app. destruct (for_each _ _ before) as [html|e]; simpl;
    [|reflexivity].
  rewrite (dangling_block doc block html Hd). reflexivity.
Qed.

Lemma convert_skips_dangling_witness :
  convert
    (Aux.with_blocks
       (Aux.with_paragraphs
          {| DocumentAnalysisResult.model_used := "pymupdf";
             DocumentAnalysisResult.pages := 1;
             DocumentAnalysisResult.paragraphs := [];
             DocumentAnalysisResult.tables := [];
             DocumentAnalysisResult.images := [];
             DocumentAnalysisResult.full_text := EmptyString;
             DocumentAnalysisResult.content_blocks := [] |}
          [Examples.para_0])
       ([ContentBlock.mk "paragraph" 1 0 "para-0"]
        ++ ContentBlock.mk "figure" 1 5 "fig-0" :: []))
  = Ok (Aux.html_open +:+ "<p>Text</p>" +:+ Aux.html_close).
Proof.
  rewrite convert_skips_dangling; [vm_compute; reflexivity|].
  left. repeat split; discriminate.
Defined.

Lemma convert_error_inv (doc : DocumentAnalysisResult.t) (e : exn) :
  convert doc = Raise e →
  e = KeyError "content" ∧
  ∃ para, para ∈ DocumentAnalysisResult.paragraphs doc ∧
          Paragraph.content para = None.
Proof.
  assert (Hloop : ∀ blocks html,
            match for_each
                    (block_to_html
                       (by_id Paragraph.id
                              (DocumentAnalysisResult.paragraphs doc))
                       (by_id Table.id (DocumentAnalysisResult.tables doc))
                       (by_id Image.id (DocumentAnalysisResult.images doc)))
                    html blocks with
            | Ok _ => True
            | Raise e =>
                e = KeyError "content" ∧
                ∃ para, para ∈ DocumentAnalysisResult.paragraphs doc ∧
                        Paragraph.content para = None
            end).
  { induction blocks as [|b blocks IH]; intros html; simpl; [exact I|].
    destruct (block_to_html_cases
                (by_id Paragraph.id (DocumentAnalysisResult.paragraphs doc))
                (by_id Table.id (DocumentAnalysisResult.tables doc))
                (by_id Image.id (DocumentAnalysisResult.images doc)) b)
      as [[piece Hb]|[Hb (para & Hpara & Hnone)]]; rewrite Hb; simpl.
    - apply IH.
    - split; [reflexivity|]. exists para. split; [|exact Hnone].
      apply by_id_Some in Hpara. tauto. }
  unfold convert.
  match goal with
  | |- context [for_each ?f ?h ?l] =>
      specialize (Hloop l h); destruct (for_each f h l) as [html|e']
  end; simpl; [discriminate|].
  intros [= <-]. exact Hloop.
Qed.

Lemma convert_total (doc : DocumentAnalysisResult.t) :
  Forall (λ para, is_Some (Paragraph.content para))
         (DocumentAnalysisResult.paragraphs doc) →
  ∃ body, convert doc = Ok (Aux.html_open +:+ body +:+ Aux.html_close).
Proof.
  intros Hall. destruct (convert doc) as [html|e] eqn:Hconv.
  - pose proof (convert_body doc) as Hbody. rewrite Hconv in Hbody.
    destruct (Aux.body_html doc _) as [body|e]; simpl in Hbody;
      [|discriminate Hbody].
    exists body. exact Hbody.
  - destruct (convert_error_inv doc e Hconv) as (_ & para & Hin & Hnone).
    rewrite Forall_forall in Hall. destruct (Hall para Hin) as [c Hc].
    congruence.
Qed.





End ConvertEdges.

(** ** [RoleDetector]: further properties *)

Section RoleDetectorMore.
Import RoleDetector ResultAssembler HtmlConverter.

(** X9.  Raising the font size, or making the text bold, never lowers the
    role of a paragraph: with the same body size and thresholds, no role
    becomes a weaker one (none, then sectionHeading, then title). *)
Theorem classify_single_monotone (size size' : Q) (bold bold' : bool)
    (body_size title_threshold heading_threshold : Q) :
  (size <= size')%Q → (bold = true → bold' = true) →
  (Aux.role_rank (_classify_single size bold body_size title_threshold
                                   heading_threshold)
   ≤ Aux.role_rank (_classify_single size' bold' body_size title_threshold
                                     heading_threshold))%nat.
Proof.
  intros Hsize Hbold. unfold _classify_single, Py.gt.
  rewrite !ge_decide, !lt_decide.
  destruct bold, bold'; try (specialize (Hbold eq_refl); discriminate Hbold);
    repeat case_bool_decide; simpl;
    first [ solve [vm_compute; lia] | exfalso; lra ].
Qed.

Lemma classify_single_monotone_witness :
  (Aux.role_rank (_classify_single 13 false 12 18 14)
   ≤ Aux.role_rank (_classify_single (135 # 10) true 12 18 14))%nat.
Proof.
  apply classify_single_monotone; [vm_compute; discriminate|discriminate].
Defined.

(** X10.  The role strings that the classifier writes are the ones that the
    renderer reads: a title is rendered as [h1], a section heading as
    [h2], and a paragraph with no role as [p]; the classifier assigns
    nothing else. *)
Theorem classified_role_tag (font_size : Q) (is_bold : bool)
    (body_size title_threshold heading_threshold : Q) :
  let role := _classify_single font_size is_bold body_size title_threshold
                               heading_threshold in
  (role = Some "title" ∧ _get_role_tag role = "h1") ∨
  (role = Some "sectionHeading" ∧ _get_role_tag role = "h2") ∨
  (role = None ∧ _get_role_tag role = "p").
Proof.
  unfold _classify_single.
  repeat match goal with
         | |- context [if ?b then _ else _] => destruct b
         end; simpl; tauto.
Qed.

Lemma overlaps_loop_set_role (para : Paragraph.t) (role : option string)
    (p_bbox : BoundingBox.t) (tables : list Table.t) :
  overlaps_loop (set_role para role) p_bbox tables
  = overlaps_loop para p_bbox tables.
Proof.
  induction tables as [|t rest IH]; simpl; [reflexivity|].
  rewrite IH. reflexivity.
Qed.

Lemma _overlaps_any_table_set_role (para : Paragraph.t)
    (role : option string) (tables : list Table.t) :
  _overlaps_any_table (set_role para role) tables
  = _overlaps_any_table para tables.
Proof.
  unfold _overlaps_any_table. simpl.
  destruct (Paragraph.bounding_box para) as [p_bbox|]; [|reflexivity].
  rewrite overlaps_loop_set_role. reflexivity.
Qed.

Lemma filter_loop_set_role (role_of : Paragraph.t → option string)
    (tables : list Table.t) (paragraphs : list Paragraph.t) :
  ∀ acc,
  for_each
    (λ filtered para,
       b ← _overlaps_any_table para tables;
       Ok (if negb b then filtered ++ [para] else filtered))
    (map (λ p, set_role p (role_of p)) acc)
    (map (λ p, set_role p (role_of p)) paragraphs)
  = for_each
      (λ filtered para,
         b ← _overlaps_any_table para tables;
         Ok (if negb b then filtered ++ [para] else filtered))
      acc paragraphs
      ≫= λ filtered, Ok (map (λ p, set_role p (role_of p)) filtered).
Proof.
  induction paragraphs as [|p ps IH]; simpl; intros acc; [reflexivity|].
  rewrite _overlaps_any_table_set_role.
  destruct (_overlaps_any_table p tables) as [b|e]; simpl; [|reflexivity].
  destruct b; simpl; [apply IH|].
  rewrite <- (IH (acc ++ [p])), map_app. reflexivity.
Qed.

Lemma contents_loop_set_role (role_of : Paragraph.t → option string)
    (paragraphs : list Paragraph.t) :
  ∀ acc,
  for_each
    (λ acc p, c ← getitem "content" (Paragraph.content p); Ok (acc ++ [c]))
    acc (map (λ p, set_role p (role_of p)) paragraphs)
  = for_each
      (λ acc p, c ← getitem "content" (Paragraph.content p); Ok (acc ++ [c]))
      acc paragraphs.
Proof.
  induction paragraphs as [|p ps IH]; simpl; intros acc; [reflexivity|].
  destruct (getitem "content" (Paragraph.content p)); simpl;
    [apply IH|reflexivity].
Qed.

(** X11.  Classifying first and assembling afterwards, as the extraction
    backend does, gives the document assembled from the unclassified
    paragraphs with the roles written into its paragraphs: the roles play
    no part in the overlap filter, the content blocks or the full text,
    and an exception of [assemble] is the same with or without them. *)
Theorem classify_then_assemble (paragraphs : list Paragraph.t)
    (tables : list Table.t) (images : option (list Image.t))
    (pages : Z) (title_threshold heading_threshold : Q) :
  let body_size := _detect_body_font_size paragraphs in
  let with_role para :=
    set_role para
      (_classify_single (font_size para) (font_bold para) body_size
                        title_threshold heading_threshold) in
  assemble (classify paragraphs title_threshold heading_threshold) tables
           images pages
  = assemble paragraphs tables images pages
      ≫= λ doc,
         Ok (Aux.with_paragraphs
               doc (map with_role (DocumentAnalysisResult.paragraphs doc))).
Proof.
  intros body_size with_role.
  destruct paragraphs as [|p0 ps].
  { destruct tables; reflexivity. }
  assert (Hc : classify (p0 :: ps) title_threshold heading_threshold
               = map with_role (p0 :: ps)) by reflexivity.
  rewrite Hc. clear Hc.
  set (role_of := λ para, _classify_single (font_size para) (font_bold para)
                            body_size title_threshold heading_threshold).
  change with_role with (λ p, set_role p (role_of p)).
  clearbody role_of. clear with_role body_size.
  generalize (p0 :: ps) as l. clear p0 ps. intros l.
  unfold assemble.
  assert (Hf : _filter_table_overlaps (map (λ p, set_role p (role_of p)) l)
                                      tables
               = _filter_table_overlaps l tables
                   ≫= λ filtered,
                      Ok (map (λ p, set_role p (role_of p)) filtered)).
  { unfold _filter_table_overlaps. destruct tables as [|t ts]; [reflexivity|].
    apply (filter_loop_set_role role_of (t :: ts) l []). }
  rewrite Hf.
  destruct (_filter_table_overlaps l tables) as [filtered|e]; simpl;
    [|reflexivity].
  rewrite (contents_loop_set_role role_of filtered []).
  destruct (for_each _ [] filtered) as [contents|e]; simpl; [|reflexivity].
  unfold Aux.with_paragraphs. simpl. f_equal. f_equal.
  rewrite !append_blocks_spec, !map_map. reflexivity.
Qed.




End RoleDetectorMore.

(** ** [PageFilter]: further properties *)

Section PageFilterMore.
Import PageFilter.

Lemma parse_page_range_Ok_inv (page_range : string) (pages : list Z) :
  parse_page_range page_range = Ok pages →
  StronglySorted Z.lt pages ∧ NoDup pages ∧
  ∀ n, n ∈ pages ↔
       ∃ part, part ∈ split "," page_range ∧ Spec.denotes part n.
Proof.
  unfold parse_page_range.
  pose proof (parse_loop_spec (split "," page_range) ∅) as Hloop.
  destruct (for_each parse_part ∅ (split "," page_range)) as [set|e]; simpl;
    [|discriminate].
  destruct Hloop as [_ Hset]. intros [= <-].
  assert (Hnd : NoDup (Py.sort id Z.ltb (elements set))).
  { rewrite sort_Permutation. apply NoDup_elements. }
  split; [|split; [exact Hnd|]].
  - apply StronglySorted_strict; [|exact Hnd].
    apply sort_StronglySorted.
    + intros a b. rewrite Z.ltb_lt, Z.ltb_ge. lia.
    + intros a b c. rewrite !Z.ltb_ge. lia.
  - intros n. rewrite sort_Permutation, elem_of_elements, Hset.
    split; [intros [Hn|Hn]|intros Hn; right; exact Hn]; [|exact Hn].
    apply elem_of_empty in Hn. contradiction.
Qed.

(** X13.  The parsed list depends only on the pages that the components
    denote: neither the order of the components, nor a page given twice,
    nor blanks around a component change it. *)
Theorem parse_page_range_same_pages (range1 range2 : string)
    (pages1 pages2 : list Z) :
  parse_page_range range1 = Ok pages1 →
  parse_page_range range2 = Ok pages2 →
  (∀ n, (∃ part, part ∈ split "," range1 ∧ Spec.denotes part n) ↔
        (∃ part, part ∈ split "," range2 ∧ Spec.denotes part n)) →
  pages1 = pages2.
Proof.
  intros H1 H2 Hsame.
  apply parse_page_range_Ok_inv in H1 as (Hs1 & Hnd1 & Hm1).
  apply parse_page_range_Ok_inv in H2 as (Hs2 & Hnd2 & Hm2).
  apply (StronglySorted_unique_strong Z.lt); [|exact Hs1|exact Hs2|].
  - intros x y _ _ Hxy Hyx. lia.
  - apply NoDup_Permutation; [exact Hnd1|exact Hnd2|].
    intros n. rewrite Hm1, Hm2. apply Hsame.
Qed.

Lemma parse_page_range_same_pages_witness :
  parse_page_range "1,3,5-7" = parse_page_range " 6-7, 5 ,3,1,3".
Proof.
  assert (H1 : parse_page_range "1,3,5-7" = Ok [1; 3; 5; 6; 7]%Z)
    by (vm_compute; reflexivity).
  destruct (parse_page_range " 6-7, 5 ,3,1,3") as [pages2|e] eqn:H2;
    [|vm_compute in H2; discriminate H2].
  rewrite H1. f_equal.
  apply (parse_page_range_same_pages "1,3,5-7" " 6-7, 5 ,3,1,3");
    [exact H1|exact H2|].
  intros n.
  destruct (parse_page_range_Ok_inv _ _ H1) as (_ & _ & <-).
  destruct (parse_page_range_Ok_inv _ _ H2) as (_ & _ & <-).
  vm_compute in H2. injection H2 as <-. reflexivity.
Defined.

(** X14.  A string with an empty or blank component (the empty string, a
    leading, trailing or doubled comma) is rejected with a
    [ValueError]. *)
Theorem parse_page_range_blank_component (page_range : string) :
  (∃ part, part ∈ split "," page_range ∧ strip part = EmptyString) →
  ∃ e, parse_page_range page_range = Raise e ∧ is_ValueError e = true.
Proof.
  intros (part & Hin & Hblank). unfold parse_page_range.
  pose proof (parse_loop_spec (split "," page_range) ∅) as Hloop.
  destruct (for_each parse_part ∅ (split "," page_range)) as [set|e]; simpl.
  - destruct Hloop as [Hall _]. rewrite Forall_forall in Hall.
    contradiction (Hall part Hin).
    unfold Spec.malformed. rewrite Hblank. simpl. eexists. reflexivity.
  - exists e. split; [reflexivity|apply Hloop].
Qed.

Lemma parse_page_range_blank_component_witness :
  ∃ e, parse_page_range "1,,2" = Raise e ∧ is_ValueError e = true.
Proof.
  apply parse_page_range_blank_component. exists EmptyString.
  split; [vm_compute; right; left|reflexivity].
Defined.

End PageFilterMore.

(** ** [int] and [str] *)

Section IntStr.
Import PageFilter.









End IntStr.

(** ** [config.py]: the cached configuration *)

Section ConfigFacts.
Import Config.

(** X16.  Once [get_config] has loaded the configuration it keeps
    returning that same object whatever the environment has become; only
    [reload_config] reads the environment again.  A load that fails leaves
    the global as it was, so the next [get_config] tries again. *)
Theorem get_config_cached (float : string → result Q)
    (environ environ' : gmap string string) (_config : option Config.t) :
  (∀ config global,
     get_config float environ _config = (Ok config, global) →
     global = Some config ∧
     get_config float environ' global = (Ok config, global) ∧
     reload_config float environ' global
     = match load float environ' with
       | Ok config' => (Ok config', Some config')
       | Raise e => (Raise e, global)
       end) ∧
  (∀ e global,
     get_config float environ _config = (Raise e, global) →
     _config = None ∧ global = None ∧ load float environ = Raise e).
Proof.
  unfold get_config, reload_config. split.
  - intros config global H. destruct _config as [c|].
    + injection H as <- <-. repeat split.
    + destruct (load float environ) as [c|e]; [|discriminate H].
      injection H as <- <-. repeat split.
  - intros e global H. destruct _config as [c|]; [discriminate H|].
    destruct (load float environ) as [c|e']; [discriminate H|].
    injection H as <- <-. repeat split.
Qed.

Lemma get_config_cached_witness :
  ∃ config,
    get_config Aux.float_of_int_literal ∅ None = (Ok config, Some config) ∧
    get_config Aux.float_of_int_literal {[ "HTTP_PORT" := "9000" ]}
               (Some config)
    = (Ok config, Some config) ∧
    Config.port (Config.server config) = 8089%Z.
Proof.
  destruct (get_config Aux.float_of_int_literal ∅ None)
    as [[config|e] global] eqn:H; [|vm_compute in H; discriminate H].
  destruct (get_config_cached Aux.float_of_int_literal ∅
                              {[ "HTTP_PORT" := "9000" ]} None)
    as [Hok _].
  destruct (Hok config global H) as (-> & Hagain & _).
  exists config. split; [reflexivity|]. split; [exact Hagain|].
  vm_compute in H. injection H as <-. reflexivity.
Defined.

End ConfigFacts.

(** ** [TextLayerDetectionBackend.process] *)

Section TextLayerFacts.
Import TextLayerDetectionBackend.

Lemma supports_iff (operation : string) :
  supports operation = true ↔ operation = "detect_text_layer".
Proof.
  unfold supports, SUPPORTED_OPERATIONS.
  rewrite bool_decide_eq_true, list_elem_of_singleton. reflexivity.
Qed.

Lemma process_Ok_inv (config : Config.t) (doc : option (list string))
    (operation : string) (options : gmap string string)
    (out : Result * string * Metadata) :
  process config doc operation options = Ok out →
  operation = "detect_text_layer" ∧
  ∃ threshold texts,
    Aux.threshold_of config options = Ok threshold ∧ doc = Some texts ∧
    out = ({| total_pages := Z.of_nat (length texts);
              pages :=
                imap (λ page_num text,
                        {| page := Z.of_nat page_num + 1;
                           has_text_layer :=
                             (threshold
                              <=? Z.of_nat
                                    (String.length (PageFilter.strip text)))%Z;
                           char_count :=
                             Z.of_nat
                               (String.length (PageFilter.strip text)) |})
                     texts |},
           "json",
           {| md_total_pages := pretty (Z.of_nat (length texts));
              md_pages_with_text :=
                pretty
                  (Z.of_nat
                     (length
                        (filter
                           (λ p, has_text_layer p = true)
                           (imap (λ page_num text,
                                    {| page := Z.of_nat page_num + 1;
                                       has_text_layer :=
                                         (threshold
                                          <=? Z.of_nat
                                                (String.length
                                                   (PageFilter.strip text)))%Z;
                                       char_count :=
                                         Z.of_nat
                                           (String.length
                                              (PageFilter.strip text)) |})
                                 texts))));
              md_threshold := pretty threshold |}).
Proof.
  unfold process, Aux.threshold_of.
  destruct (supports operation) eqn:Hs; simpl; [|discriminate].
  apply supports_iff in Hs. intros H. split; [exact Hs|].
  destruct (PageFilter.int _) as [threshold|e]; simpl in H; [|discriminate H].
  destruct doc as [texts|]; [|discriminate H].
  injection H as <-. exists threshold, texts.
  rewrite !length_imap. repeat split.
Qed.

End TextLayerFacts.

Section TextLayerClaims.
Import TextLayerDetectionBackend.



(** X18.  Raising the threshold can only clear flags: a page flagged under
    the higher threshold is flagged under the lower one, with the same
    page number and character count; and under a threshold of zero or less
    every page is flagged, an empty one too. *)
Theorem detect_text_layer_monotone (config : Config.t) (texts : list string)
    (operation : string) (options1 options2 : gmap string string)
    (r1 r2 : Result) (fmt1 fmt2 : string) (md1 md2 : Metadata)
    (threshold1 threshold2 : Z) :
  process config (Some texts) operation options1 = Ok (r1, fmt1, md1) →
  process config (Some texts) operation options2 = Ok (r2, fmt2, md2) →
  Aux.threshold_of config options1 = Ok threshold1 →
  Aux.threshold_of config options2 = Ok threshold2 →
  (threshold1 ≤ threshold2)%Z →
  Forall2 (λ p1 p2, page p1 = page p2 ∧ char_count p1 = char_count p2 ∧
                    (has_text_layer p2 = true → has_text_layer p1 = true))
          (pages r1) (pages r2) ∧
  ((threshold1 ≤ 0)%Z →
   Forall (λ p, has_text_layer p = true) (pages r1)).
Proof.
  intros H1 H2 Ht1 Ht2 Hle.
  apply process_Ok_inv in H1 as (_ & t1 & texts1 & Ht1' & Hd1 & H1).
  apply process_Ok_inv in H2 as (_ & t2 & texts2 & Ht2' & Hd2 & H2).
  injection Hd1 as <-. injection Hd2 as <-.
  rewrite Ht1 in Ht1'. rewrite Ht2 in Ht2'.
  injection Ht1' as <-. injection Ht2' as <-.
  injection H1 as -> _ _. injection H2 as -> _ _. simpl. split.
  - apply Forall2_same_length_lookup. split; [rewrite !length_imap; reflexivity|].
    intros i p1 p2. rewrite !list_lookup_imap.
    destruct (texts !! i) as [text|]; simpl; [|discriminate].
    intros [= <-] [= <-]. simpl. repeat split.
    rewrite !Z.leb_le. lia.
  - intros H0. apply Forall_forall. intros p Hp.
    apply elem_of_lookup_imap in Hp as (i & text & -> & _). simpl.
    apply Z.leb_le. lia.
Qed.

Lemma detect_text_layer_monotone_witness :
  ∃ r1 fmt1 md1,
    process (Config.mk (Config.mkExtraction 18 14 5 100)
                       (Config.mkServer "0.0.0.0" 8089))
            (Some ["  Hello world  "; "   "; "abc"]) "detect_text_layer"
            {[ "char_threshold" := "0" ]}
    = Ok (r1, fmt1, md1) ∧
    Forall (λ p, has_text_layer p = true) (pages r1).
Proof.
  destruct (process (Config.mk (Config.mkExtraction 18 14 5 100)
                               (Config.mkServer "0.0.0.0" 8089))
                    (Some ["  Hello world  "; "   "; "abc"])
                    "detect_text_layer" {[ "char_threshold" := "0" ]})
    as [[[r1 fmt1] md1]|e] eqn:H1; [|vm_compute in H1; discriminate H1].
  destruct (process (Config.mk (Config.mkExtraction 18 14 5 100)
                               (Config.mkServer "0.0.0.0" 8089))
                    (Some ["  Hello world  "; "   "; "abc"])
                    "detect_text_layer" {[ "char_threshold" := "4" ]})
    as [[[r2 fmt2] md2]|e] eqn:H2; [|vm_compute in H2; discriminate H2].
  exists r1, fmt1, md1. split; [reflexivity|].
  refine (proj2 (detect_text_layer_monotone _ _ _ _ _ _ _ _ _ _ _ 0 4
                   H1 H2 _ _ _) _).
  - vm_compute; reflexivity.
  - vm_compute; reflexivity.
  - lia.
  - lia.
Defined.



End TextLayerClaims.

(** ** [service.py], [http_server.py]: the choice of a backend *)

Section ServiceFacts.
Import Service.

Lemma ltb_compare (a b : string) :
  String.ltb a b = true ↔ OrderedTypeEx.String_as_OT.lt a b.
Proof.
  rewrite <- OrderedTypeEx.String_as_OT.cmp_lt. unfold String.ltb.
  change (OrderedTypeEx.String_as_OT.cmp a b) with (String.compare a b).
  destruct (String.compare a b); split; congruence.
Qed.

Lemma ltb_total (a b : string) :
  String.ltb a b = false → a ≠ b → String.ltb b a = true.
Proof.
  unfold String.ltb. rewrite (String.compare_antisym a b).
  destruct (String.compare b a) eqn:E; simpl; try congruence.
  intros _ Hne. apply String.compare_eq_iff in E. congruence.
Qed.

Lemma ltb_asym (a b : string) :
  String.ltb a b = true → String.ltb b a = false.
Proof.
  unfold String.ltb. rewrite (String.compare_antisym a b).
  destruct (String.compare b a); simpl; congruence.
Qed.

Lemma ltb_not_lt_trans (a b c : string) :
  String.ltb b a = false → String.ltb c b = false → String.ltb c a = false.
Proof.
  intros Hba Hcb. apply not_true_iff_false. intros Hca.
  destruct (decide (a = b)) as [->|Hab]; [congruence|].
  destruct (decide (b = c)) as [->|Hbc]; [congruence|].
  apply ltb_total in Hba; [|congruence]. apply ltb_total in Hcb; [|congruence].
  apply ltb_compare in Hba, Hcb, Hca.
  pose proof (OrderedTypeEx.String_as_OT.lt_trans _ _ _ Hca
                (OrderedTypeEx.String_as_OT.lt_trans _ _ _ Hba Hcb)) as Hcc.
  exact (OrderedTypeEx.String_as_OT.lt_not_eq _ _ Hcc eq_refl).
Qed.

Lemma supports_elem (backend : Backend) (operation : string) :
  supports backend operation = true
  ↔ operation ∈ SUPPORTED_OPERATIONS backend.
Proof. unfold supports. apply bool_decide_eq_true. Qed.

Lemma supported_ops_union (backends : list Backend) (ops : gset string)
    (operation : string) :
  operation ∈ foldl (λ ops backend,
                       ops ∪ list_to_set (SUPPORTED_OPERATIONS backend))
                    ops backends
  ↔ operation ∈ ops
    ∨ ∃ backend, backend ∈ backends
                 ∧ operation ∈ SUPPORTED_OPERATIONS backend.
Proof.
  revert ops. induction backends as [|b backends IH]; intros ops; simpl.
  - split; [auto|]. intros [H|(b & Hb & _)]; [exact H|]. inversion Hb.
  - rewrite IH, elem_of_union, elem_of_list_to_set. split.
    + intros [[H|H]|(b' & Hb' & H)]; [auto| |].
      * right. exists b. split; [left|exact H].
      * right. exists b'. split; [right; exact Hb'|exact H].
    + intros [H|(b' & Hb' & H)]; [auto|].
      apply elem_of_cons in Hb' as [->|Hb']; [auto|].
      right. exists b'. auto.
Qed.

Lemma supported_operations_elem (backends : list Backend)
    (operation : string) :
  operation ∈ supported_operations backends
  ↔ ∃ backend, backend ∈ backends
               ∧ operation ∈ SUPPORTED_OPERATIONS backend.
Proof.
  unfold supported_operations.
  rewrite (sort_Permutation id String.ltb), elem_of_elements,
    supported_ops_union.
  split; [intros [H|H]; [set_solver|exact H]|auto].
Qed.

Lemma _find_backend_first (backends : list Backend) (operation : string) :
  match _find_backend backends operation with
  | Some backend =>
      ∃ i, backends !! i = Some backend
           ∧ supports backend operation = true
           ∧ (∀ j other, (j < i)%nat → backends !! j = Some other →
                         supports other operation = false)
           ∧ SupportsOperation backends operation
             = (true, "Supported by " +:+ class_name backend)
  | None =>
      Forall (λ backend, supports backend operation = false) backends
      ∧ SupportsOperation backends operation
        = (false, "Operation '" +:+ operation +:+ "' is not supported")
  end.
Proof.
  induction backends as [|b backends IH]; simpl.
  - split; [constructor|reflexivity].
  - destruct (supports b operation) eqn:Hb.
    + exists 0%nat. split_and!; [reflexivity|exact Hb| |reflexivity].
      intros j other Hj. lia.
    + destruct (_find_backend backends operation) as [backend|].
      * destruct IH as (i & Hi & Hs & Hfirst & Hmsg).
        exists (S i). split_and!; [exact Hi|exact Hs| |exact Hmsg].
        intros [|j] other Hj Hother.
        -- injection Hother as <-. exact Hb.
        -- eapply (Hfirst j); [lia|exact Hother].
      * destruct IH as [Hall Hmsg]. split; [|exact Hmsg].
        constructor; [exact Hb|exact Hall].
Qed.

(** X20.  The service and the HTTP server pick the first registered
    backend that supports the operation, and [SupportsOperation] names
    that backend; an operation has a backend exactly when
    [SupportsOperation] answers [supported] and exactly when it is listed
    by the health check, whose list is in strictly increasing order, so
    without duplicates. *)
Theorem service_backend_choice (backends : list Backend)
    (operation : string) :
  (∀ backend, _find_backend backends operation = Some backend →
     ∃ i, backends !! i = Some backend
          ∧ supports backend operation = true
          ∧ (∀ j other, (j < i)%nat → backends !! j = Some other →
                        supports other operation = false)
          ∧ SupportsOperation backends operation
            = (true, "Supported by " +:+ class_name backend)) ∧
  (_find_backend backends operation = None →
     SupportsOperation backends operation
     = (false, "Operation '" +:+ operation +:+ "' is not supported")) ∧
  (is_Some (_find_backend backends operation)
   ↔ (SupportsOperation backends operation).1 = true) ∧
  (is_Some (_find_backend backends operation)
   ↔ operation ∈ supported_operations backends) ∧
  StronglySorted (λ a b, String.ltb a b = true)
                 (supported_operations backends).
Proof.
  pose proof (_find_backend_first backends operation) as H.
  split_and!.
  - intros backend Hb. rewrite Hb in H. exact H.
  - intros Hb. rewrite Hb in H. apply H.
  - destruct (_find_backend backends operation) as [backend|].
    + destruct H as (i & _ & _ & _ & ->). split; [reflexivity|eauto].
    + destruct H as [_ ->]. split; [intros [b Hb]|]; discriminate.
  - rewrite supported_operations_elem.
    destruct (_find_backend backends operation) as [backend|].
    + destruct H as (i & Hi & Hs & _). split; [intros _|eauto].
      exists backend. split; [eapply list_elem_of_lookup_2, Hi|].
      apply supports_elem, Hs.
    + destruct H as [Hall _]. split; [intros [b Hb]; discriminate|].
      intros (backend & Hb & Hop). rewrite Forall_forall in Hall.
      apply supports_elem in Hop. rewrite (Hall _ Hb) in Hop. discriminate.
  - unfold supported_operations.
    set (ops := elements _).
    assert (Hnd : NoDup (Py.sort id String.ltb ops)).
    { rewrite (sort_Permutation id String.ltb). apply NoDup_elements. }
    pose proof (sort_StronglySorted id String.ltb ltb_asym
                  (λ a b c, ltb_not_lt_trans a b c) ops) as Hs.
    induction Hs as [|a l Hs IH Ha]; [constructor|].
    apply NoDup_cons in Hnd as [Hnotin Hnd].
    constructor; [apply IH, Hnd|].
    rewrite Forall_forall in Ha |- *. intros b Hb.
    apply ltb_total; [apply Ha, Hb|]. intros ->. contradiction.
Qed.

Lemma service_backend_choice_witness :
  _find_backend backends "detect_text_layer"
  = Some (mkBackend "TextLayerDetectionBackend" ["detect_text_layer"]) ∧
  SupportsOperation backends "detect_text_layer"
  = (true, "Supported by TextLayerDetectionBackend") ∧
  supported_operations backends = ["detect_text_layer"; "extract"].
Proof.
  destruct (service_backend_choice backends "detect_text_layer")
    as (Hfound & _).
  destruct (Hfound (mkBackend "TextLayerDetectionBackend"
                              ["detect_text_layer"]) eq_refl)
    as (i & _ & _ & _ & Hmsg).
  split; [reflexivity|]. split; [exact Hmsg|]. vm_compute. reflexivity.
Defined.

End ServiceFacts.

(** ** [text_extraction.py]: paragraphs, tables and images of a page *)

Section StripFacts.
Import PageFilter.

Lemma lstrip_head (s : string) (c : ascii) (r : string) :
  lstrip s = String c r → is_space c = false.
Proof.
  induction s as [|c' s IH]; simpl; [discriminate|].
  destruct (is_space c') eqn:Hc; [exact IH|].
  intros [= <- <-]. exact Hc.
Qed.

Lemma rstrip_head (c : ascii) (s : string) :
  is_space c = false → ∃ r, rstrip (String c s) = String c r.
Proof.
  intros Hc. simpl. rewrite Hc. destruct (rstrip s); eauto.
Qed.

Lemma rstrip_idem (s : string) : rstrip (rstrip s) = rstrip s.
Proof.
  induction s as [|c s IH]; [reflexivity|]. simpl.
  destruct (rstrip s) as [|c' r] eqn:Hr.
  - destruct (is_space c) eqn:Hc; [reflexivity|]. simpl. rewrite Hc.
    reflexivity.
  - change (rstrip (String c (String c' r))) with
      (match rstrip (String c' r) with
       | EmptyString =>
           if is_space c then EmptyString else String c EmptyString
       | r' => String c r'
       end).
    rewrite IH. reflexivity.
Qed.

Lemma strip_idem (s : string) : strip (strip s) = strip s.
Proof.
  unfold strip. destruct (lstrip s) as [|c r] eqn:Hl; [reflexivity|].
  apply lstrip_head in Hl.
  destruct (rstrip_head c r Hl) as [r' Hr]. rewrite Hr.
  change (lstrip (String c r')) with
    (if is_space c then lstrip r' else String c r').
  rewrite Hl, <- Hr. apply rstrip_idem.
Qed.

End StripFacts.

Section ExtractFacts.
Import TextExtractionBackend.
Context (set_iter : list string → list string).
Context (Hset : ∀ l x, x ∈ set_iter l ↔ x ∈ l).

Lemma max_by_key_spec {A} (key : A → nat) (others : list A) :
  ∀ first,
    max_by_key key first others ∈ first :: others ∧
    ∀ y, y ∈ first :: others →
         (key y ≤ key (max_by_key key first others))%nat.
Proof.
  unfold max_by_key.
  induction others as [|x others IH]; intros first; simpl.
  - split; [left|]. intros y Hy. apply list_elem_of_singleton in Hy as ->.
    lia.
  - destruct (IH (if (key first <? key x)%nat then x else first))
      as [Hin Hmax].
    split.
    + apply elem_of_cons in Hin as [Hin|Hin]; [|right; right; exact Hin].
      rewrite Hin. destruct (key first <? key x)%nat;
        [right; left|left].
    + intros y Hy.
      assert (Hbest : (key first
                       ≤ key (if (key first <? key x)%nat then x else first)
                       ∧ key x
                         ≤ key (if (key first <? key x)%nat
                                then x else first))%nat).
      { destruct (Nat.ltb_spec (key first) (key x)); lia. }
      pose proof (Hmax _ (list_elem_of_here _ _)) as Hb.
      apply elem_of_cons in Hy as [->|Hy]; [lia|].
      apply elem_of_cons in Hy as [->|Hy]; [lia|].
      apply Hmax. right. exact Hy.
Qed.

Lemma primary_font_spec (font_names : list string) :
  ∃ name, primary_font set_iter font_names = Ok name ∧
          (font_names = [] → name = EmptyString) ∧
          (font_names ≠ [] → name ∈ font_names) ∧
          ∀ other, (count font_names other ≤ count font_names name)%nat.
Proof.
  unfold primary_font. destruct font_names as [|n ns] eqn:Hnames.
  - exists EmptyString. split_and!; [reflexivity|reflexivity|congruence|].
    intros other. reflexivity.
  - rewrite <- Hnames.
    destruct (set_iter font_names) as [|first others] eqn:Hiter.
    + assert (Hn : n ∈ set_iter font_names).
      { apply Hset. rewrite Hnames. left. }
      rewrite Hiter in Hn. inversion Hn.
    + destruct (max_by_key_spec (count font_names) others first)
        as [Hin Hmax].
      eexists. split; [reflexivity|].
      split_and!; [congruence|intros _; apply Hset; rewrite Hiter; exact Hin|].
      intros other. destruct (decide (other ∈ font_names)) as [Ho|Ho].
      * apply Hmax. rewrite <- Hiter. apply Hset, Ho.
      * assert (H0 : count font_names other = 0%nat); [|lia].
        unfold count.
        destruct (filter (λ y, y = other) font_names) as [|z zs] eqn:Hf;
          [reflexivity|].
        assert (Hz : z ∈ filter (λ y, y = other) font_names).
        { rewrite Hf. left. }
        apply list_elem_of_filter in Hz as [-> Hz]. contradiction.
Qed.

Lemma block_step_cases (page_num : Z) (paragraphs : list Paragraph.t)
    (counter : Z) (block : Engine.Block) :
  block_step set_iter page_num (paragraphs, counter) block
  = Ok (paragraphs, counter) ∨
  ∃ p, block_step set_iter page_num (paragraphs, counter) block
       = Ok (paragraphs ++ [p], (counter + 1)%Z)
       ∧ Aux.extracted_from page_num counter block p.
Proof.
  unfold block_step.
  destruct (bool_decide (Engine.type block = Some 0%Z)) eqn:Htype; simpl;
    [|left; reflexivity].
  apply bool_decide_eq_true in Htype.
  destruct (foldl line_step _ _) as [block_text_parts st].
  destruct (PageFilter.strip (String.concat newline block_text_parts))
    as [|c content] eqn:Hcontent; [left; reflexivity|].
  destruct (primary_font_spec (font_names st)) as (name & -> & _).
  right. eexists. split; [reflexivity|].
  unfold Aux.extracted_from; simpl.
  split_and!; try reflexivity; [exact Htype| |eauto].
  exists (String c content). split_and!; [reflexivity|discriminate|].
  rewrite <- Hcontent. apply strip_idem.
Qed.

Lemma blocks_loop_spec (page_num : Z) (blocks : list Engine.Block) :
  ∀ (acc : list Paragraph.t) (counter : Z),
  ∃ paragraphs used,
    for_each (block_step set_iter page_num) (acc, counter) blocks
    = Ok (acc ++ paragraphs, (counter + Z.of_nat (length paragraphs))%Z) ∧
    sublist used blocks ∧
    Forall2 (λ '(i, block) p,
               Aux.extracted_from page_num (counter + Z.of_nat i)%Z block p)
            (imap pair used) paragraphs.
Proof.
  induction blocks as [|block blocks IH]; intros acc counter.
  - exists [], []. simpl. rewrite app_nil_r, Z.add_0_r.
    split_and!; [reflexivity|constructor|constructor].
  - cbn [for_each].
    destruct (block_step_cases page_num acc counter block)
      as [->|(p & -> & Hp)]; cbn [mbind result_bind].
    + destruct (IH acc counter) as (paragraphs & used & -> & Hsub & Hall).
      exists paragraphs, used.
      split_and!; [reflexivity|apply sublist_cons, Hsub|exact Hall].
    + destruct (IH (acc ++ [p]) (counter + 1)%Z)
        as (paragraphs & used & -> & Hsub & Hall).
      exists (p :: paragraphs), (block :: used). split_and!.
      * rewrite <- app_assoc. simpl. do 2 f_equal. lia.
      * apply sublist_skip, Hsub.
      * simpl. constructor; [rewrite Z.add_0_r; exact Hp|].
        rewrite Forall2_lookup in Hall |- *. intros i.
        specialize (Hall i). rewrite !list_lookup_imap in Hall |- *.
        destruct (used !! i) as [b|]; simpl in *;
          inversion Hall as [x y Hxy|]; subst; constructor.
        replace (counter + Z.of_nat (S i))%Z
          with (counter + 1 + Z.of_nat i)%Z by lia.
        exact Hxy.
Qed.


(** X28.  The font recorded for a paragraph is a font name that occurs
    most often among the spans with text of its block, whichever order the
    set of names is iterated in ([EmptyString] when there is none); for a
    non-empty list of names the [max] over their set never sees an empty
    sequence. *)
Theorem primary_font_most_frequent (font_names : list string) :
  ∃ name, primary_font set_iter font_names = Ok name ∧
          (font_names = [] → name = EmptyString) ∧
          (font_names ≠ [] → name ∈ font_names) ∧
          ∀ other, (count font_names other ≤ count font_names name)%nat.
Proof. exact (primary_font_spec font_names). Qed.

End ExtractFacts.

Lemma set_iter_elem (l : list string) (x : string) :
  x ∈ Samples.set_iter l ↔ x ∈ l.
Proof. unfold Samples.set_iter. apply elem_of_remove_dups. Qed.


Lemma primary_font_most_frequent_witness :
  TextExtractionBackend.primary_font Samples.set_iter
    ["Arial"; "Times"; "Times"; "Arial"; "Times"] = Ok "Times".
Proof.
  destruct (primary_font_most_frequent Samples.set_iter set_iter_elem
              ["Arial"; "Times"; "Times"; "Arial"; "Times"])
    as (name & H & _).
  vm_compute in H. injection H as <-. reflexivity.
Defined.

Section ExtractTablesFacts.
Import TextExtractionBackend.

Lemma table_step_cases (page_num : Z) (tables : list Table.t) (counter : Z)
    (found : Engine.FoundTable) :
  (Engine.extract found = [] ∧
   table_step page_num (tables, counter) found = (tables, (counter + 1)%Z)) ∨
  (Engine.extract found ≠ [] ∧
   ∃ t, table_step page_num (tables, counter) found
        = (tables ++ [t], (counter + 1)%Z)
        ∧ Aux.table_from page_num counter found t).
Proof.
  unfold table_step. destruct (Engine.extract found) as [|row rows] eqn:He.
  - left. split; reflexivity.
  - right. split; [discriminate|]. eexists. split; [reflexivity|].
    unfold Aux.table_from. rewrite He. simpl. split_and!; reflexivity.
Qed.

Lemma tables_loop_spec (page_num : Z) (found_tables : list Engine.FoundTable) :
  ∀ (acc : list Table.t) (counter : Z),
  ∃ tables,
    foldl (table_step page_num) (acc, counter) found_tables
    = (acc ++ tables, (counter + Z.of_nat (length found_tables))%Z) ∧
    Forall2 (λ '(j, found) t,
               Aux.table_from page_num (counter + Z.of_nat j)%Z found t)
            (filter (λ '(_, found), Engine.extract found ≠ [])
                    (imap pair found_tables))
            tables.
Proof.
  induction found_tables as [|found found_tables IH] using rev_ind;
    intros acc counter.
  - exists []. simpl. rewrite app_nil_r, Z.add_0_r. split; constructor.
  - destruct (IH acc counter) as (tables & Hloop & Hall).
    rewrite foldl_snoc, Hloop, imap_app, filter_app, length_app.
    cbn [imap length]. rewrite Nat.add_0_r.
    destruct (table_step_cases page_num (acc ++ tables)
                (counter + Z.of_nat (length found_tables))%Z found)
      as [[He ->]|(He & t & -> & Ht)].
    + exists tables. split; [f_equal; lia|].
      rewrite filter_cons_False by (intros H; apply H, He).
      rewrite app_nil_r. exact Hall.
    + exists (tables ++ [t]). split; [rewrite app_assoc; f_equal; lia|].
      rewrite filter_cons_True by exact He. rewrite filter_nil.
      apply Forall2_app; [exact Hall|]. constructor; [exact Ht|constructor].
Qed.

(** X22.  [_extract_tables] returns no table and the counter unchanged
    when the table finder fails.  Otherwise every table found takes a
    number, the one whose extraction is empty too, which leaves a gap in
    the ids: the tables returned are those with a non-empty extraction, in
    the order found, the j-th table found having the id
    [table-(counter+j)], as many rows as the extraction, as many columns as
    its longest row, and the cells of the extraction. *)
Theorem extract_tables_numbered (page : Engine.Page) (page_num : Z)
    (counter : Z) :
  match Engine.find_tables page with
  | Engine.Raises => _extract_tables page page_num counter = ([], counter)
  | Engine.Returns found_tables =>
      ∃ tables,
        _extract_tables page page_num counter
        = (tables, (counter + Z.of_nat (length found_tables))%Z) ∧
        Forall2 (λ '(j, found) t,
                   Aux.table_from page_num (counter + Z.of_nat j)%Z found t)
                (filter (λ '(_, found), Engine.extract found ≠ [])
                        (imap pair found_tables))
                tables
  end.
Proof.
  unfold _extract_tables.
  destruct (Engine.find_tables page) as [found_tables|]; [|reflexivity].
  apply (tables_loop_spec page_num found_tables [] counter).
Qed.

End ExtractTablesFacts.

Section ExtractedTableHtml.
Import TextExtractionBackend.

Lemma _table_to_html_grid (table : Table.t) :
  HtmlConverter._table_to_html table
  = Spec.table_html (Spec.row_count (get (Table.cells table) [])) table.
Proof.
  unfold HtmlConverter._table_to_html, Spec.table_html.
  rewrite rows_loop_html, group_cells_grid. unfold Spec.grid.
  rewrite <- list_fmap_compose, !string_app_assoc. reflexivity.
Qed.

Lemma build_cells_snoc (extracted : list (list (option string)))
    (row : list (option string)) :
  build_cells (extracted ++ [row])
  = build_cells extracted
    ++ imap (λ col_idx cell_content,
               {| Cell.row_index := length extracted;
                  Cell.column_index := col_idx;
                  Cell.row_span := Some 1%Z;
                  Cell.column_span := Some 1%Z;
                  Cell.content := get cell_content EmptyString;
                  Cell.kind :=
                    Some (if (length extracted =? 0)%nat then "columnHeader"
                          else "content") |})
            row.
Proof.
  unfold build_cells. rewrite imap_app, concat_app. cbn [imap concat].
  rewrite app_nil_r, Nat.add_0_r. reflexivity.
Qed.

Lemma cell_at_row (cells : list Cell.t) (mk : nat → option string → Cell.t)
    (n : nat) (row : list (option string)) (r c : nat) :
  (∀ j x, Cell.row_index (mk j x) = n ∧ Cell.column_index (mk j x) = j) →
  Spec.cell_at (cells ++ imap mk row) r c
  = match (if decide (r = n) then row !! c else None) with
    | Some content => Some (mk c content)
    | None => Spec.cell_at cells r c
    end.
Proof.
  intros Hmk. induction row as [|x row IH] using rev_ind.
  - simpl. rewrite app_nil_r. destruct (decide (r = n)); reflexivity.
  - rewrite imap_app, app_assoc. cbn [imap]. rewrite Nat.add_0_r.
    rewrite cell_at_snoc, IH. destruct (Hmk (length row) x) as [-> ->].
    destruct (decide (r = n)) as [->|Hr].
    + destruct (decide (c = length row)) as [->|Hc].
      * rewrite decide_True by tauto.
        rewrite list_lookup_middle by reflexivity. reflexivity.
      * rewrite decide_False by (intros [_ ?]; congruence).
        destruct (decide (c < length row)%nat).
        -- rewrite lookup_app_l by assumption. reflexivity.
        -- rewrite (lookup_ge_None_2 row) by lia.
           rewrite (lookup_ge_None_2 (row ++ [x]))
             by (rewrite length_app; simpl; lia).
           reflexivity.
    + rewrite decide_False by (intros [? _]; congruence). reflexivity.
Qed.

Lemma row_count_row (cells : list Cell.t) (mk : nat → option string → Cell.t)
    (n : nat) (row : list (option string)) :
  (∀ j x, Cell.row_index (mk j x) = n) →
  Spec.row_count (cells ++ imap mk row)
  = match row with
    | [] => Spec.row_count cells
    | _ => Nat.max (Spec.row_count cells) (S n)
    end.
Proof.
  intros Hmk. induction row as [|x row IH] using rev_ind.
  - simpl. rewrite app_nil_r. reflexivity.
  - rewrite imap_app, app_assoc. cbn [imap].
    rewrite row_count_snoc, IH, Hmk.
    destruct row; simpl; lia.
Qed.

Lemma cell_at_build_cells (extracted : list (list (option string)))
    (r c : nat) :
  Spec.cell_at (build_cells extracted) r c
  = match extracted !! r ≫= (λ row, row !! c) with
    | Some content =>
        Some {| Cell.row_index := r;
                Cell.column_index := c;
                Cell.row_span := Some 1%Z;
                Cell.column_span := Some 1%Z;
                Cell.content := get content EmptyString;
                Cell.kind :=
                  Some (if (r =? 0)%nat then "columnHeader"
                        else "content") |}
    | None => None
    end.
Proof.
  induction extracted as [|row extracted IH] using rev_ind; [reflexivity|].
  rewrite build_cells_snoc.
  rewrite (cell_at_row _ _ (length extracted)) by (intros; split; reflexivity).
  destruct (decide (r = length extracted)) as [->|Hr].
  - rewrite list_lookup_middle by reflexivity. simpl.
    destruct (row !! c); [reflexivity|].
    rewrite IH, lookup_ge_None_2 by lia. reflexivity.
  - rewrite IH. destruct (decide (r < length extracted)%nat).
    + rewrite lookup_app_l by assumption. reflexivity.
    + rewrite (lookup_ge_None_2 extracted) by lia.
      rewrite (lookup_ge_None_2 (extracted ++ [row]))
        by (rewrite length_app; simpl; lia).
      reflexivity.
Qed.

Lemma row_count_build_cells (extracted : list (list (option string))) :
  (Spec.row_count (build_cells extracted) ≤ length extracted)%nat ∧
  ∀ last_row, last extracted = Some last_row → last_row ≠ [] →
              Spec.row_count (build_cells extracted) = length extracted.
Proof.
  induction extracted as [|row extracted [IH _]] using rev_ind.
  - split; [reflexivity|]. intros last_row H. discriminate H.
  - rewrite build_cells_snoc, length_app.
    rewrite (row_count_row _ _ (length extracted)) by reflexivity.
    simpl. split.
    + destruct row; lia.
    + intros last_row. rewrite last_snoc. intros [= <-] Hne.
      destruct row; [congruence|lia].
Qed.

Lemma extracted_row_html_grid (extracted : list (list (option string)))
    (r : nat) (row : list (option string)) :
  extracted !! r = Some row →
  Spec.row_html
    (Spec.grid_row (max_list (length <$> extracted)) (build_cells extracted) r)
  = Aux.extracted_row_html (max_list (length <$> extracted)) r row.
Proof.
  intros Hrow. unfold Spec.row_html, Aux.extracted_row_html, Spec.grid_row.
  do 3 f_equal.
  assert (Hlen : (length row ≤ max_list (length <$> extracted))%nat).
  { apply max_list_elem_of_le, list_elem_of_fmap. exists row.
    split; [reflexivity|]. eapply list_elem_of_lookup_2, Hrow. }
  apply list_eq. intros c. rewrite !list_lookup_fmap.
  destruct (decide (c < max_list (length <$> extracted))%nat) as [Hc'|Hc'].
  - rewrite lookup_seq_lt by lia. simpl.
    rewrite cell_at_build_cells, Hrow. simpl.
    destruct (row !! c) as [content|] eqn:Hcontent.
    + rewrite lookup_app_l
        by (rewrite length_fmap; eapply lookup_lt_Some, Hcontent).
      rewrite list_lookup_fmap, Hcontent. simpl. f_equal.
      unfold Aux.extracted_cell_html. destruct (r =? 0)%nat; reflexivity.
    + apply lookup_ge_None_1 in Hcontent.
      rewrite lookup_app_r by (rewrite length_fmap; lia).
      rewrite length_fmap, lookup_replicate_2 by lia. reflexivity.
  - rewrite lookup_seq_ge by lia. simpl.
    rewrite lookup_ge_None_2; [reflexivity|].
    rewrite length_app, length_fmap, length_replicate. lia.
Qed.

(** X23.  The HTML of a table that the backend extracted, when the last
    row of the extraction has a cell: one [<tr>] per extracted row, in
    order; the entries of row 0 as [<th>] and the others as [<td>], with
    the text escaped and an absent entry empty, never a span attribute;
    a row shorter than the longest one is filled up with [<td></td>]. *)
Theorem extracted_table_to_html (page_num counter : Z)
    (found : Engine.FoundTable) (t : Table.t)
    (last_row : list (option string)) :
  Aux.table_from page_num counter found t →
  last (Engine.extract found) = Some last_row →
  last_row ≠ [] →
  HtmlConverter._table_to_html t
  = Aux.extracted_table_html ("table-" +:+ pretty counter)
                             (Engine.extract found).
Proof.
  intros (Hid & _ & _ & _ & Hcolumns & Hcells) Hlast Hne.
  rewrite _table_to_html_grid. unfold Spec.table_html.
  rewrite Hid, Hcolumns, Hcells. cbn [get].
  destruct (row_count_build_cells (Engine.extract found)) as [_ Hcount].
  rewrite (Hcount last_row Hlast Hne). unfold Aux.extracted_table_html.
  assert (Hrows :
    (λ r, Spec.row_html
            (Spec.grid_row (max_list (length <$> Engine.extract found))
                           (build_cells (Engine.extract found)) r))
      <$> seq 0 (length (Engine.extract found))
    = imap (Aux.extracted_row_html
              (max_list (length <$> Engine.extract found)))
           (Engine.extract found)).
  { apply list_eq. intros r. rewrite list_lookup_fmap, list_lookup_imap.
    destruct (Engine.extract found !! r) as [row|] eqn:Hrow.
    - rewrite lookup_seq_lt by (eapply lookup_lt_Some, Hrow). simpl. f_equal.
      apply extracted_row_html_grid, Hrow.
    - rewrite lookup_seq_ge by (eapply lookup_ge_None_1, Hrow).
      reflexivity. }
  rewrite Hrows. reflexivity.
Qed.

End ExtractedTableHtml.

Lemma extracted_table_to_html_witness :
  ∃ t, TextExtractionBackend.table_step 1 ([], 0%Z) Samples.found_table
       = ([t], 1%Z)
       ∧ HtmlConverter._table_to_html t
         = "<table border=" +:+ HtmlConverter.dq +:+ "1" +:+ HtmlConverter.dq
             +:+ " id=" +:+ HtmlConverter.dq +:+ "table-0"
             +:+ HtmlConverter.dq
             +:+ "><tbody><tr><th>Name</th><th>Qty</th></tr>"
             +:+ "<tr><td>a&lt;b</td><td></td></tr></tbody></table>".
Proof.
  eexists. split; [reflexivity|].
  rewrite (extracted_table_to_html 1 0 Samples.found_table _ [Some "a<b"]).
  - reflexivity.
  - unfold Aux.table_from. split_and!; reflexivity.
  - reflexivity.
  - discriminate.
Defined.

Section ExtractImagesFacts.
Import TextExtractionBackend.
Context (b64encode : string → string).

Lemma image_step_cases (page_num : Z) (images : list Image.t) (counter : Z)
    (img_info : Engine.ImageInfo) :
  (Aux.has_data img_info = false ∧
   image_step b64encode page_num (images, counter) img_info
   = (images, counter)) ∨
  (Aux.has_data img_info = true ∧ Aux.has_rects img_info = false ∧
   image_step b64encode page_num (images, counter) img_info
   = (images, (counter + 1)%Z)) ∨
  (Aux.has_data img_info = true ∧ Aux.has_rects img_info = true ∧
   ∃ img, image_step b64encode page_num (images, counter) img_info
          = (images ++ [img], (counter + 1)%Z)
          ∧ Aux.image_from b64encode page_num counter img_info img).
Proof.
  unfold image_step, Aux.has_data, Aux.has_rects, Aux.image_from.
  destruct (Engine.extract_image img_info) as [[img_data|]|];
    [|left; split; reflexivity..].
  destruct (Engine.get_image_rects img_info) as [img_rects|]; right.
  - right. split_and!; [reflexivity..|]. eexists. split; [reflexivity|].
    simpl. split_and!; [reflexivity..| |]; eauto.
  - left. split_and!; reflexivity.
Qed.

Lemma images_loop_spec (page_num : Z) (img_infos : list Engine.ImageInfo) :
  ∀ (acc : list Image.t) (counter : Z),
  ∃ images,
    foldl (image_step b64encode page_num) (acc, counter) img_infos
    = (acc ++ images,
       (counter + Z.of_nat (length (Aux.image_numbers counter img_infos)))%Z)
    ∧ Forall2 (λ '(n, img_info) img,
                 Aux.image_from b64encode page_num n img_info img)
              (filter (λ '(_, img_info), Aux.has_rects img_info = true)
                      (Aux.image_numbers counter img_infos))
              images.
Proof.
  induction img_infos as [|img_info img_infos IH]; intros acc counter.
  - exists []. simpl. rewrite app_nil_r, Z.add_0_r. split; constructor.
  - cbn [foldl Aux.image_numbers].
    destruct (image_step_cases page_num acc counter img_info)
      as [(-> & ->)|[(-> & Hr & ->)|(-> & Hr & img & -> & Himg)]].
    + apply IH.
    + destruct (IH acc (counter + 1)%Z) as (images & -> & Hall).
      exists images. split; [cbn [length]; f_equal; lia|].
      rewrite filter_cons_False by (rewrite Hr; discriminate). exact Hall.
    + destruct (IH (acc ++ [img]) (counter + 1)%Z) as (images & -> & Hall).
      exists (img :: images). split.
      * rewrite <- app_assoc. cbn [length]. simpl. f_equal. lia.
      * rewrite filter_cons_True by exact Hr. constructor; assumption.
Qed.

(** X24.  [_extract_images] never fails: an entry whose data cannot be
    extracted, or is empty, is passed over and takes no number; every
    other entry takes the next number, also when its rectangles cannot be
    read, in which case it gives no image and leaves a gap in the ids;
    the images returned are the remaining entries in order, each with its
    page, its MIME type [image/ext], its encoded data, and the box of its
    first rectangle, or the zero box when it has none. *)
Theorem extract_images_numbered (page : Engine.Page) (page_num : Z)
    (counter : Z) :
  ∃ images,
    _extract_images b64encode page page_num counter
    = (images,
       (counter
        + Z.of_nat (length (Aux.image_numbers counter
                              (Engine.get_images page))))%Z)
    ∧ Forall2 (λ '(n, img_info) img,
                 Aux.image_from b64encode page_num n img_info img)
              (filter (λ '(_, img_info), Aux.has_rects img_info = true)
                      (Aux.image_numbers counter (Engine.get_images page)))
              images.
Proof.
  apply (images_loop_spec page_num (Engine.get_images page) [] counter).
Qed.

End ExtractImagesFacts.

Section PageLoopFacts.
Import TextExtractionBackend.
Context (set_iter : list string → list string).
Context (Hset : ∀ l x, x ∈ set_iter l ↔ x ∈ l).
Context (b64encode : string → string).

Lemma on_page_app_l (total_pages : nat) (page_numbers more : list Z)
    (P : Z → Prop) :
  Aux.on_page total_pages page_numbers P →
  Aux.on_page total_pages (page_numbers ++ more) P.
Proof.
  intros (n & Hn & Hdoc & HP). exists n.
  split_and!; [apply elem_of_app; left; exact Hn|exact Hdoc|exact HP].
Qed.

Lemma on_page_last (total_pages : nat) (page_numbers : list Z)
    (page_num : Z) (P : Z → Prop) :
  Aux.in_document total_pages page_num → P page_num →
  Aux.on_page total_pages (page_numbers ++ [page_num]) P.
Proof.
  intros Hdoc HP. exists page_num.
  split_and!; [apply elem_of_app; right; left|exact Hdoc|exact HP].
Qed.

Lemma found_numbers (counter : Z) (found_tables : list Engine.FoundTable) :
  let numbers :=
    (λ jx : nat * Engine.FoundTable, (counter + Z.of_nat jx.1)%Z)
      <$> filter (λ '(_, found), Engine.extract found ≠ [])
                 (imap pair found_tables) in
  StronglySorted Z.lt numbers ∧
  Forall (λ n, (counter ≤ n < counter + Z.of_nat (length found_tables))%Z)
         numbers.
Proof.
  induction found_tables as [|found found_tables [IHs IHb]] using rev_ind.
  - split; constructor.
  - rewrite imap_app, filter_app, fmap_app, length_app. cbn [imap length].
    rewrite Nat.add_0_r. split.
    + apply StronglySorted_app_2; [|exact IHs|].
      * intros x1 x2 Hx1 Hx2. rewrite Forall_forall in IHb.
        specialize (IHb _ Hx1).
        destruct (decide (Engine.extract found ≠ [])) as [He|He].
        -- rewrite filter_cons_True, filter_nil in Hx2 by exact He.
           apply list_elem_of_singleton in Hx2 as ->. simpl. lia.
        -- rewrite filter_cons_False, filter_nil in Hx2 by exact He.
           inversion Hx2.
      * destruct (decide (Engine.extract found ≠ [])) as [He|He].
        -- rewrite filter_cons_True, filter_nil by exact He.
           repeat constructor.
        -- rewrite filter_cons_False, filter_nil by exact He. constructor.
    + apply Forall_app. split.
      * eapply Forall_impl; [exact IHb|]. simpl. intros n Hn. lia.
      * destruct (decide (Engine.extract found ≠ [])) as [He|He].
        -- rewrite filter_cons_True, filter_nil by exact He.
           repeat constructor; simpl; lia.
        -- rewrite filter_cons_False, filter_nil by exact He. constructor.
Qed.

Lemma image_numbers_bounds (img_infos : list Engine.ImageInfo) :
  ∀ counter,
    StronglySorted Z.lt ((Aux.image_numbers counter img_infos).*1) ∧
    Forall (λ n, (counter ≤ n
                  < counter
                    + Z.of_nat (length (Aux.image_numbers counter
                                          img_infos)))%Z)
           ((Aux.image_numbers counter img_infos).*1).
Proof.
  induction img_infos as [|img_info img_infos IH]; intros counter.
  - split; constructor.
  - cbn [Aux.image_numbers]. destruct (Aux.has_data img_info); [|apply IH].
    destruct (IH (counter + 1)%Z) as [IHs IHb]. cbn [fmap list_fmap length].
    split.
    + constructor; [exact IHs|]. eapply Forall_impl; [exact IHb|].
      simpl. intros n Hn. lia.
    + constructor; [simpl; lia|]. eapply Forall_impl; [exact IHb|].
      simpl. intros n Hn. lia.
Qed.

Lemma StronglySorted_filter {A} (R : relation A) (P : A → Prop)
    `{!∀ x, Decision (P x)} (l : list A) :
  StronglySorted R l → StronglySorted R (filter P l).
Proof.
  induction 1 as [|x l Hl IH Hx]; [constructor|].
  rewrite filter_cons. destruct (decide (P x)); [|exact IH].
  constructor; [exact IH|]. rewrite Forall_forall in Hx |- *.
  intros y Hy. apply Hx. apply list_elem_of_filter in Hy. apply Hy.
Qed.

Lemma page_step_spec (doc : list Engine.Page) (include_images : bool)
    (page_numbers : list Z) (st : Extracted) (page_num : Z) :
  Aux.extracted_ok b64encode (length doc) page_numbers st →
  ∃ st', page_step set_iter b64encode doc include_images st page_num = Ok st'
         ∧ Aux.extracted_ok b64encode (length doc)
                            (page_numbers ++ [page_num]) st'.
Proof.
  intros (Hcounter & Hparas & Htables & Himages & Hpages).
  unfold page_step.
  destruct ((page_num <? 1)%Z || (page_num >? Z.of_nat (length doc))%Z)
    eqn:Hout.
  { exists st. split; [reflexivity|].
    assert (Hnot : ¬ Aux.in_document (length doc) page_num).
    { unfold Aux.in_document. apply orb_true_iff in Hout. lia. }
    split_and!.
    - exact Hcounter.
    - intros i p Hp. apply on_page_app_l, (Hparas i p Hp).
    - destruct Htables as (numbers & Hs & Hb & Hall). exists numbers.
      split_and!; [exact Hs|exact Hb|].
      eapply Forall2_impl; [exact Hall|]. intros n t. apply on_page_app_l.
    - destruct Himages as (numbers & Hs & Hb & Hall). exists numbers.
      split_and!; [exact Hs|exact Hb|].
      eapply Forall2_impl; [exact Hall|]. intros n t. apply on_page_app_l.
    - rewrite filter_app, filter_cons_False, filter_nil, app_nil_r
        by exact Hnot. exact Hpages. }
  assert (Hin : Aux.in_document (length doc) page_num).
  { unfold Aux.in_document. apply orb_false_iff in Hout. lia. }
  destruct (doc !! Z.to_nat (page_num - 1)) as [page|] eqn:Hpage.
  2:{ apply lookup_ge_None_1 in Hpage. unfold Aux.in_document in Hin. lia. }
  unfold _extract_paragraphs.
  destruct (blocks_loop_spec set_iter Hset page_num
              (get (Engine.blocks page) []) [] (para_counter st))
    as (paragraphs & used & -> & _ & Hnew).
  cbn [mbind result_bind app].
  assert (Htab : ∃ tables counter' numbers,
            _extract_tables page page_num (table_counter st)
            = (tables, counter') ∧
            StronglySorted Z.lt numbers ∧
            Forall (λ n, (table_counter st ≤ n < counter')%Z) numbers ∧
            (table_counter st ≤ counter')%Z ∧
            Forall2 (λ n t, ∃ found, Aux.table_from page_num n found t)
                    numbers tables).
  { unfold _extract_tables.
    destruct (Engine.find_tables page) as [found_tables|].
    - destruct (tables_loop_spec page_num found_tables [] (table_counter st))
        as (tables & -> & Hall).
      destruct (found_numbers (table_counter st) found_tables) as [Hs Hb].
      eexists tables, _, _. split_and!; [reflexivity|exact Hs|exact Hb|lia|].
      apply Forall2_fmap_l. eapply Forall2_impl; [exact Hall|].
      intros [j found] t Ht. exists found. exact Ht.
    - exists [], (table_counter st), [].
      split_and!; [reflexivity|constructor|constructor|lia|constructor]. }
  destruct Htab as (tables & tcounter & tnumbers & -> & Hts & Htb & Htle & Htall).
  assert (Himg : ∃ images counter' numbers,
            (if include_images
             then _extract_images b64encode page page_num (img_counter st)
             else ([], img_counter st))
            = (images, counter') ∧
            StronglySorted Z.lt numbers ∧
            Forall (λ n, (img_counter st ≤ n < counter')%Z) numbers ∧
            (img_counter st ≤ counter')%Z ∧
            Forall2 (λ n img,
                       ∃ img_info,
                         Aux.image_from b64encode page_num n img_info img)
                    numbers images).
  { destruct include_images.
    - unfold _extract_images.
      destruct (images_loop_spec b64encode page_num (Engine.get_images page)
                  [] (img_counter st)) as (images & -> & Hall).
      destruct (image_numbers_bounds (Engine.get_images page) (img_counter st))
        as [Hs Hb].
      exists images. eexists.
      exists ((filter (λ '(_, img_info), Aux.has_rects img_info = true)
                      (Aux.image_numbers (img_counter st)
                                         (Engine.get_images page))).*1).
      split_and!; [reflexivity| | |lia|].
      + eapply StronglySorted_fmap with (R1 := λ a b, (a.1 < b.1)%Z);
          [intros x y Hxy; exact Hxy|].
        apply StronglySorted_filter.
        clear -Hs. revert Hs.
        generalize (Aux.image_numbers (img_counter st)
                      (Engine.get_images page)).
        induction l as [|x l IH]; [constructor|].
        cbn [fmap list_fmap]. intros Hs.
        apply StronglySorted_inv in Hs as [Hs Hx].
        constructor; [apply IH, Hs|].
        apply Forall_forall. intros y Hy.
        apply (proj1 (Forall_forall _ _) Hx).
        apply list_elem_of_fmap. exists y. split; [reflexivity|exact Hy].
      + rewrite Forall_forall in Hb |- *. intros n Hn. apply Hb.
        apply list_elem_of_fmap in Hn as (x & -> & Hx).
        apply list_elem_of_filter in Hx as [_ Hx].
        apply list_elem_of_fmap. exists x. split; [reflexivity|exact Hx].
      + apply Forall2_fmap_l. eapply Forall2_impl; [exact Hall|].
        intros [n img_info] img Himg. exists img_info. exact Himg.
    - exists [], (img_counter st), [].
      split_and!; [reflexivity|constructor|constructor|lia|constructor]. }
  destruct Himg as (images & icounter & inumbers & -> & His & Hib & Hile
                    & Hiall).
  eexists. split; [reflexivity|]. split_and!; cbn.
  - rewrite length_app, Hcounter. lia.
  - intros i p Hp. apply lookup_app_Some in Hp as [Hp|[Hi Hp]].
    + apply on_page_app_l, (Hparas i p Hp).
    + apply on_page_last; [exact Hin|].
      destruct (Forall2_lookup_r _ _ _ _ _ Hnew Hp) as ([j block] & Hj & Hb).
      rewrite list_lookup_imap in Hj.
      destruct (used !! (i - length (all_paragraphs st))%nat) as [b|];
        [|discriminate Hj].
      injection Hj as <- <-. exists b.
      replace (Z.of_nat i)
        with (para_counter st
              + Z.of_nat (i - length (all_paragraphs st)))%Z by lia.
      exact Hb.
  - destruct Htables as (numbers & Hs & Hb & Hall).
    exists (numbers ++ tnumbers). split_and!.
    + apply StronglySorted_app_2; [|exact Hs|exact Hts].
      intros x1 x2 Hx1 Hx2. rewrite Forall_forall in Hb, Htb.
      specialize (Hb _ Hx1). specialize (Htb _ Hx2). lia.
    + apply Forall_app. split.
      * eapply Forall_impl; [exact Hb|]. simpl. intros n Hn. lia.
      * eapply Forall_impl; [exact Htb|]. simpl. intros n Hn. lia.
    + apply Forall2_app.
      * eapply Forall2_impl; [exact Hall|]. intros n t. apply on_page_app_l.
      * eapply Forall2_impl; [exact Htall|]. intros n t Ht.
        apply on_page_last; [exact Hin|exact Ht].
  - destruct Himages as (numbers & Hs & Hb & Hall).
    exists (numbers ++ inumbers). split_and!.
    + apply StronglySorted_app_2; [|exact Hs|exact His].
      intros x1 x2 Hx1 Hx2. rewrite Forall_forall in Hb, Hib.
      specialize (Hb _ Hx1). specialize (Hib _ Hx2). lia.
    + apply Forall_app. split.
      * eapply Forall_impl; [exact Hb|]. simpl. intros n Hn. lia.
      * eapply Forall_impl; [exact Hib|]. simpl. intros n Hn. lia.
    + apply Forall2_app.
      * eapply Forall2_impl; [exact Hall|]. intros n t. apply on_page_app_l.
      * eapply Forall2_impl; [exact Hiall|]. intros n t Ht.
        apply on_page_last; [exact Hin|exact Ht].
  - rewrite filter_app, filter_cons_True, filter_nil, length_app by exact Hin.
    rewrite Hpages. simpl. lia.
Qed.

Lemma pages_loop_spec (doc : list Engine.Page) (include_images : bool)
    (more : list Z) :
  ∀ (page_numbers : list Z) (st : Extracted),
  Aux.extracted_ok b64encode (length doc) page_numbers st →
  ∃ st', for_each (page_step set_iter b64encode doc include_images) st more
         = Ok st'
         ∧ Aux.extracted_ok b64encode (length doc) (page_numbers ++ more) st'.
Proof.
  induction more as [|page_num more IH]; intros page_numbers st Hst.
  - exists st. rewrite app_nil_r. split; [reflexivity|exact Hst].
  - cbn [for_each].
    destruct (page_step_spec doc include_images page_numbers st page_num Hst)
      as (st1 & -> & Hst1).
    cbn [mbind result_bind].
    destruct (IH _ _ Hst1) as (st' & -> & Hst').
    exists st'. split; [reflexivity|].
    rewrite <- app_assoc in Hst'. exact Hst'.
Qed.

End PageLoopFacts.

Section ProcessExtractFacts.
Import TextExtractionBackend.
Context (set_iter : list string → list string).
Context (Hset : ∀ l x, x ∈ set_iter l ↔ x ∈ l).
Context (b64encode : string → string).

Lemma supports_extract_iff (operation : string) :
  supports operation = true ↔ operation = "extract".
Proof.
  unfold supports, SUPPORTED_OPERATIONS.
  rewrite bool_decide_eq_true, list_elem_of_singleton. reflexivity.
Qed.

Lemma classify_set_role (paragraphs : list Paragraph.t)
    (title_threshold heading_threshold : Q) :
  ∃ role_of,
    RoleDetector.classify paragraphs title_threshold heading_threshold
    = map (λ p, RoleDetector.set_role p (role_of p)) paragraphs.
Proof.
  destruct paragraphs as [|p ps].
  - exists (λ _, None). reflexivity.
  - eexists (λ para, _). reflexivity.
Qed.

Lemma initial_ok (total_pages : nat) :
  Aux.extracted_ok b64encode total_pages [] (mkExtracted [] [] [] 0 0 0 0).
Proof.
  split_and!; simpl.
  - reflexivity.
  - intros i p Hp. discriminate Hp.
  - exists []. split_and!; constructor.
  - exists []. split_and!; constructor.
  - reflexivity.
Qed.

Lemma bounding_box_ok (bbox : Q * Q * Q * Q) :
  Spec.bbox_ok (Some (bounding_box bbox)) = true.
Proof. destruct bbox as [[[a b] c] d]. reflexivity. Qed.

Lemma extracted_well_formed (total_pages : nat) (page_numbers : list Z)
    (st : Extracted) (role_of : Paragraph.t → option string) :
  Aux.extracted_ok b64encode total_pages page_numbers st →
  Spec.well_formed
    (map (λ p, RoleDetector.set_role p (role_of p)) (all_paragraphs st))
    (all_tables st) = true.
Proof.
  intros (_ & Hparas & (numbers & _ & _ & Htables) & _).
  unfold Spec.well_formed. apply andb_true_iff. split.
  - apply forallb_forall. intros q Hq.
    apply in_map_iff in Hq as (p & <- & Hp).
    apply list_elem_of_In, list_elem_of_lookup_1 in Hp as [i Hi].
    destruct (Hparas i p Hi)
      as (n & _ & _ & block & _ & _ & _ & _ & Hbox & (c & Hc & _) & _).
    simpl. rewrite Hbox, Hc, bounding_box_ok. reflexivity.
  - apply forallb_forall. intros t Ht.
    apply list_elem_of_In, list_elem_of_lookup_1 in Ht as [i Hi].
    destruct (Forall2_lookup_r _ _ _ _ _ Htables Hi)
      as (n & _ & (pn & _ & _ & found & _ & _ & Hbox & _)).
    rewrite Hbox. apply bounding_box_ok.
Qed.

Lemma process_extract (config : Config.t) (doc : list Engine.Page)
    (options : gmap string string) (page_numbers : list Z) :
  Aux.page_numbers_of (length doc) options = Ok page_numbers →
  ∃ st role_of result out fmt,
    Aux.extracted_ok b64encode (length doc) page_numbers st ∧
    DocumentAnalysisResult.paragraphs result
    = filter (λ p, ¬ Spec.dropped (all_tables st) p)
             (map (λ p, RoleDetector.set_role p (role_of p))
                  (all_paragraphs st)) ∧
    DocumentAnalysisResult.tables result = all_tables st ∧
    DocumentAnalysisResult.images result
    = (if Aux.include_images_of options then all_images st else []) ∧
    DocumentAnalysisResult.pages result
    = match Aux.page_range_of options with
      | EmptyString => Z.of_nat (length doc)
      | _ => Z.of_nat (length page_numbers)
      end ∧
    process config set_iter b64encode (Some doc) "extract" options
    = Ok (out, fmt,
          {| md_pages_processed := pretty (pages_processed st);
             md_total_paragraphs :=
               pretty (Z.of_nat (length (all_paragraphs st)));
             md_total_tables := pretty (Z.of_nat (length (all_tables st)));
             md_model_used := "pymupdf" |}) ∧
    (if bool_decide (get (options !! "output_format") "json" = "html")
     then fmt = "html" ∧
          ∃ html, HtmlConverter.convert result = Ok html ∧ out = Html html
     else fmt = "json" ∧ out = Json result).
Proof.
  intros Hnumbers.
  destruct (pages_loop_spec set_iter Hset b64encode doc
              (Aux.include_images_of options) page_numbers []
              (mkExtracted [] [] [] 0 0 0 0) (initial_ok (length doc)))
    as (st & Hloop & Hst).
  simpl in Hst.
  destruct (classify_set_role (all_paragraphs st)
              (Config.title_font_size_threshold (Config.extraction config))
              (Config.heading_font_size_threshold (Config.extraction config)))
    as [role_of Hclassify].
  set (pages :=
         match Aux.page_range_of options with
         | EmptyString => Z.of_nat (length doc)
         | _ => Z.of_nat (length page_numbers)
         end).
  destruct (assemble_total
              (map (λ p, RoleDetector.set_role p (role_of p))
                   (all_paragraphs st))
              (all_tables st)
              (Some (if Aux.include_images_of options
                     then all_images st else []))
              pages
              (extracted_well_formed _ _ _ role_of Hst))
    as [result Hresult].
  pose proof (assemble_inv _ _ _ _ _ Hresult) as (contents & Hcontents & Hdoc).
  assert (Hconvert : ∃ html, HtmlConverter.convert result = Ok html).
  { destruct (convert_total result) as [body Hbody]; [|eauto].
    rewrite Hdoc. simpl. apply Forall_forall. intros q Hq.
    apply list_elem_of_filter in Hq as [_ Hq].
    apply list_elem_of_In, in_map_iff in Hq as (p & <- & Hp).
    apply list_elem_of_In, list_elem_of_lookup_1 in Hp as [i Hi].
    destruct Hst as (_ & Hparas & _).
    destruct (Hparas i p Hi)
      as (n & _ & _ & block & _ & _ & _ & _ & _ & (c & Hc & _) & _).
    simpl. rewrite Hc. eauto. }
  destruct Hconvert as [html Hhtml].
  exists st, role_of, result.
  exists (if bool_decide (get (options !! "output_format") "json" = "html")
          then Html html else Json result).
  exists (if bool_decide (get (options !! "output_format") "json" = "html")
          then "html" else "json").
  split_and!; [exact Hst|rewrite Hdoc; reflexivity..| |].
  - unfold process.
    assert (Hs : supports "extract" = true) by (apply supports_extract_iff;
                                                 reflexivity).
    rewrite Hs. cbn [negb].
    unfold Aux.page_numbers_of, Aux.page_range_of in Hnumbers.
    unfold Aux.include_images_of in Hloop, Hresult.
    unfold Aux.page_range_of in pages.
    destruct (get (options !! "pages") EmptyString) as [|c r] eqn:Hrange.
    + rewrite Hnumbers. cbn [mbind result_bind]. rewrite Hloop.
      cbn [mbind result_bind]. rewrite Hclassify.
      subst pages. rewrite Hresult. cbn [mbind result_bind].
      rewrite length_map.
      destruct (bool_decide (get (options !! "output_format") "json" = "html"));
        [rewrite Hhtml|]; reflexivity.
    + rewrite Hnumbers. cbn [mbind result_bind]. rewrite Hloop.
      cbn [mbind result_bind]. rewrite Hclassify.
      subst pages. rewrite Hresult. cbn [mbind result_bind].
      rewrite length_map.
      destruct (bool_decide (get (options !! "output_format") "json" = "html"));
        [rewrite Hhtml|]; reflexivity.
  - destruct (bool_decide (get (options !! "output_format") "json" = "html"));
      eauto.
Qed.

Lemma process_Ok_pre (config : Config.t) (doc : option (list Engine.Page))
    (operation : string) (options : gmap string string)
    (out : Output * string * Metadata) :
  process config set_iter b64encode doc operation options = Ok out →
  operation = "extract" ∧
  ∃ pages page_numbers,
    doc = Some pages ∧
    Aux.page_numbers_of (length pages) options = Ok page_numbers.
Proof.
  unfold process, Aux.page_numbers_of, Aux.page_range_of.
  destruct (supports operation) eqn:Hs; cbn [negb]; [|discriminate].
  apply supports_extract_iff in Hs. intros H. split; [exact Hs|].
  destruct doc as [pages|]; [|discriminate H].
  exists pages.
  destruct (get (options !! "pages") EmptyString) as [|c r]; [eauto|].
  destruct (PageFilter.parse_page_range (String c r)) as [page_numbers|e];
    [eauto|discriminate H].
Qed.




Lemma string_app_inj (prefix a b : string) :
  prefix +:+ a = prefix +:+ b → a = b.
Proof.
  induction prefix as [|c prefix IH]; [intros H; exact H|].
  rewrite !string_app_cons. intros [= H]. apply IH, H.
Qed.

Lemma numbered_NoDup (prefix : string) (numbers : list Z) :
  StronglySorted Z.lt numbers → NoDup (Aux.numbered prefix numbers).
Proof.
  intros Hs. apply NoDup_fmap_2.
  - intros a b H. apply string_app_inj in H. apply (inj pretty), H.
  - induction Hs as [|n numbers Hs IH Hn]; constructor; [|exact IH].
    intros Hin. rewrite Forall_forall in Hn. specialize (Hn _ Hin). lia.
Qed.

Lemma ids_numbered {A} (id : A → string) (prefix : string) (l : list A)
    (numbers : list Z) (P : Z → A → Prop) :
  (∀ n x, P n x → id x = prefix +:+ pretty n) →
  Forall2 P numbers l → id <$> l = Aux.numbered prefix numbers.
Proof.
  intros HP. induction 1 as [|n x numbers l Hx Hall IH]; [reflexivity|].
  unfold Aux.numbered. cbn [fmap list_fmap]. f_equal; [apply (HP n x Hx)|].
  exact IH.
Qed.

Lemma paragraph_ids (total_pages : nat) (page_numbers : list Z)
    (st : Extracted) :
  Aux.extracted_ok b64encode total_pages page_numbers st →
  Paragraph.id <$> all_paragraphs st
  = Aux.numbered "para-"
      (seqZ 0 (Z.of_nat (length (all_paragraphs st)))).
Proof.
  intros (_ & Hparas & _). apply list_eq. intros i.
  unfold Aux.numbered. rewrite !list_lookup_fmap.
  destruct (all_paragraphs st !! i) as [p|] eqn:Hp.
  - rewrite lookup_seqZ_lt
      by (apply lookup_lt_Some in Hp; lia).
    destruct (Hparas i p Hp) as (n & _ & _ & block & _ & Hid & _).
    simpl. rewrite Hid. reflexivity.
  - rewrite lookup_seqZ_ge by (apply lookup_ge_None_1 in Hp; lia).
    reflexivity.
Qed.

Lemma process_Ok_inv_extract (config : Config.t)
    (doc : option (list Engine.Page)) (operation : string)
    (options : gmap string string) (out : Output) (fmt : string)
    (md : Metadata) :
  process config set_iter b64encode doc operation options
  = Ok (out, fmt, md) →
  operation = "extract" ∧
  ∃ pages page_numbers st role_of result,
    doc = Some pages ∧
    Aux.page_numbers_of (length pages) options = Ok page_numbers ∧
    Aux.extracted_ok b64encode (length pages) page_numbers st ∧
    DocumentAnalysisResult.paragraphs result
    = filter (λ p, ¬ Spec.dropped (all_tables st) p)
             (map (λ p, RoleDetector.set_role p (role_of p))
                  (all_paragraphs st)) ∧
    DocumentAnalysisResult.tables result = all_tables st ∧
    DocumentAnalysisResult.images result
    = (if Aux.include_images_of options then all_images st else []) ∧
    DocumentAnalysisResult.pages result
    = match Aux.page_range_of options with
      | EmptyString => Z.of_nat (length pages)
      | _ => Z.of_nat (length page_numbers)
      end ∧
    md = {| md_pages_processed := pretty (pages_processed st);
            md_total_paragraphs :=
              pretty (Z.of_nat (length (all_paragraphs st)));
            md_total_tables := pretty (Z.of_nat (length (all_tables st)));
            md_model_used := "pymupdf" |} ∧
    ((fmt = "json" ∧ out = Json result) ∨
     (fmt = "html" ∧ ∃ html, HtmlConverter.convert result = Ok html
                             ∧ out = Html html)).
Proof.
  intros H.
  destruct (process_Ok_pre _ _ _ _ _ H) as (-> & pages & page_numbers & ->
                                            & Hnumbers).
  split; [reflexivity|].
  destruct (process_extract config pages options page_numbers Hnumbers)
    as (st & role_of & result & out' & fmt' & Hst & Hp & Ht & Hi & Hn
        & Hprocess & Hout).
  rewrite Hprocess in H. injection H as <- <- <-.
  exists pages, page_numbers, st, role_of, result.
  split_and!; try assumption; try reflexivity.
  destruct (bool_decide _); [right|left]; exact Hout.
Qed.


(** X26.  The ids of an extraction are distinct.  The paragraphs of the
    document are a subsequence of [para-0], [para-1], ... up to the count
    [total_paragraphs] of the metadata, which counts the paragraphs before
    those inside a table are dropped; the tables and the images carry
    [table-n] and [img-n] with increasing numbers; and there is no image
    unless [include_images] reads [true] in any letter case. *)
Theorem extract_ids_distinct (config : Config.t)
    (doc : option (list Engine.Page)) (operation : string)
    (options : gmap string string) (out : Output) (fmt : string)
    (md : Metadata) :
  process config set_iter b64encode doc operation options
  = Ok (out, fmt, md) →
  ∃ result (total : nat) table_numbers image_numbers,
    ((fmt = "json" ∧ out = Json result) ∨
     (fmt = "html" ∧ ∃ html, HtmlConverter.convert result = Ok html
                             ∧ out = Html html)) ∧
    md_total_paragraphs md = pretty (Z.of_nat total) ∧
    sublist (Paragraph.id <$> DocumentAnalysisResult.paragraphs result)
            (Aux.numbered "para-" (seqZ 0 (Z.of_nat total))) ∧
    Table.id <$> DocumentAnalysisResult.tables result
    = Aux.numbered "table-" table_numbers ∧
    StronglySorted Z.lt table_numbers ∧
    Image.id <$> DocumentAnalysisResult.images result
    = Aux.numbered "img-" image_numbers ∧
    StronglySorted Z.lt image_numbers ∧
    (Aux.include_images_of options = false →
     DocumentAnalysisResult.images result = []) ∧
    NoDup (Paragraph.id <$> DocumentAnalysisResult.paragraphs result) ∧
    NoDup (Table.id <$> DocumentAnalysisResult.tables result) ∧
    NoDup (Image.id <$> DocumentAnalysisResult.images result).
Proof.
  intros H.
  destruct (process_Ok_inv_extract _ _ _ _ _ _ _ H)
    as (_ & pages & page_numbers & st & role_of & result & _ & _ & Hst & Hp
        & Ht & Hi & _ & -> & Hout).
  pose proof (paragraph_ids _ _ _ Hst) as Hids.
  destruct Hst as (_ & _ & (tnumbers & Hts & _ & Htall)
                   & (inumbers & His & _ & Hiall) & _).
  assert (Hsub : sublist
            (Paragraph.id <$> DocumentAnalysisResult.paragraphs result)
            (Aux.numbered "para-"
               (seqZ 0 (Z.of_nat (length (all_paragraphs st)))))).
  { rewrite Hp, <- Hids. etrans; [apply fmap_sublist, sublist_filter|].
    change (map ?f ?l) with (f <$> l). rewrite <- list_fmap_compose.
    reflexivity. }
  assert (Htids : Table.id <$> DocumentAnalysisResult.tables result
                  = Aux.numbered "table-" tnumbers).
  { rewrite Ht. eapply ids_numbered; [|exact Htall].
    intros n t (pn & _ & _ & found & Hid & _). exact Hid. }
  assert (Hiids : Image.id <$> DocumentAnalysisResult.images result
                  = Aux.numbered "img-"
                      (if Aux.include_images_of options
                       then inumbers else [])).
  { rewrite Hi. destruct (Aux.include_images_of options); [|reflexivity].
    eapply ids_numbered; [|exact Hiall].
    intros n img (pn & _ & _ & info & Hid & _). exact Hid. }
  assert (His' : StronglySorted Z.lt
                   (if Aux.include_images_of options then inumbers else [])).
  { destruct (Aux.include_images_of options); [exact His|constructor]. }
  exists result, (length (all_paragraphs st)), tnumbers,
    (if Aux.include_images_of options then inumbers else []).
  split_and!; try assumption.
  - reflexivity.
  - intros Hno. rewrite Hi, Hno. reflexivity.
  - eapply sublist_NoDup; [|exact Hsub]. apply numbered_NoDup.
    assert (Hsorted : ∀ n m, StronglySorted Z.lt (seqZ m (Z.of_nat n))).
    { clear. induction n as [|n IH]; intros m.
      - rewrite seqZ_nil by lia. constructor.
      - rewrite seqZ_cons by lia. constructor.
        + replace (Z.pred (Z.of_nat (S n))) with (Z.of_nat n) by lia.
          apply IH.
        + apply Forall_forall. intros k Hk. apply elem_of_seqZ in Hk. lia. }
    apply Hsorted.
  - rewrite Htids. apply numbered_NoDup, Hts.
  - rewrite Hiids. apply numbered_NoDup, His'.
Qed.

(** X27.  The pages of an extraction.  Without a [pages] option every page
    of the document is processed.  With one, the pages it names that do
    not exist are passed over without an error: [pages_processed] counts
    the named pages that exist, while the [pages] field of the document is
    the number of pages named, existing or not.  Every paragraph, table
    and image of the document is on a named page that exists. *)
Theorem extract_page_selection (config : Config.t)
    (pages : list Engine.Page) (operation : string)
    (options : gmap string string) (out : Output) (fmt : string)
    (md : Metadata) :
  process config set_iter b64encode (Some pages) operation options
  = Ok (out, fmt, md) →
  ∃ result page_numbers,
    ((fmt = "json" ∧ out = Json result) ∨
     (fmt = "html" ∧ ∃ html, HtmlConverter.convert result = Ok html
                             ∧ out = Html html)) ∧
    Aux.page_numbers_of (length pages) options = Ok page_numbers ∧
    md_pages_processed md
    = pretty (Z.of_nat (length (filter (Aux.in_document (length pages))
                                       page_numbers))) ∧
    (Aux.page_range_of options = EmptyString →
     DocumentAnalysisResult.pages result = Z.of_nat (length pages) ∧
     md_pages_processed md = pretty (Z.of_nat (length pages))) ∧
    (Aux.page_range_of options ≠ EmptyString →
     DocumentAnalysisResult.pages result
     = Z.of_nat (length page_numbers)) ∧
    Forall (λ p, ∃ n, Paragraph.page_number p = Some n ∧ n ∈ page_numbers
                      ∧ Aux.in_document (length pages) n)
           (DocumentAnalysisResult.paragraphs result) ∧
    Forall (λ t, ∃ n, Table.page_number t = Some n ∧ n ∈ page_numbers
                      ∧ Aux.in_document (length pages) n)
           (DocumentAnalysisResult.tables result) ∧
    Forall (λ img, ∃ n, Image.page_number img = Some n ∧ n ∈ page_numbers
                        ∧ Aux.in_document (length pages) n)
           (DocumentAnalysisResult.images result).
Proof.
  intros H.
  destruct (process_Ok_inv_extract _ _ _ _ _ _ _ H)
    as (_ & pages' & page_numbers & st & role_of & result & [= <-] & Hnumbers
        & Hst & Hp & Ht & Hi & Hn & -> & Hout).
  destruct Hst as (_ & Hparas & (tnumbers & _ & _ & Htall)
                   & (inumbers & _ & _ & Hiall) & Hpages).
  exists result, page_numbers.
  split_and!; [exact Hout|exact Hnumbers| | | | | |].
  - simpl. rewrite Hpages. reflexivity.
  - intros Hrange. rewrite Hn, Hrange. split; [reflexivity|].
    simpl. rewrite Hpages. do 2 f_equal.
    unfold Aux.page_numbers_of in Hnumbers. rewrite Hrange in Hnumbers.
    injection Hnumbers as <-.
    assert (Hall : filter (Aux.in_document (length pages))
                          (PageFilter.range 1 (Z.of_nat (length pages) + 1))
                   = PageFilter.range 1 (Z.of_nat (length pages) + 1)).
    { generalize (PageFilter.range 1 (Z.of_nat (length pages) + 1))
        (λ n, proj1 (elem_of_range 1 (Z.of_nat (length pages) + 1) n)).
      intros l Hl. induction l as [|n l IH]; [reflexivity|].
      rewrite filter_cons_True.
      - f_equal. apply IH. intros m Hm. apply Hl. right. exact Hm.
      - unfold Aux.in_document. specialize (Hl n (list_elem_of_here _ _)).
        lia. }
    rewrite Hall. unfold PageFilter.range. rewrite length_seqZ. lia.
  - intros Hrange. rewrite Hn.
    destruct (Aux.page_range_of options); [contradiction|reflexivity].
  - rewrite Hp. apply Forall_forall. intros q Hq.
    apply list_elem_of_filter in Hq as [_ Hq].
    apply list_elem_of_In, in_map_iff in Hq as (p & <- & Hq).
    apply list_elem_of_In, list_elem_of_lookup_1 in Hq as [i Hq].
    destruct (Hparas i p Hq) as (n & Hn1 & Hn2 & block & _ & _ & _ & Hpn & _).
    exists n. split_and!; assumption.
  - rewrite Ht. apply Forall_forall. intros t Hin.
    apply list_elem_of_lookup_1 in Hin as [i Hin].
    destruct (Forall2_lookup_r _ _ _ _ _ Htall Hin)
      as (k & _ & (n & Hn1 & Hn2 & found & _ & Hpn & _)).
    exists n. split_and!; assumption.
  - rewrite Hi. destruct (Aux.include_images_of options); [|constructor].
    apply Forall_forall. intros img Hin.
    apply list_elem_of_lookup_1 in Hin as [i Hin].
    destruct (Forall2_lookup_r _ _ _ _ _ Hiall Hin)
      as (k & _ & (n & Hn1 & Hn2 & info & _ & Hpn & _)).
    exists n. split_and!; assumption.
Qed.

End ProcessExtractFacts.

Section ProcessOutputFacts.
Import TextExtractionBackend.
Context (set_iter : list string → list string).
Context (Hset : ∀ l x, x ∈ set_iter l ↔ x ∈ l).
Context (b64encode : string → string).

Lemma process_html_of_json (config : Config.t)
    (doc : option (list Engine.Page)) (operation : string)
    (options : gmap string string) (result : DocumentAnalysisResult.t)
    (fmt : string) (md : Metadata) :
  process config set_iter b64encode doc operation
          (<["output_format" := "json"]> options)
  = Ok (Json result, fmt, md) →
  process config set_iter b64encode doc operation
          (<["output_format" := "html"]> options)
  = HtmlConverter.convert result ≫= λ html, Ok (Html html, "html", md).
Proof.
  unfold process.
  rewrite !lookup_insert_eq, !lookup_insert_ne by discriminate.
  destruct (negb (supports operation)); [discriminate|].
  destruct doc as [pages|]; [|discriminate].
  cbn [get].
  rewrite (bool_decide_eq_false_2 ("json" = "html")) by discriminate.
  rewrite (bool_decide_eq_true_2 ("html" = "html")) by reflexivity.
  destruct (match get (options !! "pages") EmptyString with
            | EmptyString => _
            | String _ _ => _
            end) as [page_numbers|e]; [|discriminate].
  cbn [mbind result_bind].
  destruct (for_each _ _ page_numbers) as [st|e]; [|discriminate].
  cbn [mbind result_bind].
  destruct (ResultAssembler.assemble _ _ _ _) as [result'|e]; [|discriminate].
  cbn [mbind result_bind]. intros [= -> _ <-].
  destruct (HtmlConverter.convert result); reflexivity.
Qed.

(** X29.  The HTML output is the rendering of the JSON output: with
    [output_format] set to [html], [process] returns the conversion of the
    very document it returns for [json], with the same metadata, and that
    conversion never fails on an extracted document. *)
Theorem extract_html_of_json (config : Config.t)
    (doc : option (list Engine.Page)) (operation : string)
    (options : gmap string string) (result : DocumentAnalysisResult.t)
    (fmt : string) (md : Metadata) :
  process config set_iter b64encode doc operation
          (<["output_format" := "json"]> options)
  = Ok (Json result, fmt, md) →
  ∃ html,
    HtmlConverter.convert result = Ok html ∧
    process config set_iter b64encode doc operation
            (<["output_format" := "html"]> options)
    = Ok (Html html, "html", md).
Proof.
  intros H. pose proof (process_html_of_json _ _ _ _ _ _ _ H) as Hhtml.
  destruct (process_Ok_inv_extract set_iter Hset b64encode _ _ _ _ _ _ _ H)
    as (_ & pages & page_numbers & st & role_of & result' & _ & _ & Hst & Hp
        & _ & _ & _ & _ & Hout).
  destruct Hout as [[_ [= <-]]|(_ & html & _ & Hne)]; [|discriminate Hne].
  destruct (convert_total result) as [body Hbody].
  - rewrite Hp. apply Forall_forall. intros q Hq.
    apply list_elem_of_filter in Hq as [_ Hq].
    apply list_elem_of_In, in_map_iff in Hq as (p & <- & Hq).
    apply list_elem_of_In, list_elem_of_lookup_1 in Hq as [i Hq].
    destruct Hst as (_ & Hparas & _).
    destruct (Hparas i p Hq)
      as (n & _ & _ & block & _ & _ & _ & _ & _ & (c & Hc & _) & _).
    simpl. rewrite Hc. eauto.
  - eexists. split; [exact Hbody|]. rewrite Hhtml, Hbody. reflexivity.
Qed.

End ProcessOutputFacts.


Lemma extract_ids_distinct_witness :
  ∃ result md,
    TextExtractionBackend.process
      Samples.config Samples.set_iter Samples.b64encode (Some Samples.doc)
      "extract" {[ "include_images" := "True" ]}
    = Ok (TextExtractionBackend.Json result, "json", md) ∧
    Table.id <$> DocumentAnalysisResult.tables result
    = ["table-0"; "table-2"] ∧
    Image.id <$> DocumentAnalysisResult.images result = ["img-0"; "img-2"] ∧
    NoDup (Table.id <$> DocumentAnalysisResult.tables result).
Proof.
  destruct (TextExtractionBackend.process
              Samples.config Samples.set_iter Samples.b64encode
              (Some Samples.doc) "extract" {[ "include_images" := "True" ]})
    as [[[out fmt] md]|e] eqn:H; [|vm_compute in H; discriminate H].
  destruct (extract_ids_distinct Samples.set_iter set_iter_elem _ _ _ _ _ _
              _ _ H)
    as (result & total & table_numbers & image_numbers & Hout & _ & _ & _ & _
        & _ & _ & _ & _ & Hnd & _).
  vm_compute in H. injection H as <- <- <-.
  destruct Hout as [[_ [= <-]]|[Hfmt _]]; [|discriminate Hfmt].
  eexists _, _. split_and!; [reflexivity..|exact Hnd].
Defined.

Lemma extract_page_selection_witness :
  ∃ result md,
    TextExtractionBackend.process
      Samples.config Samples.set_iter Samples.b64encode (Some Samples.doc)
      "extract" {[ "pages" := "1, 2,7" ]}
    = Ok (TextExtractionBackend.Json result, "json", md) ∧
    DocumentAnalysisResult.pages result = 3%Z ∧
    TextExtractionBackend.md_pages_processed md = "2".
Proof.
  destruct (TextExtractionBackend.process
              Samples.config Samples.set_iter Samples.b64encode
              (Some Samples.doc) "extract" {[ "pages" := "1, 2,7" ]})
    as [[[out fmt] md]|e] eqn:H; [|vm_compute in H; discriminate H].
  destruct (extract_page_selection Samples.set_iter set_iter_elem _ _ _ _ _
              _ _ _ H)
    as (result & page_numbers & Hout & Hnumbers & Hprocessed & _ & Hpages & _).
  assert (Hpn : page_numbers = [1; 2; 7]%Z).
  { vm_compute in Hnumbers. injection Hnumbers as <-. reflexivity. }
  subst page_numbers.
  assert (Hrange : Aux.page_range_of {[ "pages" := "1, 2,7" ]} ≠ EmptyString)
    by (vm_compute; discriminate).
  specialize (Hpages Hrange).
  vm_compute in H. injection H as <- <- <-.
  destruct Hout as [[_ [= <-]]|[Hfmt _]]; [|discriminate Hfmt].
  eexists _, _. split_and!; [reflexivity|exact Hpages|exact Hprocessed].
Defined.

Lemma extract_html_of_json_witness :
  ∃ html md,
    TextExtractionBackend.process
      Samples.config Samples.set_iter Samples.b64encode (Some [Samples.page_2])
      "extract" (<["output_format" := "html"]> ∅)
    = Ok (TextExtractionBackend.Html html, "html", md) ∧
    html = Aux.html_open +:+ "<h1>Second</h1>" +:+ Aux.html_close.
Proof.
  destruct (TextExtractionBackend.process
              Samples.config Samples.set_iter Samples.b64encode
              (Some [Samples.page_2]) "extract"
              (<["output_format" := "json"]> ∅))
    as [[[out fmt] md]|e] eqn:H; [|vm_compute in H; discriminate H].
  assert (Hout : ∃ result, out = TextExtractionBackend.Json result).
  { vm_compute in H. injection H as <- _ _. eauto. }
  destruct Hout as [result ->].
  destruct (extract_html_of_json Samples.set_iter set_iter_elem _ _ _ _ _ _
              _ _ H) as (html & Hconvert & Hprocess).
  exists html, md. split; [exact Hprocess|].
  vm_compute in H. injection H as <- _ _.
  vm_compute in Hconvert. injection Hconvert as <-. reflexivity.
Defined.
